(** * Multi-phase batch extraction orchestrator: a shallow embedding

    This development embeds the batch-orchestration layer of the
    argumentation-mining package

      - [argumentation_mining/utils/openai_calls.py]
      - [argumentation_mining/pipelines/direct_extraction/direct_extraction.py]
      - [argumentation_mining/pipelines/socratic_extraction/socratic_extraction.py]

    with the runner and the CSV writer that use it

      - [argumentation_mining/main.py] ([run_pipeline],
        [_convert_results_to_dict])
      - [argumentation_mining/utils/output_formatter.py]

    and proves properties of the request builders, the polling loop, the
    result joiner, the single-article path, the response parsers, the
    sequential runner and the rows of the CSV file.

    Conventions.
      - A Python [str] is a Rocq [string]; every character stands for the
        code point with the same number (U+0000 .. U+00FF), and the character
        classes ([isspace], [isdigit]) are Python's on that range.
      - A Python [dict] with string keys is a [gmap string _].
      - Values of type [Any] (JSON documents, article fields) are [json].
      - Code that calls the remote service runs in the monad [M]: it threads
        the state of the outside world and can return, raise or (for the
        polling loop, which has no bound in the source) run out of fuel. *)

From Stdlib Require Import Ascii String DecimalString DecimalNat QArith_base.
From stdpp Require Import base option list gmap strings numbers.

(** ** Python strings *)

Module PyStr.

(** [str.isspace] on one character (code points below 256). *)
Definition isspace (c : ascii) : bool :=
  let n := nat_of_ascii c in
  ((9 <=? n) && (n <=? 13)) || ((28 <=? n) && (n <=? 32))
  || (n =? 133) || (n =? 160).

(** [str.isdigit] on one character (code points below 256: the ASCII
    digits and the superscripts two, three and one). *)
Definition isdigit (c : ascii) : bool :=
  let n := nat_of_ascii c in
  ((48 <=? n) && (n <=? 57)) || (n =? 178) || (n =? 179) || (n =? 185).

Definition is_empty (s : string) : bool :=
  match s with EmptyString => true | String _ _ => false end.

(** [s.lstrip(chars)], the set of characters given as a predicate. *)
Fixpoint lstrip_with (p : ascii -> bool) (s : string) : string :=
  match s with
  | EmptyString => EmptyString
  | String c s' => if p c then lstrip_with p s' else s
  end.

(** [s.rstrip(chars)]. *)
Fixpoint rstrip_with (p : ascii -> bool) (s : string) : string :=
  match s with
  | EmptyString => EmptyString
  | String c s' =>
      let r := rstrip_with p s' in
      if is_empty r && p c then EmptyString else String c r
  end.

(** [s.strip()] *)
Definition strip (s : string) : string :=
  rstrip_with isspace (lstrip_with isspace s).

(** [s.lstrip("- ")] *)
Definition lstrip_dash_space (s : string) : string :=
  lstrip_with (fun c => Ascii.eqb c "-"%char || Ascii.eqb c " "%char) s.

(** [s.split(sep)] for a one-character separator. *)
Fixpoint split (sep : ascii) (s : string) : list string :=
  match s with
  | EmptyString => [EmptyString]
  | String c s' =>
      if Ascii.eqb c sep then EmptyString :: split sep s'
      else match split sep s' with
           | h :: t => String c h :: t
           | [] => [String c EmptyString]
           end
  end.

(** [sep in s] for a one-character [sep]. *)
Fixpoint contains (sep : ascii) (s : string) : bool :=
  match s with
  | EmptyString => false
  | String c s' => Ascii.eqb c sep || contains sep s'
  end.

(** [s.split(sep, 1)[-1]]: what follows the first [sep], or [s] itself
    when there is none. *)
Fixpoint split1_last (sep : ascii) (s : string) : string :=
  match s with
  | EmptyString => EmptyString
  | String c s' =>
      if Ascii.eqb c sep then s'
      else if contains sep s' then split1_last sep s' else s
  end.

(** [s.startswith(p)] *)
Definition startswith (p s : string) : bool := String.prefix p s.

(** [s[0].isdigit()], for a non-empty [s] (the callers check). *)
Definition head_isdigit (s : string) : bool :=
  match s with EmptyString => false | String c _ => isdigit c end.

(** [str(i)] for a non-negative [int]. *)
Definition of_nat (i : nat) : string :=
  NilEmpty.string_of_uint (Nat.to_uint i).

End PyStr.

(** ** Exceptions and results

    The classes the program catches by name, and [OtherError] for every
    class that derives from none of them (the SDK's connection and API
    errors among them).  [exn_msg e] is [str(e)]. *)

Inductive exn_class :=
| ValueError | KeyError | IndexError | AttributeError | TypeError
| RuntimeError
| OtherError (name : string).

Record exn := Exn { exn_cls : exn_class; exn_msg : string }.

Inductive res (A : Type) :=
| Ok (a : A)
| Err (e : exn).
Arguments Ok {A} a.
Arguments Err {A} e.

Definition rbind {A B} (r : res A) (f : A -> res B) : res B :=
  match r with Ok a => f a | Err e => Err e end.

Declare Scope res_scope.
Delimit Scope res_scope with res.
Notation "x <-? c1 ; c2" := (rbind c1 (fun x => c2))
  (at level 100, c1 at next level, right associativity) : res_scope.

(** ** Dynamic values *)

#[local] Unset Elimination Schemes.
Inductive json :=
| JNull
| JBool (b : bool)
| JNum (q : Q)
| JStr (s : string)
| JArr (l : list json)
| JObj (m : gmap string json).
#[local] Set Elimination Schemes.

Module Py.

(** Truth value of an object. *)
Definition truthy (v : json) : bool :=
  match v with
  | JNull => false
  | JBool b => b
  | JNum q => negb (Qeq_bool q 0)
  | JStr s => negb (PyStr.is_empty s)
  | JArr l => match l with [] => false | _ => true end
  | JObj m => negb (bool_decide (m = ∅))
  end.

(** [d.get(k, dflt)] on a dict. *)
Definition dict_get (d : gmap string json) (k : string) (dflt : json) : json :=
  default dflt (d !! k).

(** [v.get(k, dflt)] on any object: only dicts have the method. *)
Definition get (v : json) (k : string) (dflt : json) : res json :=
  match v with
  | JObj m => Ok (dict_get m k dflt)
  | _ => Err (Exn AttributeError "object has no attribute 'get'")
  end.

(** [v[0]] on any object. *)
Definition index0 (v : json) : res json :=
  match v with
  | JArr (x :: _) => Ok x
  | JArr [] => Err (Exn IndexError "list index out of range")
  | JStr (String c _) => Ok (JStr (String c EmptyString))
  | JStr EmptyString => Err (Exn IndexError "string index out of range")
  | JObj _ => Err (Exn KeyError "0")
  | JNull | JBool _ | JNum _ =>
      Err (Exn TypeError "object is not subscriptable")
  end.

(** [v.strip()] on any object: only strings have the method. *)
Definition strip (v : json) : res string :=
  match v with
  | JStr s => Ok (PyStr.strip s)
  | _ => Err (Exn AttributeError "object has no attribute 'strip'")
  end.

(** [d[k] = v] on a dict whose program-visible keys are strings.  A list
    or dict key is unhashable.  Any other non-string key is stored under a
    key that equals no string, and the program reads these dicts through
    string keys only, so such an entry is never observed. *)
Definition setitem {V} (d : gmap string V) (k : json) (v : V)
  : res (gmap string V) :=
  match k with
  | JStr s => Ok (<[s := v]> d)
  | JArr _ | JObj _ => Err (Exn TypeError "unhashable type")
  | JNull | JBool _ | JNum _ => Ok d
  end.

End Py.

(** ** Effects: the outside world

    A computation takes the state of the outside world (the remote service,
    the clock) and gives the new state with its outcome.  [OutOfFuel] is the
    outcome of a polling loop that was cut after its allotted number of
    rounds; the source has no such bound. *)

Inductive outcome (A : Type) :=
| Returns (a : A)
| Raises (e : exn)
| OutOfFuel.
Arguments Returns {A} a.
Arguments Raises {A} e.
Arguments OutOfFuel {A}.

Definition M (W A : Type) : Type := W -> W * outcome A.

Definition ret {W A} (a : A) : M W A := fun w => (w, Returns a).

Definition raise {W A} (e : exn) : M W A := fun w => (w, Raises e).

Definition bind {W A B} (c : M W A) (k : A -> M W B) : M W B :=
  fun w =>
    match c w with
    | (w', Returns a) => k a w'
    | (w', Raises e) => (w', Raises e)
    | (w', OutOfFuel) => (w', OutOfFuel)
    end.

(** An effect of the outside world that answers or fails. *)
Definition perform {W A} (op : W -> W * res A) : M W A :=
  fun w =>
    match op w with
    | (w', Ok a) => (w', Returns a)
    | (w', Err e) => (w', Raises e)
    end.

(** A pure step that can raise. *)
Definition lift {W A} (r : res A) : M W A :=
  match r with Ok a => ret a | Err e => raise e end.

Declare Scope io_scope.
Delimit Scope io_scope with io.
Notation "'do' x <- c1 ; c2" := (bind c1 (fun x => c2))
  (at level 10, x name, c1 at level 100, c2 at level 200) : io_scope.

(** [for x in l: acc = f(acc, x)], where the body can raise. *)
Fixpoint for_fold {A B} (f : B -> A -> res B) (acc : B) (l : list A)
  : res B :=
  match l with
  | [] => Ok acc
  | x :: l' => rbind (f acc x) (fun acc' => for_fold f acc' l')
  end.

(** [for x in l: out.append(f(x))], where the body has effects. *)
Fixpoint for_each {W A B} (f : A -> M W B) (l : list A) : M W (list B) :=
  match l with
  | [] => ret []
  | x :: l' =>
      bind (f x) (fun y => bind (for_each f l') (fun ys => ret (y :: ys)))
  end.

(** [enumerate(l)] *)
Definition enumerate {A} (l : list A) : list (nat * A) := imap pair l.

(** ** [utils/openai_calls.py] *)

Module OpenAICalls.

(** [class BatchJobStatus(BaseModel)] *)
Record BatchJobStatus := mkBatchJobStatus {
  job_id : string;
  status : string;
  input_file_id : string;
  output_file_id : option string;
  error_file_id : option string;
}.

(** [BatchJobStatus.is_complete] *)
Definition is_complete (self : BatchJobStatus) : bool :=
  bool_decide (status self ∈ ["completed"; "failed"; "expired"; "cancelled"]).

(** One request of a batch, the dict that [build_batch_request] builds. *)
Record message := mkMessage { role : string; content : string }.

Record request_body := mkBody {
  model : string;
  messages : list message;
  temperature : Q;
}.

Record request := mkRequest {
  custom_id : string;
  method : string;
  url : string;
  body : request_body;
}.

(** [build_batch_request] *)
Definition build_batch_request
    (custom_id prompt model : string) (temperature : Q) : request :=
  {| custom_id := custom_id;
     method := "POST";
     url := "/v1/chat/completions";
     body := {| model := model;
                messages := [ {| role := "user"; content := prompt |} ];
                temperature := temperature |} |}.

(** [extract_batch_result]: the completion text of one result record, the
    empty string when there is none.  The [try] block catches [KeyError],
    [IndexError] and [AttributeError]; any other exception leaves the
    function. *)
Definition extract_batch_result (result : gmap string json) : res string :=
  let attempt : res (option string) :=
    (body <-? Py.get (Py.dict_get result "response" (JObj ∅)) "body" (JObj ∅);
     choices <-? Py.get body "choices" (JArr []);
     if Py.truthy choices then
       first <-? Py.index0 choices;
       message <-? Py.get first "message" (JObj ∅);
       content <-? Py.get message "content" (JStr "");
       stripped <-? Py.strip content;
       Ok (Some stripped)
     else Ok None)%res in
  match attempt with
  | Ok (Some text) => Ok text
  | Ok None => Ok ""
  | Err e =>
      match exn_cls e with
      | KeyError | IndexError | AttributeError => Ok ""
      | _ => Err e
      end
  end.

(** The batch object the SDK returns from [batches.create] and
    [batches.retrieve]. *)
Record batch := mkBatch {
  batch_id : string;
  batch_status : string;
  batch_input_file_id : string;
  batch_output_file_id : option string;
  batch_error_file_id : option string;
}.

(** The SDK client, an external collaborator: each operation changes the
    state of the world and answers or raises.
    - [chat_completions_create model prompt temperature] answers with the
      [message.content] of the choices of the response, in order;
    - [files_create requests] uploads the JSONL file written from
      [requests] and answers with the id of the uploaded file;
    - [files_content file_id] answers with the JSON objects of the
      non-blank lines of the file, in order;
    - [sleep seconds] is [time.sleep]. *)
Record Service (W : Type) := mkService {
  chat_completions_create :
    string -> string -> Q -> W -> W * res (list (option string));
  files_create : list request -> W -> W * res string;
  batches_create : string -> W -> W * res batch;
  batches_retrieve : string -> W -> W * res batch;
  files_content : string -> W -> W * res (list (gmap string json));
  sleep : nat -> W -> W;
}.
Arguments chat_completions_create {W} _ _ _ _ _.
Arguments files_create {W} _ _ _.
Arguments batches_create {W} _ _ _.
Arguments batches_retrieve {W} _ _ _.
Arguments files_content {W} _ _ _.
Arguments sleep {W} _ _ _.

Section Client.
Context {W : Type} (client : Service W).

(** The default model of this [OpenAIClient]. *)
Variable self_model : string.

(** [OpenAIClient.call] *)
Definition call (prompt : string) (model : option string) (temperature : Q)
  : M W string :=
  (do choices <-
     perform (chat_completions_create client (default self_model model)
                prompt temperature);
   match choices with
   | [] => raise (Exn IndexError "list index out of range")
   | content :: _ =>
       ret (match content with
            | Some (String c s) => String c s
            | Some EmptyString | None => ""
            end)
   end)%io.

(** [OpenAIClient.send_batch]; the path of the JSONL file is left out. *)
Definition send_batch (requests : list request) : M W BatchJobStatus :=
  (do uploaded_file_id <- perform (files_create client requests);
   do b <- perform (batches_create client uploaded_file_id);
   ret {| job_id := batch_id b;
          status := batch_status b;
          input_file_id := uploaded_file_id;
          output_file_id := batch_output_file_id b;
          error_file_id := batch_error_file_id b |})%io.

(** [OpenAIClient.check_batch] *)
Definition check_batch (job_id : string) : M W BatchJobStatus :=
  (do b <- perform (batches_retrieve client job_id);
   ret {| job_id := batch_id b;
          status := batch_status b;
          input_file_id := batch_input_file_id b;
          output_file_id := batch_output_file_id b;
          error_file_id := batch_error_file_id b |})%io.

(** [OpenAIClient.get_batch_results] *)
Definition get_batch_results (job_id : string)
  : M W (list (gmap string json)) :=
  (do st <- check_batch job_id;
   match output_file_id st with
   | None | Some EmptyString => ret []
   | Some file_id => perform (files_content client file_id)
   end)%io.

End Client.

End OpenAICalls.

(** ** Code that the two extractor classes repeat word for word *)

Module Common.
Import OpenAICalls.

(** The item of a numbered or bulleted line, as [_parse_list_items],
    [_parse_questions] and [_parse_argument] compute it from the stripped
    line; [None] when the line is neither numbered nor bulleted, or when
    the item is empty. *)
Definition list_item (cleaned_line : string) : option string :=
  let is_numbered := PyStr.head_isdigit cleaned_line in
  let is_bulleted := PyStr.startswith "-" cleaned_line in
  if is_numbered || is_bulleted then
    let item :=
      if PyStr.contains "."%char cleaned_line
      then PyStr.strip (PyStr.split1_last "."%char cleaned_line)
      else cleaned_line in
    let item := PyStr.strip (PyStr.lstrip_dash_space item) in
    if PyStr.is_empty item then None else Some item
  else None.

(** [article.get(config.id_column) if config.id_column else None] *)
Definition get_article_id (id_column : option string)
    (article : gmap string json) : json :=
  match id_column with
  | Some (String c s) => Py.dict_get article (String c s) JNull
  | Some EmptyString | None => JNull
  end.

(** One round of the loop of every [_build_*_map] method. *)
Definition build_map_step {V} (parse : string -> V)
    (m : gmap string V) (result : gmap string json) : res (gmap string V) :=
  let custom_id := Py.dict_get result "custom_id" (JStr "") in
  (content <-? extract_batch_result result;
   if negb (PyStr.is_empty content)
   then Py.setitem m custom_id (parse content)
   else Ok m)%res.

(** The body of every [_build_*_map] method: a dict from [custom_id] to the
    parsed content, with an entry only for the records whose content is not
    empty.  Later records overwrite earlier ones. *)
Definition build_map {V} (parse : string -> V)
    (results : list (gmap string json)) : res (gmap string V) :=
  for_fold (build_map_step parse) ∅ results.

Section Wait.
Context {W : Type} (client : Service W).

(** The [while not status.is_complete] loop of [_wait_for_batch], cut
    after [fuel] more rounds. *)
Fixpoint poll (fuel : nat) (batch_id : string) (st : BatchJobStatus)
  : M W BatchJobStatus :=
  if is_complete st then ret st
  else
    match fuel with
    | 0 => fun w => (w, OutOfFuel)
    | S fuel' =>
        fun w =>
          bind (check_batch client batch_id)
            (fun st' => poll fuel' batch_id st') (sleep client 30 w)
    end.

(** [_wait_for_batch] *)
Definition wait_for_batch (fuel : nat) (batch_id : string)
  : M W (list (gmap string json)) :=
  (do st <- check_batch client batch_id;
   do _st <- poll fuel batch_id st;
   get_batch_results client batch_id)%io.

End Wait.

End Common.

(** ** [pipelines/direct_extraction/direct_extraction.py] *)

Module Direct.
Import OpenAICalls.

(** One extracted argument: the dict with keys [conclusion] and
    [premises]. *)
Record argument := mkArgument {
  conclusion : string;
  premises : list string;
}.

(** [class DirectExtractionResult] *)
Record DirectExtractionResult := mkResult {
  text : json;
  article_id : json;
  conclusions : option (list string);
  arguments : option (list argument);
  success : bool;
  error_message : option string;
}.

(** [DirectExtractionResult(text=..., article_id=...)] and the attribute
    assignments [result.x = v]. *)
Definition new_result (t : json) (id : json) : DirectExtractionResult :=
  {| text := t; article_id := id; conclusions := None; arguments := None;
     success := false; error_message := None |}.

Definition set_conclusions (r : DirectExtractionResult) (v : list string) :=
  {| text := text r; article_id := article_id r; conclusions := Some v;
     arguments := arguments r; success := success r;
     error_message := error_message r |}.

Definition set_arguments (r : DirectExtractionResult) (v : list argument) :=
  {| text := text r; article_id := article_id r;
     conclusions := conclusions r; arguments := Some v;
     success := success r; error_message := error_message r |}.

Definition set_success (r : DirectExtractionResult) (v : bool) :=
  {| text := text r; article_id := article_id r;
     conclusions := conclusions r; arguments := arguments r;
     success := v; error_message := error_message r |}.

Definition set_error_message (r : DirectExtractionResult) (v : string) :=
  {| text := text r; article_id := article_id r;
     conclusions := conclusions r; arguments := arguments r;
     success := success r; error_message := Some v |}.

(** [class _BatchConfig]; the dict [phase_results] always has the two keys
    [phase1] and [phase2]. *)
Record _BatchConfig := mkBatchConfig {
  articles : list (gmap string json);
  phase1 : list (gmap string json);
  phase2 : list (gmap string json);
  text_column : string;
  id_column : option string;
}.

(** [DirectArgumentExtractor._parse_list_items] *)
Definition _parse_list_items (text : string) : list string :=
  foldl
    (fun items raw_line =>
       let cleaned_line := PyStr.strip raw_line in
       if PyStr.is_empty cleaned_line then items
       else
         match Common.list_item cleaned_line with
         | Some item => items ++ [item]
         | None => items
         end)
    [] (PyStr.split "010"%char text).

(** [DirectArgumentExtractor._build_conclusions_map] *)
Definition _build_conclusions_map (phase1_results : list (gmap string json))
  : res (gmap string (list string)) :=
  Common.build_map _parse_list_items phase1_results.

(** [DirectArgumentExtractor._build_premises_map] *)
Definition _build_premises_map (phase2_results : list (gmap string json))
  : res (gmap string (list string)) :=
  Common.build_map _parse_list_items phase2_results.

(** The correlation keys: [f"c_{i}"] and [f"p_{i}_{j}"]. *)
Definition c_key (i : nat) : string := "c_" +:+ PyStr.of_nat i.
Definition p_key (i j : nat) : string :=
  "p_" +:+ PyStr.of_nat i +:+ "_" +:+ PyStr.of_nat j.

(** The body of the inner loop of [_combine_results]: the argument of
    conclusion [j] of article [i]. *)
Definition combine_conclusion (premises_map : gmap string (list string))
    (i j : nat) (conclusion : string) : argument :=
  {| conclusion := conclusion;
     premises := default [] (premises_map !! p_key i j) |}.

(** The body of the loop of [_combine_results], for the article at
    index [i]. *)
Definition combine_article
    (conclusions_map premises_map : gmap string (list string))
    (text_column : string) (id_column : option string)
    (i : nat) (article : gmap string json) : DirectExtractionResult :=
  let article_id := Common.get_article_id id_column article in
  let text := Py.dict_get article text_column (JStr "") in
  let result := new_result text article_id in
  let conclusions := default [] (conclusions_map !! c_key i) in
  let result := set_conclusions result conclusions in
  let arguments_list :=
    imap (combine_conclusion premises_map i) conclusions in
  let result := set_arguments result arguments_list in
  let result := set_success result (bool_decide (0 < length arguments_list)) in
  if negb (success result)
  then set_error_message result "No arguments extracted"
  else result.

(** [DirectArgumentExtractor._combine_results] *)
Definition _combine_results (config : _BatchConfig)
  : res (list DirectExtractionResult) :=
  (conclusions_map <-? _build_conclusions_map (phase1 config);
   premises_map <-? _build_premises_map (phase2 config);
   Ok (imap (combine_article conclusions_map premises_map
               (text_column config) (id_column config))
         (articles config)))%res.

Section Extractor.
Context {W : Type} (client : Service W).

(** [self.model] and the two prompt templates of [prompt.yaml], each
    taken as the function that [str.format] computes from the keyword
    arguments. *)
Variable self_model : string.
Variable conclusion_extraction_prompt : json -> string.
Variable premise_extraction_prompt : json -> string -> string.

(** [extract_conclusions] *)
Definition extract_conclusions (text : string) : M W (list string) :=
  (do response <-
     call client self_model
       (conclusion_extraction_prompt (JStr text)) None (1 # 10)%Q;
   ret (_parse_list_items response))%io.

(** [extract_premises] *)
Definition extract_premises (text conclusion : string)
  : M W (list string) :=
  (do response <-
     call client self_model
       (premise_extraction_prompt (JStr text) conclusion) None (1 # 10)%Q;
   ret (_parse_list_items response))%io.

(** [_process_conclusions] *)
Definition _process_conclusions (conclusions : list string) (text : string)
  : M W (list argument) :=
  for_each
    (fun conclusion =>
       (do premises <- extract_premises text conclusion;
        ret {| conclusion := conclusion; premises := premises |})%io)
    conclusions.

(** The handler of [process_single]:
    [except (ValueError, KeyError, RuntimeError) as e]. *)
Definition handled (e : exn) : bool :=
  match exn_cls e with
  | ValueError | KeyError | RuntimeError => true
  | _ => false
  end.

(** [process_single] *)
Definition process_single (text : string) (article_id : json)
  : M W DirectExtractionResult :=
  fun w =>
    let result := new_result (JStr text) article_id in
    match extract_conclusions text w with
    | (w1, Returns found) =>
        let result := set_conclusions result found in
        match _process_conclusions found text w1 with
        | (w2, Returns args) =>
            (w2, Returns (set_success (set_arguments result args) true))
        | (w2, Raises e) =>
            if handled e
            then (w2, Returns (set_error_message result (exn_msg e)))
            else (w2, Raises e)
        | (w2, OutOfFuel) => (w2, OutOfFuel)
        end
    | (w1, Raises e) =>
        if handled e
        then (w1, Returns (set_error_message result (exn_msg e)))
        else (w1, Raises e)
    | (w1, OutOfFuel) => (w1, OutOfFuel)
    end.

(** The requests of phase 1. *)
Definition phase1_requests (articles : list (gmap string json))
    (text_column : string) : list request :=
  omap
    (fun '(i, article) =>
       match article !! text_column with
       | Some text =>
           Some (build_batch_request (c_key i)
                   (conclusion_extraction_prompt text)
                   self_model (1 # 10)%Q)
       | None => None
       end)
    (enumerate articles).

(** The requests of phase 2. *)
Definition phase2_requests (articles : list (gmap string json))
    (conclusions_map : gmap string (list string))
    (text_column : string) : list request :=
  enumerate articles ≫=
    (fun '(i, article) =>
       match article !! text_column with
       | None => []
       | Some text =>
           imap (fun j conclusion =>
                   build_batch_request (p_key i j)
                     (premise_extraction_prompt text conclusion)
                     self_model (1 # 10)%Q)
                (default [] (conclusions_map !! c_key i))
       end).

(** [_wait_for_batch] *)
Definition _wait_for_batch (fuel : nat) (batch_id : string)
  : M W (list (gmap string json)) :=
  Common.wait_for_batch client fuel batch_id.

(** [_batch_phase1] *)
Definition _batch_phase1 (fuel : nat) (articles : list (gmap string json))
    (text_column : string) : M W (list (gmap string json)) :=
  (let requests := phase1_requests articles text_column in
   do st <- send_batch client requests;
   _wait_for_batch fuel (job_id st))%io.

(** [_batch_phase2] *)
Definition _batch_phase2 (fuel : nat) (articles : list (gmap string json))
    (phase1_results : list (gmap string json)) (text_column : string)
  : M W (list (gmap string json)) :=
  (do conclusions_map <- lift (_build_conclusions_map phase1_results);
   let requests := phase2_requests articles conclusions_map text_column in
   match requests with
   | [] => ret []
   | _ :: _ =>
       do st <- send_batch client requests;
       _wait_for_batch fuel (job_id st)
   end)%io.

(** [process_batch] *)
Definition process_batch (fuel : nat) (articles : list (gmap string json))
    (text_column : string) (id_column : option string)
  : M W (list DirectExtractionResult) :=
  (do phase1_results <- _batch_phase1 fuel articles text_column;
   do phase2_results <-
     _batch_phase2 fuel articles phase1_results text_column;
   lift (_combine_results
           {| articles := articles;
              phase1 := phase1_results;
              phase2 := phase2_results;
              text_column := text_column;
              id_column := id_column |}))%io.

End Extractor.

End Direct.

(** ** [pipelines/socratic_extraction/socratic_extraction.py] *)

Module QA.
Import OpenAICalls.

(** What [_parse_argument] returns: the dict with keys [claim] and
    [premises]. *)
Record parsed_argument := mkParsed {
  pa_claim : string;
  pa_premises : list string;
}.

(** One extracted argument: the dict with keys [question], [answer],
    [claim] and [premises]. *)
Record argument := mkArgument {
  question : string;
  answer : string;
  claim : string;
  premises : list string;
}.

(** [class QAResult] *)
Record QAResult := mkResult {
  text : json;
  article_id : json;
  questions : option (list string);
  arguments : option (list argument);
  success : bool;
  error_message : option string;
}.

(** [QAResult(text=..., article_id=...)] and the attribute assignments
    [result.x = v]. *)
Definition new_result (t : json) (id : json) : QAResult :=
  {| text := t; article_id := id; questions := None; arguments := None;
     success := false; error_message := None |}.

Definition set_questions (r : QAResult) (v : list string) :=
  {| text := text r; article_id := article_id r; questions := Some v;
     arguments := arguments r; success := success r;
     error_message := error_message r |}.

Definition set_arguments (r : QAResult) (v : list argument) :=
  {| text := text r; article_id := article_id r;
     questions := questions r; arguments := Some v;
     success := success r; error_message := error_message r |}.

Definition set_success (r : QAResult) (v : bool) :=
  {| text := text r; article_id := article_id r;
     questions := questions r; arguments := arguments r;
     success := v; error_message := error_message r |}.

Definition set_error_message (r : QAResult) (v : string) :=
  {| text := text r; article_id := article_id r;
     questions := questions r; arguments := arguments r;
     success := success r; error_message := Some v |}.

(** [class _BatchConfig]; the dict [phase_results] always has the three
    keys [phase1], [phase2] and [phase3]. *)
Record _BatchConfig := mkBatchConfig {
  articles : list (gmap string json);
  phase1 : list (gmap string json);
  phase2 : list (gmap string json);
  phase3 : list (gmap string json);
  text_column : string;
  id_column : option string;
}.

(** [QAArgumentExtractor._parse_questions] *)
Definition _parse_questions (text : string) : list string :=
  let questions :=
    foldl
      (fun questions raw_line =>
         let cleaned_line := PyStr.strip raw_line in
         if PyStr.is_empty cleaned_line then questions
         else
           match Common.list_item cleaned_line with
           | Some question => questions ++ [question]
           | None => questions
           end)
      [] (PyStr.split "010"%char text) in
  take 10 questions.

(** The values of [current_section] in [_parse_argument]. *)
Inductive section_tag := NoSection | ClaimSection | PremisesSection.

(** [QAArgumentExtractor._parse_argument] *)
Definition _parse_argument (text : string) : parsed_argument :=
  let lines := PyStr.split "010"%char text in
  let '(claim, premises, _) :=
    foldl
      (fun '(claim, premises, current_section) raw_line =>
         let cleaned_line := PyStr.strip raw_line in
         if PyStr.startswith "Claim:" cleaned_line then
           (PyStr.strip (PyStr.split1_last ":"%char cleaned_line),
            premises, ClaimSection)
         else if PyStr.startswith "Premises:" cleaned_line then
           (claim, premises, PremisesSection)
         else
           match current_section with
           | PremisesSection =>
               if PyStr.is_empty cleaned_line
               then (claim, premises, current_section)
               else
                 match Common.list_item cleaned_line with
                 | Some premise =>
                     (claim, premises ++ [premise], current_section)
                 | None => (claim, premises, current_section)
                 end
           | _ => (claim, premises, current_section)
           end)
      (EmptyString, [], NoSection) lines in
  {| pa_claim := claim; pa_premises := premises |}.

(** [_build_questions_map] *)
Definition _build_questions_map (phase1_results : list (gmap string json))
  : res (gmap string (list string)) :=
  Common.build_map _parse_questions phase1_results.

(** [_build_answers_map] *)
Definition _build_answers_map (phase2_results : list (gmap string json))
  : res (gmap string string) :=
  Common.build_map (fun content => content) phase2_results.

(** [_build_arguments_map] *)
Definition _build_arguments_map (phase3_results : list (gmap string json))
  : res (gmap string parsed_argument) :=
  Common.build_map _parse_argument phase3_results.

(** The correlation keys: [f"q_{i}"], [f"qa_{i}_{j}"], [f"arg_{i}_{j}"]. *)
Definition q_key (i : nat) : string := "q_" +:+ PyStr.of_nat i.
Definition qa_key (i j : nat) : string :=
  "qa_" +:+ PyStr.of_nat i +:+ "_" +:+ PyStr.of_nat j.
Definition arg_key (i j : nat) : string :=
  "arg_" +:+ PyStr.of_nat i +:+ "_" +:+ PyStr.of_nat j.

(** [answers_map.get(qa_id)] when it is truthy. *)
Definition truthy_answer (answers_map : gmap string string) (qa_id : string)
  : option string :=
  match answers_map !! qa_id with
  | Some (String c s) => Some (String c s)
  | Some EmptyString | None => None
  end.

(** The body of the inner loop of [_combine_results]: the argument of
    question [j] of article [i], when [if answer and arg] holds. *)
Definition combine_question (answers_map : gmap string string)
    (arguments_map : gmap string parsed_argument)
    (i : nat) (item : nat * string) : option argument :=
  let '(j, question) := item in
  match truthy_answer answers_map (qa_key i j),
        arguments_map !! arg_key i j with
  | Some answer, Some arg =>
      Some {| question := question;
              answer := answer;
              claim := pa_claim arg;
              premises := pa_premises arg |}
  | _, _ => None
  end.

(** The body of the loop of [_combine_results], for the article at
    index [i]. *)
Definition combine_article
    (questions_map : gmap string (list string))
    (answers_map : gmap string string)
    (arguments_map : gmap string parsed_argument)
    (text_column : string) (id_column : option string)
    (i : nat) (article : gmap string json) : QAResult :=
  let article_id := Common.get_article_id id_column article in
  let text := Py.dict_get article text_column (JStr "") in
  let result := new_result text article_id in
  let questions := default [] (questions_map !! q_key i) in
  let result := set_questions result questions in
  let arguments_list :=
    omap (combine_question answers_map arguments_map i)
         (enumerate questions) in
  let result := set_arguments result arguments_list in
  let result := set_success result (bool_decide (0 < length arguments_list)) in
  if negb (success result)
  then set_error_message result "No arguments extracted"
  else result.

(** [QAArgumentExtractor._combine_results] *)
Definition _combine_results (config : _BatchConfig) : res (list QAResult) :=
  (questions_map <-? _build_questions_map (phase1 config);
   answers_map <-? _build_answers_map (phase2 config);
   arguments_map <-? _build_arguments_map (phase3 config);
   Ok (imap (combine_article questions_map answers_map arguments_map
               (text_column config) (id_column config))
         (articles config)))%res.

Section Extractor.
Context {W : Type} (client : Service W).

(** [self.model] and the three prompt templates of [prompt.yaml], each
    taken as the function that [str.format] computes from the keyword
    arguments. *)
Variable self_model : string.
Variable question_extraction_prompt : json -> string.
Variable question_answering_prompt : string -> json -> string.
Variable argument_construction_prompt : string -> string -> string.

(** [extract_questions] *)
Definition extract_questions (text : string) : M W (list string) :=
  (do response <-
     call client self_model
       (question_extraction_prompt (JStr text)) None (1 # 10)%Q;
   ret (_parse_questions response))%io.

(** [answer_question] *)
Definition answer_question (question article : string) : M W string :=
  call client self_model
    (question_answering_prompt question (JStr article)) None (1 # 10)%Q.

(** [construct_argument] *)
Definition construct_argument (question answer : string)
  : M W parsed_argument :=
  (do response <-
     call client self_model
       (argument_construction_prompt question answer) None (1 # 10)%Q;
   ret (_parse_argument response))%io.

(** [_process_questions] *)
Definition _process_questions (questions : list string) (text : string)
  : M W (list argument) :=
  for_each
    (fun question =>
       (do answer <- answer_question question text;
        do arg <- construct_argument question answer;
        ret {| question := question;
               answer := answer;
               claim := pa_claim arg;
               premises := pa_premises arg |})%io)
    questions.

(** The handler of [process_single]:
    [except (ValueError, KeyError, RuntimeError) as e]. *)
Definition handled (e : exn) : bool :=
  match exn_cls e with
  | ValueError | KeyError | RuntimeError => true
  | _ => false
  end.

(** [process_single] *)
Definition process_single (text : string) (article_id : json)
  : M W QAResult :=
  fun w =>
    let result := new_result (JStr text) article_id in
    match extract_questions text w with
    | (w1, Returns found) =>
        let result := set_questions result found in
        match _process_questions found text w1 with
        | (w2, Returns args) =>
            (w2, Returns (set_success (set_arguments result args) true))
        | (w2, Raises e) =>
            if handled e
            then (w2, Returns (set_error_message result (exn_msg e)))
            else (w2, Raises e)
        | (w2, OutOfFuel) => (w2, OutOfFuel)
        end
    | (w1, Raises e) =>
        if handled e
        then (w1, Returns (set_error_message result (exn_msg e)))
        else (w1, Raises e)
    | (w1, OutOfFuel) => (w1, OutOfFuel)
    end.

(** The requests of phase 1. *)
Definition phase1_requests (articles : list (gmap string json))
    (text_column : string) : list request :=
  omap
    (fun '(i, article) =>
       match article !! text_column with
       | Some text =>
           Some (build_batch_request (q_key i)
                   (question_extraction_prompt text)
                   self_model (1 # 10)%Q)
       | None => None
       end)
    (enumerate articles).

(** The requests of phase 2. *)
Definition phase2_requests (articles : list (gmap string json))
    (questions_map : gmap string (list string))
    (text_column : string) : list request :=
  enumerate articles ≫=
    (fun '(i, article) =>
       match article !! text_column with
       | None => []
       | Some text =>
           imap (fun j question =>
                   build_batch_request (qa_key i j)
                     (question_answering_prompt question text)
                     self_model (1 # 10)%Q)
                (default [] (questions_map !! q_key i))
       end).

(** The requests of phase 3. *)
Definition phase3_requests (articles : list (gmap string json))
    (questions_map : gmap string (list string))
    (answers_map : gmap string string)
    (text_column : string) : list request :=
  enumerate articles ≫=
    (fun '(i, article) =>
       match article !! text_column with
       | None => []
       | Some _ =>
           omap (fun '(j, question) =>
                   match truthy_answer answers_map (qa_key i j) with
                   | Some answer =>
                       Some (build_batch_request (arg_key i j)
                               (argument_construction_prompt question answer)
                               self_model (1 # 10)%Q)
                   | None => None
                   end)
                (enumerate (default [] (questions_map !! q_key i)))
       end).

(** [_wait_for_batch] *)
Definition _wait_for_batch (fuel : nat) (batch_id : string)
  : M W (list (gmap string json)) :=
  Common.wait_for_batch client fuel batch_id.

(** [_batch_phase1] *)
Definition _batch_phase1 (fuel : nat) (articles : list (gmap string json))
    (text_column : string) : M W (list (gmap string json)) :=
  (let requests := phase1_requests articles text_column in
   do st <- send_batch client requests;
   _wait_for_batch fuel (job_id st))%io.

(** [_batch_phase2] *)
Definition _batch_phase2 (fuel : nat) (articles : list (gmap string json))
    (phase1_results : list (gmap string json)) (text_column : string)
  : M W (list (gmap string json)) :=
  (do questions_map <- lift (_build_questions_map phase1_results);
   let requests := phase2_requests articles questions_map text_column in
   match requests with
   | [] => ret []
   | _ :: _ =>
       do st <- send_batch client requests;
       _wait_for_batch fuel (job_id st)
   end)%io.

(** [_batch_phase3] *)
Definition _batch_phase3 (fuel : nat) (articles : list (gmap string json))
    (phase1_results phase2_results : list (gmap string json))
    (text_column : string) : M W (list (gmap string json)) :=
  (do questions_map <- lift (_build_questions_map phase1_results);
   do answers_map <- lift (_build_answers_map phase2_results);
   let requests :=
     phase3_requests articles questions_map answers_map text_column in
   match requests with
   | [] => ret []
   | _ :: _ =>
       do st <- send_batch client requests;
       _wait_for_batch fuel (job_id st)
   end)%io.

(** [process_batch] *)
Definition process_batch (fuel : nat) (articles : list (gmap string json))
    (text_column : string) (id_column : option string)
  : M W (list QAResult) :=
  (do phase1_results <- _batch_phase1 fuel articles text_column;
   do phase2_results <-
     _batch_phase2 fuel articles phase1_results text_column;
   do phase3_results <-
     _batch_phase3 fuel articles phase1_results phase2_results text_column;
   lift (_combine_results
           {| articles := articles;
              phase1 := phase1_results;
              phase2 := phase2_results;
              phase3 := phase3_results;
              text_column := text_column;
              id_column := id_column |}))%io.

End Extractor.

End QA.

(** ** [utils/output_formatter.py] *)

Module OutputFormatter.

(** [class _ArticleData] *)
Record _ArticleData := mkArticleData {
  article_id : json;
  text : json;
  success : json;
  error_message : json;
}.

(** A non-negative [int] as a value. *)
Definition int (n : nat) : json := JNum (Z.of_nat n # 1).

(** The characters of a [str], as the strings an iteration gives. *)
Definition chars (s : string) : list string :=
  (fun c => String c EmptyString) <$> list_ascii_of_string s.

(** [f"premise_{i + 1}"] *)
Definition premise_key (i : nat) : string :=
  "premise_" +:+ PyStr.of_nat (i + 1).

(** [_create_empty_row] *)
Definition _create_empty_row (article_data : _ArticleData)
    (max_premises : nat) : gmap string json :=
  let row : gmap string json :=
    <["premises_concatenated" := JStr ""]>
    (<["premises_count" := int 0]>
    (<["claim" := JStr ""]>
    (<["answer" := JStr ""]>
    (<["question" := JStr ""]>
    (<["argument_index" := JStr ""]>
    (<["error_message" := error_message article_data]>
    (<["success" := success article_data]>
    (<["text" := text article_data]>
    (<["article_id" := article_id article_data]> ∅))))))))) in
  foldl (fun row i => <[premise_key i := JStr ""]> row)
    row (seq 0 max_premises).

(** [l[i] = v] and [l[i]] on a list. *)
Definition list_setitem {A} (l : list A) (i : nat) (v : A) : res (list A) :=
  if decide (i < length l) then Ok (<[i := v]> l)
  else Err (Exn IndexError "list assignment index out of range").

Definition list_getitem {A} (l : list A) (i : nat) : res A :=
  match l !! i with
  | Some v => Ok v
  | None => Err (Exn IndexError "list index out of range")
  end.

(** The strings of [sep.join(items)]: every item has to be a [str]. *)
Fixpoint strings_of (items : list json) : res (list string) :=
  match items with
  | [] => Ok []
  | JStr s :: items' => (rest <-? strings_of items'; Ok (s :: rest))%res
  | _ :: _ => Err (Exn TypeError "sequence item: expected str instance")
  end.

(** The list [fieldnames] of [save_as_csv]. *)
Definition fieldnames (max_premises : nat) : list string :=
  [ "article_id"; "text"; "success"; "error_message"; "argument_index";
    "question"; "answer"; "claim"; "premises_count";
    "premises_concatenated" ]
  ++ (premise_key <$> seq 0 max_premises).

(** What [csv.DictWriter] makes of a row: a [ValueError] when the row has
    a key that is no field name, otherwise the cells in the order of the
    field names, the empty string where the row has no such key. *)
Definition _dict_to_list (names : list string) (row : gmap string json)
  : res (list json) :=
  if decide (dom row ⊆ (list_to_set names : gset string))
  then Ok ((fun name => default (JStr "") (row !! name)) <$> names)
  else Err (Exn ValueError "dict contains fields not in fieldnames").

(** The file system, as far as [save_as_csv] uses it: making the
    directory of a path, opening the file of a path for writing (which
    empties it), writing a line of cells to it. *)
Record Files (W : Type) := mkFiles {
  mkdir_parent : string -> W -> W * res unit;
  open_w : string -> W -> W * res unit;
  writerow : string -> list json -> W -> W * res unit;
}.
Arguments mkdir_parent {W} _ _ _.
Arguments open_w {W} _ _ _.
Arguments writerow {W} _ _ _ _.

Section Rows.

(** The exception of [premises[:max_premises]] on a dict: a [TypeError]
    before Python 3.12, where a slice is unhashable, a [KeyError] from
    3.12 on. *)
Variable dict_slice_error : exn.

(** The items of a value that [premises[:max_premises]] accepts: those of
    a list, the characters of a string. *)
Definition sliceable (premises : json) : res (list json) :=
  match premises with
  | JArr l => Ok l
  | JStr s => Ok (JStr <$> chars s)
  | JObj _ => Err dict_slice_error
  | JNull | JBool _ | JNum _ =>
      Err (Exn TypeError "object is not subscriptable")
  end.

(** [_create_argument_row] *)
Definition _create_argument_row (article_data : _ArticleData)
    (arg_index : nat) (argument : json) (max_premises : nat)
  : res (gmap string json) :=
  (question <-? Py.get argument "question" (JStr "");
   answer <-? Py.get argument "answer" (JStr "");
   claim <-? Py.get argument "claim" (JStr "");
   premises <-? Py.get argument "premises" (JArr []);
   items <-? sliceable premises;
   premise_cols <-?
     for_fold (fun cols '(i, premise) => list_setitem cols i premise)
       (replicate max_premises (JStr ""))
       (enumerate (take max_premises items));
   concatenated <-? strings_of items;
   let row : gmap string json :=
     <["premises_concatenated" := JStr (String.concat " | " concatenated)]>
     (<["premises_count" := int (length items)]>
     (<["claim" := claim]>
     (<["answer" := answer]>
     (<["question" := question]>
     (<["argument_index" := int (arg_index + 1)]>
     (<["error_message" := error_message article_data]>
     (<["success" := success article_data]>
     (<["text" := text article_data]>
     (<["article_id" := article_id article_data]> ∅))))))))) in
   for_fold
     (fun row i =>
        v <-? list_getitem premise_cols i;
        Ok (<[premise_key i := v]> row))
     row (seq 0 max_premises))%res.

(** The body of the loop of [_flatten_results_for_csv]: the rows of one
    article.  A string or a dict in the place of the argument list is
    iterated, and its first item, a string, has no [get]. *)
Definition article_rows (article : gmap string json) (max_premises : nat)
  : res (list (gmap string json)) :=
  let article_data :=
    {| article_id := Py.dict_get article "article_id" (JStr "");
       text := Py.dict_get article "text" (JStr "");
       success := Py.dict_get article "success" (JBool false);
       error_message := Py.dict_get article "error_message" (JStr "") |} in
  let arguments := Py.dict_get article "arguments" (JArr []) in
  if negb (Py.truthy arguments)
  then Ok [_create_empty_row article_data max_premises]
  else
    match arguments with
    | JArr l =>
        for_fold
          (fun rows '(arg_index, argument) =>
             (new_row <-?
                _create_argument_row article_data arg_index argument
                  max_premises;
              Ok (rows ++ [new_row]))%res)
          [] (enumerate l)
    | JStr _ | JObj _ =>
        Err (Exn AttributeError "'str' object has no attribute 'get'")
    | JNull | JBool _ | JNum _ =>
        Err (Exn TypeError "object is not iterable")
    end.

(** [_flatten_results_for_csv] *)
Definition _flatten_results_for_csv (results : list (gmap string json))
    (max_premises : nat) : res (list (gmap string json)) :=
  for_fold
    (fun rows article =>
       (new_rows <-? article_rows article max_premises;
        Ok (rows ++ new_rows))%res)
    [] results.

(** [save_as_csv] *)
Definition save_as_csv {W} (files : Files W)
    (results : list (gmap string json)) (output_path : string)
    (max_premises : nat) : M W unit :=
  (do _made <- perform (mkdir_parent files output_path);
   do flattened_rows <- lift (_flatten_results_for_csv results max_premises);
   match flattened_rows with
   | [] => ret tt
   | _ :: _ =>
       let names := fieldnames max_premises in
       do _opened <- perform (open_w files output_path);
       do _header <- perform (writerow files output_path (JStr <$> names));
       do _written <-
         for_each
           (fun row =>
              do cells <- lift (_dict_to_list names row);
              perform (writerow files output_path cells))
           flattened_rows;
       ret tt
   end)%io.

End Rows.

End OutputFormatter.

(** ** [main.py] *)

Module Main.
Import OpenAICalls.

(** An element of the list [run_pipeline] returns: [QAResult |
    DirectExtractionResult]. *)
Inductive any_result :=
| OfQA (r : QA.QAResult)
| OfDirect (r : Direct.DirectExtractionResult).

(** The values of the attributes of a result object.  An argument is the
    dict the pipeline built it as. *)
Definition str_or_none (v : option string) : json :=
  match v with Some s => JStr s | None => JNull end.

Definition list_or_none {A} (item : A -> json) (v : option (list A)) : json :=
  match v with Some l => JArr (item <$> l) | None => JNull end.

Definition direct_argument (a : Direct.argument) : json :=
  JObj (<["premises" := JArr (JStr <$> Direct.premises a)]>
       (<["conclusion" := JStr (Direct.conclusion a)]> ∅)).

Definition qa_argument (a : QA.argument) : json :=
  JObj (<["premises" := JArr (JStr <$> QA.premises a)]>
       (<["claim" := JStr (QA.claim a)]>
       (<["answer" := JStr (QA.answer a)]>
       (<["question" := JStr (QA.question a)]> ∅)))).

(** The body of the loop of [_convert_results_to_dict]. *)
Definition result_dict (r : any_result) : gmap string json :=
  match r with
  | OfQA r =>
      <["questions" := list_or_none JStr (QA.questions r)]>
      (<["arguments" := list_or_none qa_argument (QA.arguments r)]>
      (<["error_message" := str_or_none (QA.error_message r)]>
      (<["success" := JBool (QA.success r)]>
      (<["text" := QA.text r]>
      (<["article_id" := QA.article_id r]> ∅)))))
  | OfDirect r =>
      <["conclusions" := list_or_none JStr (Direct.conclusions r)]>
      (<["arguments" := list_or_none direct_argument (Direct.arguments r)]>
      (<["error_message" := str_or_none (Direct.error_message r)]>
      (<["success" := JBool (Direct.success r)]>
      (<["text" := Direct.text r]>
      (<["article_id" := Direct.article_id r]> ∅)))))
  end.

(** [_convert_results_to_dict] *)
Definition _convert_results_to_dict (results : list any_result)
  : list (gmap string json) :=
  result_dict <$> results.

(** What [run_pipeline] uses of an extractor: the two methods both
    extractor classes have.  [process_single] is given the value of the
    text column, of whatever type. *)
Record Extractor (W R : Type) := mkExtractor {
  process_batch :
    nat -> list (gmap string json) -> string -> option string -> M W (list R);
  process_single : json -> json -> M W R;
}.
Arguments process_batch {W R} _ _ _ _ _.
Arguments process_single {W R} _ _ _.

(** [run_pipeline], from the list [articles] on; the records have the
    text under [text] and the id under [article_id]. *)
Definition run_pipeline {W R} (extractor : Extractor W R) (fuel : nat)
    (articles : list (gmap string json)) (run_batch : bool) : M W (list R) :=
  if run_batch then
    process_batch extractor fuel articles "text" (Some "article_id")
  else
    for_each
      (fun article =>
         match article !! "text" with
         | Some text =>
             process_single extractor text
               (Py.dict_get article "article_id" JNull)
         | None => raise (Exn KeyError "'text'")
         end)
      articles.

Section Extractors.
Context {W : Type} (client : Service W).
Variable self_model : string.

(** The single-article path of [DirectArgumentExtractor] for a text of
    any type: [extract_conclusions], [extract_premises],
    [_process_conclusions] and [process_single] put the text into the
    prompts and into the result as it is. *)
Section DirectExtractor.
Variable conclusion_extraction_prompt : json -> string.
Variable premise_extraction_prompt : json -> string -> string.

Definition direct_extract_conclusions (text : json) : M W (list string) :=
  (do response <-
     call client self_model (conclusion_extraction_prompt text) None (1 # 10)%Q;
   ret (Direct._parse_list_items response))%io.

Definition direct_extract_premises (text : json) (conclusion : string)
  : M W (list string) :=
  (do response <-
     call client self_model
       (premise_extraction_prompt text conclusion) None (1 # 10)%Q;
   ret (Direct._parse_list_items response))%io.

Definition direct_process_conclusions (conclusions : list string)
    (text : json) : M W (list Direct.argument) :=
  for_each
    (fun conclusion =>
       (do premises <- direct_extract_premises text conclusion;
        ret {| Direct.conclusion := conclusion;
               Direct.premises := premises |})%io)
    conclusions.

Definition direct_process_single (text article_id : json)
  : M W Direct.DirectExtractionResult :=
  fun w =>
    let result := Direct.new_result text article_id in
    match direct_extract_conclusions text w with
    | (w1, Returns found) =>
        let result := Direct.set_conclusions result found in
        match direct_process_conclusions found text w1 with
        | (w2, Returns args) =>
            (w2, Returns (Direct.set_success
                            (Direct.set_arguments result args) true))
        | (w2, Raises e) =>
            if Direct.handled e
            then (w2, Returns (Direct.set_error_message result (exn_msg e)))
            else (w2, Raises e)
        | (w2, OutOfFuel) => (w2, OutOfFuel)
        end
    | (w1, Raises e) =>
        if Direct.handled e
        then (w1, Returns (Direct.set_error_message result (exn_msg e)))
        else (w1, Raises e)
    | (w1, OutOfFuel) => (w1, OutOfFuel)
    end.

(** A [DirectArgumentExtractor], as [run_pipeline] sees it. *)
Definition direct_extractor : Extractor W Direct.DirectExtractionResult :=
  {| process_batch :=
       Direct.process_batch client self_model conclusion_extraction_prompt
         premise_extraction_prompt;
     process_single := direct_process_single |}.

End DirectExtractor.

(** The same for [QAArgumentExtractor]: [extract_questions],
    [answer_question], [_process_questions] and [process_single]. *)
Section QAExtractor.
Variable question_extraction_prompt : json -> string.
Variable question_answering_prompt : string -> json -> string.
Variable argument_construction_prompt : string -> string -> string.

Definition qa_extract_questions (text : json) : M W (list string) :=
  (do response <-
     call client self_model (question_extraction_prompt text) None (1 # 10)%Q;
   ret (QA._parse_questions response))%io.

Definition qa_answer_question (question : string) (article : json)
  : M W string :=
  call client self_model
    (question_answering_prompt question article) None (1 # 10)%Q.

Definition qa_process_questions (questions : list string) (text : json)
  : M W (list QA.argument) :=
  for_each
    (fun question =>
       (do answer <- qa_answer_question question text;
        do arg <-
          QA.construct_argument client self_model
            argument_construction_prompt question answer;
        ret {| QA.question := question;
               QA.answer := answer;
               QA.claim := QA.pa_claim arg;
               QA.premises := QA.pa_premises arg |})%io)
    questions.

Definition qa_process_single (text article_id : json) : M W QA.QAResult :=
  fun w =>
    let result := QA.new_result text article_id in
    match qa_extract_questions text w with
    | (w1, Returns found) =>
        let result := QA.set_questions result found in
        match qa_process_questions found text w1 with
        | (w2, Returns args) =>
            (w2, Returns (QA.set_success (QA.set_arguments result args) true))
        | (w2, Raises e) =>
            if QA.handled e
            then (w2, Returns (QA.set_error_message result (exn_msg e)))
            else (w2, Raises e)
        | (w2, OutOfFuel) => (w2, OutOfFuel)
        end
    | (w1, Raises e) =>
        if QA.handled e
        then (w1, Returns (QA.set_error_message result (exn_msg e)))
        else (w1, Raises e)
    | (w1, OutOfFuel) => (w1, OutOfFuel)
    end.

(** A [QAArgumentExtractor], as [run_pipeline] sees it. *)
Definition qa_extractor : Extractor W QA.QAResult :=
  {| process_batch :=
       QA.process_batch client self_model question_extraction_prompt
         question_answering_prompt argument_construction_prompt;
     process_single := qa_process_single |}.

End QAExtractor.

End Extractors.

End Main.

(** * Vocabulary of the properties *)

(** The statuses from which a job does not move. *)
Definition terminal_states : list string :=
  ["completed"; "failed"; "expired"; "cancelled"].

(** The [choices] that [extract_batch_result] reaches, if it reaches any. *)
Definition choices_of (record : gmap string json) : option json :=
  match Py.dict_get record "response" (JObj ∅) with
  | JObj response =>
      match Py.dict_get response "body" (JObj ∅) with
      | JObj body => Some (Py.dict_get body "choices" (JArr []))
      | _ => None
      end
  | _ => None
  end.

(** A result record has the types of the batch output format when its
    [custom_id], if present, is hashable (the format has a string there) and
    its [choices], if reached, is not a number or a boolean (the format has
    a list there).  Nothing is asked of any other part of the record:
    [response], [body], [message] and [content] may be missing, null or of
    any type. *)
Definition well_typed (record : gmap string json) : bool :=
  match Py.dict_get record "custom_id" (JStr "") with
  | JArr _ | JObj _ => false
  | _ => true
  end
  && match choices_of record with
     | Some (JBool _) | Some (JNum _) => false
     | _ => true
     end.

(** The record [record] carries a non-empty completion text under the
    correlation key [key]. *)
Definition has_content (key : string) (record : gmap string json) : Prop :=
  Py.dict_get record "custom_id" (JStr "") = JStr key
  /\ exists content,
       OpenAICalls.extract_batch_result record = Ok content
       /\ PyStr.is_empty content = false.

(** What it means for a result list to hold one record per article, in the
    order of the articles: same length, and the record at index [i] carries
    the text and the id of the article at index [i]. *)
Definition one_per_article {R} (text_of id_of : R -> json)
    (articles : list (gmap string json)) (text_column : string)
    (id_column : option string) (results : list R) : Prop :=
  length results = length articles
  /\ forall i article,
       articles !! i = Some article ->
       exists r, results !! i = Some r
                 /\ text_of r = Py.dict_get article text_column (JStr "")
                 /\ id_of r = Common.get_article_id id_column article.

(** No record of the phase result carries the correlation key [key]. *)
Definition absent (key : string) (results : list (gmap string json)) : Prop :=
  forall record,
    record ∈ results -> Py.dict_get record "custom_id" (JStr "") <> JStr key.

(** A check of [absent] that computes. *)
Definition carries_key (key : string) (record : gmap string json) : bool :=
  match Py.dict_get record "custom_id" (JStr "") with
  | JStr id => String.eqb id key
  | _ => false
  end.

(** A computation that never runs out of fuel: it has no polling loop. *)
Definition bounded {W A} (c : M W A) : Prop :=
  forall w, (c w).2 <> OutOfFuel.

(** The [try] block of [process_single], as one computation. *)
Definition direct_try_block {W} (client : OpenAICalls.Service W) model
    cprompt pprompt (text : string)
  : M W (list string * list Direct.argument) :=
  (do found <- Direct.extract_conclusions client model cprompt text;
   do args <- Direct._process_conclusions client model pprompt found text;
   ret (found, args))%io.

Definition qa_try_block {W} (client : OpenAICalls.Service W) model
    qprompt aprompt gprompt (text : string)
  : M W (list string * list QA.argument) :=
  (do found <- QA.extract_questions client model qprompt text;
   do args <- QA._process_questions client model aprompt gprompt found text;
   ret (found, args))%io.

(** Reading a key back: its segments are separated by underscores; the
    first is the phase tag, the second the article index, the third (when
    there is one) the item index. *)
Definition parse_index (s : string) : option nat :=
  if PyStr.is_empty s then None
  else Nat.of_uint <$> NilEmpty.uint_of_string s.

Definition key_tag (key : string) : option string :=
  PyStr.split "_"%char key !! 0.

Definition key_article_index (key : string) : option nat :=
  PyStr.split "_"%char key !! 1 ≫= parse_index.

Definition key_item_index (key : string) : option nat :=
  PyStr.split "_"%char key !! 2 ≫= parse_index.

(** ** The parsers, line by line *)

(** The item a raw line contributes to [_parse_list_items] and
    [_parse_questions], if any: the body of their loop. *)
Definition item_of_line (raw_line : string) : option string :=
  let cleaned_line := PyStr.strip raw_line in
  if PyStr.is_empty cleaned_line then None
  else Common.list_item cleaned_line.

(** One round of the loop of [_parse_argument]: the claim, the premises and
    the section after the line [raw_line]. *)
Definition argument_step
    (state : string * list string * QA.section_tag) (raw_line : string)
  : string * list string * QA.section_tag :=
  let '(claim, premises, current_section) := state in
  let cleaned_line := PyStr.strip raw_line in
  if PyStr.startswith "Claim:" cleaned_line then
    (PyStr.strip (PyStr.split1_last ":"%char cleaned_line),
     premises, QA.ClaimSection)
  else if PyStr.startswith "Premises:" cleaned_line then
    (claim, premises, QA.PremisesSection)
  else
    match current_section with
    | QA.PremisesSection =>
        if PyStr.is_empty cleaned_line
        then (claim, premises, current_section)
        else
          match Common.list_item cleaned_line with
          | Some premise => (claim, premises ++ [premise], current_section)
          | None => (claim, premises, current_section)
          end
    | _ => (claim, premises, current_section)
    end.

(** The line break of a response. *)
Definition line_break : string := String "010"%char EmptyString.

(** A numbered list as the model writes it: the items on consecutive
    lines, each after its number, a full stop and a space. *)
Definition numbered_list (items : list string) : string :=
  String.concat line_break
    (imap (fun k item => PyStr.of_nat (S k) +:+ ". " +:+ item) items).

(** A bulleted list: each item after a dash and a space. *)
Definition bulleted_list (items : list string) : string :=
  String.concat line_break ((fun item => "- " +:+ item) <$> items).

(** An item that a list line carries unchanged: not empty, no white space
    at either end, no dash in front, all on one line. *)
Definition plain_item (item : string) : Prop :=
  PyStr.is_empty item = false
  /\ PyStr.strip item = item
  /\ PyStr.startswith "-" item = false
  /\ PyStr.contains "010"%char item = false.

(** The response the argument-construction prompt asks for: the claim on a
    line of its own, then the premises as a numbered list under their
    header. *)
Definition argument_text (claim : string) (premises : list string) : string :=
  "Claim: " +:+ claim +:+ line_break +:+ "Premises:" +:+ line_break
  +:+ numbered_list premises.

(** A claim that a line carries unchanged: not empty, no white space at
    either end, all on one line. *)
Definition plain_claim (claim : string) : Prop :=
  PyStr.is_empty claim = false
  /\ PyStr.strip claim = claim
  /\ PyStr.contains "010"%char claim = false.

(** A stripped line that opens neither section. *)
Definition no_header (raw_line : string) : Prop :=
  PyStr.startswith "Claim:" (PyStr.strip raw_line) = false
  /\ PyStr.startswith "Premises:" (PyStr.strip raw_line) = false.

(** The record [record] carries the non-empty completion text [content]
    under the correlation key [key]. *)
Definition carries (key content : string) (record : gmap string json)
  : Prop :=
  Py.dict_get record "custom_id" (JStr "") = JStr key
  /\ OpenAICalls.extract_batch_result record = Ok content
  /\ PyStr.is_empty content = false.

(** The [custom_id] of a record, when it is a string. *)
Definition record_key (record : gmap string json) : option string :=
  match Py.dict_get record "custom_id" (JStr "") with
  | JStr key => Some key
  | _ => None
  end.

(** A parsed item: not empty, no white space at either end. *)
Definition tidy (item : string) : Prop :=
  item <> "" /\ PyStr.strip item = item.

(** ** The CSV rows *)

Section RowVocabulary.
Import OutputFormatter Main.

(** The field names of a row that are not premise columns. *)
Definition base_fields : list string :=
  [ "article_id"; "text"; "success"; "error_message"; "argument_index";
    "question"; "answer"; "claim"; "premises_count";
    "premises_concatenated" ].

(** The dict literal of a row, before the premise columns are added. *)
Definition row_literal (data : _ArticleData)
    (argument_index question answer claim premises_count
       premises_concatenated : json) : gmap string json :=
  <["premises_concatenated" := premises_concatenated]>
  (<["premises_count" := premises_count]>
  (<["claim" := claim]>
  (<["answer" := answer]>
  (<["question" := question]>
  (<["argument_index" := argument_index]>
  (<["error_message" := error_message data]>
  (<["success" := success data]>
  (<["text" := text data]>
  (<["article_id" := article_id data]> ∅))))))))).

(** The cell of premise column [k]: the item at index [k], the empty
    string when there is none. *)
Definition premise_cell (items : list json) (k : nat) : json :=
  default (JStr "") (items !! k).

(** The argument dicts of a result object, none when [arguments] is
    [None]. *)
Definition argument_dicts (r : any_result) : list json :=
  match r with
  | OfQA r => qa_argument <$> default [] (QA.arguments r)
  | OfDirect r => direct_argument <$> default [] (Direct.arguments r)
  end.

(** What [_flatten_results_for_csv] reads of the dict of a result
    object. *)
Definition article_data_of (r : any_result) : _ArticleData :=
  match r with
  | OfQA r =>
      {| article_id := QA.article_id r; text := QA.text r;
         success := JBool (QA.success r);
         error_message := str_or_none (QA.error_message r) |}
  | OfDirect r =>
      {| article_id := Direct.article_id r; text := Direct.text r;
         success := JBool (Direct.success r);
         error_message := str_or_none (Direct.error_message r) |}
  end.

(** An argument dict whose premises are a list of strings. *)
Definition plain_argument (argument : json) (premises : list string)
  : Prop :=
  exists d,
    argument = JObj d
    /\ d !! "premises" = Some (JArr (JStr <$> premises)).

End RowVocabulary.

(** * Scenarios *)

(** ** The service used in the examples

    The world is the number of status checks made so far.  Uploads and job
    creation always succeed, a job is [in_progress] for the first
    [rounds] checks and then reaches [final], no output file ever exists,
    and every synchronous completion fails with a connection error. *)

Module Example.
Import OpenAICalls.

Definition stalled_service (rounds : nat) (final : string) : Service nat :=
  {| chat_completions_create := fun _ _ _ w =>
       (w, Err (Exn (OtherError "APIConnectionError") "Connection error."));
     files_create := fun _ w => (w, Ok "file-in");
     batches_create := fun file_id w =>
       (w, Ok {| batch_id := "batch-1"; batch_status := "validating";
                 batch_input_file_id := file_id;
                 batch_output_file_id := None;
                 batch_error_file_id := None |});
     batches_retrieve := fun job_id w =>
       (S w, Ok {| batch_id := job_id;
                   batch_status :=
                     if w <? rounds then "in_progress" else final;
                   batch_input_file_id := "file-in";
                   batch_output_file_id := None;
                   batch_error_file_id := None |});
     files_content := fun _ w => (w, Ok []);
     sleep := fun _ w => w |}.

End Example.

(** ** A scripted service for the scenarios

    The world holds the answers the remote service will give: the script of
    the synchronous completions (each one a list of choice contents, or an
    exception), the output files of the batch jobs in the order the jobs are
    fetched, and the log of the request batches submitted so far.  Every job
    is [completed] at its first status check. *)

Module Scenario.
Import OpenAICalls.

Record world := mkWorld {
  chat_script : list (res (list (option string)));
  job_outputs : list (list (gmap string json));
  submitted : list (list request);
}.

Definition service : Service world :=
  {| chat_completions_create := fun _ _ _ w =>
       match chat_script w with
       | [] =>
           (w, Err (Exn (OtherError "APIConnectionError") "Connection error."))
       | answer :: script =>
           ({| chat_script := script; job_outputs := job_outputs w;
               submitted := submitted w |}, answer)
       end;
     files_create := fun requests w =>
       ({| chat_script := chat_script w; job_outputs := job_outputs w;
           submitted := submitted w ++ [requests] |}, Ok "file-in");
     batches_create := fun file_id w =>
       (w, Ok {| batch_id := "batch-1"; batch_status := "validating";
                 batch_input_file_id := file_id;
                 batch_output_file_id := None;
                 batch_error_file_id := None |});
     batches_retrieve := fun job_id w =>
       (w, Ok {| batch_id := job_id; batch_status := "completed";
                 batch_input_file_id := "file-in";
                 batch_output_file_id := Some "file-out";
                 batch_error_file_id := None |});
     files_content := fun _ w =>
       match job_outputs w with
       | [] => (w, Ok [])
       | output :: rest =>
           ({| chat_script := chat_script w; job_outputs := rest;
               submitted := submitted w |}, Ok output)
       end;
     sleep := fun _ w => w |}.

(** A result record of the batch output format with the given completion
    text. *)
Definition completed (custom_id content : string) : gmap string json :=
  let message : gmap string json := {[ "content" := JStr content ]} in
  let choice : gmap string json := {[ "message" := JObj message ]} in
  let body : gmap string json := {[ "choices" := JArr [JObj choice] ]} in
  let response : gmap string json := {[ "body" := JObj body ]} in
  {[ "custom_id" := JStr custom_id; "response" := JObj response ]}.

(** A result record of a request that failed: no response. *)
Definition failed (custom_id : string) : gmap string json :=
  {[ "custom_id" := JStr custom_id; "response" := JNull ]}.

Definition nl : string := String "010"%char EmptyString.

Definition article (id text : string) : gmap string json :=
  {[ "id" := JStr id; "text" := JStr text ]}.

Definition three_articles : list (gmap string json) :=
  [ article "a1" "First text."; article "a2" "Second text.";
    article "a3" "Third text." ].

(** The prompt templates of the scenarios. *)
Definition shown (v : json) : string :=
  match v with JStr s => s | _ => "" end.
Definition prompt1 (text : json) : string := "Read: " +:+ shown text.
Definition prompt2 (text : json) (item : string) : string :=
  "About: " +:+ item +:+ " in: " +:+ shown text.
Definition prompt2' (item : string) (text : json) : string :=
  prompt2 text item.
Definition prompt3 (question answer : string) : string :=
  "Q: " +:+ question +:+ " A: " +:+ answer.

(** Partial phase results of a direct extraction over [three_articles]: the
    first article has two conclusions, of which only the second got
    premises; the request of the second article never came back; the
    request of the third failed. *)
Definition partial_direct : Direct._BatchConfig :=
  {| Direct.articles := three_articles;
     Direct.phase1 :=
       [ completed "c_0" ("1. Taxes fell." +:+ nl +:+ "2. Growth rose.");
         failed "c_2" ];
     Direct.phase2 := [ completed "p_0_1" "- Output grew by 3%" ];
     Direct.text_column := "text";
     Direct.id_column := Some "id" |}.

(** Partial phase results of a question-answer extraction over
    [three_articles]: nothing at all came back for any phase. *)
Definition empty_qa : QA._BatchConfig :=
  {| QA.articles := three_articles;
     QA.phase1 := []; QA.phase2 := []; QA.phase3 := [];
     QA.text_column := "text";
     QA.id_column := Some "id" |}.

Definition idle : world :=
  {| chat_script := []; job_outputs := []; submitted := [] |}.

(** The list a run returned, the empty list if it did not return. *)
Definition returned {A} (run : world * outcome (list A)) : list A :=
  match run.2 with Returns l => l | _ => [] end.

(** A batch run of the direct variant in which the jobs of the two phases
    give the partial outputs of [partial_direct]. *)
Definition direct_world : world :=
  {| chat_script := [];
     job_outputs := [Direct.phase1 partial_direct;
                     Direct.phase2 partial_direct];
     submitted := [] |}.

Definition direct_run : world * outcome (list Direct.DirectExtractionResult) :=
  Direct.process_batch service "gpt-4o-mini" prompt1 prompt2 0
    three_articles "text" (Some "id") direct_world.

(** A batch run of the question-answer variant in which no job gives any
    output. *)
Definition qa_run : world * outcome (list QA.QAResult) :=
  QA.process_batch service "gpt-4o-mini" prompt1 prompt2' prompt3 0
    three_articles "text" (Some "id") idle.

End Scenario.

(** ** Scenario B: three questions, two answers *)

Module ScenarioB.
Import OpenAICalls Scenario.

Definition one_article : list (gmap string json) :=
  [article "a1" "First text."].

Definition questions_output : list (gmap string json) :=
  [completed "q_0" ("1. Why?" +:+ nl +:+ "2. How?" +:+ nl +:+ "3. When?")].

(** The answer to question 1 never arrived. *)
Definition answers_output : list (gmap string json) :=
  [completed "qa_0_0" "Because."; completed "qa_0_2" "In May."].

Definition arguments_output : list (gmap string json) :=
  [completed "arg_0_0"
     ("Claim: It is so." +:+ nl +:+ "Premises:" +:+ nl +:+ "- It was said.");
   completed "arg_0_2"
     ("Claim: It is in May." +:+ nl +:+ "Premises:" +:+ nl +:+ "1. The date.")].

Definition config : QA._BatchConfig :=
  {| QA.articles := one_article;
     QA.phase1 := questions_output;
     QA.phase2 := answers_output;
     QA.phase3 := arguments_output;
     QA.text_column := "text";
     QA.id_column := Some "id" |}.

Definition start : world :=
  {| chat_script := [];
     job_outputs := [questions_output; answers_output; arguments_output];
     submitted := [] |}.

Definition run : world * outcome (list QA.QAResult) :=
  QA.process_batch service "gpt-4o-mini" prompt1 prompt2' prompt3 0
    one_article "text" (Some "id") start.

(** The maps the phases build from the first two outputs. *)
Definition questions_map : gmap string (list string) :=
  match QA._build_questions_map questions_output with
  | Ok m => m
  | Err _ => ∅
  end.

Definition answers_map : gmap string string :=
  match QA._build_answers_map answers_output with
  | Ok m => m
  | Err _ => ∅
  end.

(** The keys of the request batches submitted during a run, batch by
    batch. *)
Definition submitted_keys (w : world) : list (list string) :=
  (fun batch : list request => custom_id <$> batch) <$> submitted w.

End ScenarioB.

(** ** Twelve questions in one response *)
Module ScenarioTwelve.
Import OpenAICalls Scenario.

Definition twelve_questions : string :=
  String.concat nl
    ((fun i => PyStr.of_nat i +:+ ". Question " +:+ PyStr.of_nat i +:+ "?")
       <$> seq 1 12).

Definition config : QA._BatchConfig :=
  {| QA.articles := [article "a1" "First text."];
     QA.phase1 := [completed "q_0" twelve_questions];
     QA.phase2 :=
       (fun j => completed (QA.qa_key 0 j) "An answer.") <$> seq 0 12;
     QA.phase3 :=
       (fun j => completed (QA.arg_key 0 j) "Claim: A claim.") <$> seq 0 12;
     QA.text_column := "text";
     QA.id_column := Some "id" |}.

Definition batch_run : world * outcome (list QA.QAResult) :=
  QA.process_batch service "gpt-4o-mini" prompt1 prompt2' prompt3 0
    (QA.articles config) "text" (Some "id")
    {| chat_script := [];
       job_outputs := [QA.phase1 config; QA.phase2 config; QA.phase3 config];
       submitted := [] |}.

(** The synchronous completions of a single-article run: the twelve
    questions, then an answer and an argument for each question asked. *)
Definition single_start : world :=
  {| chat_script :=
       Ok [Some twelve_questions]
       :: replicate 24 (Ok [Some "Claim: A claim."]);
     job_outputs := []; submitted := [] |}.

Definition single_run : world * outcome QA.QAResult :=
  QA.process_single service "gpt-4o-mini" prompt1 prompt2' prompt3
    "First text." (JStr "a1") single_start.

(** The record a single-article run returned. *)
Definition single_result : QA.QAResult :=
  match single_run.2 with
  | Returns r => r
  | _ => QA.new_result JNull JNull
  end.

End ScenarioTwelve.

Module ScenarioOrder.
Import Scenario.

Definition in_order : Direct._BatchConfig :=
  {| Direct.articles := three_articles;
     Direct.phase1 :=
       [ completed "c_0" ("1. Taxes fell." +:+ nl +:+ "2. Growth rose.");
         completed "c_1" "1. Rates rose." ];
     Direct.phase2 :=
       [ completed "p_0_0" "- The rate was cut";
         completed "p_0_1" "- Output grew by 3%";
         completed "p_1_0" "- The bank said so" ];
     Direct.text_column := "text";
     Direct.id_column := Some "id" |}.

Definition shuffled : Direct._BatchConfig :=
  {| Direct.articles := three_articles;
     Direct.phase1 := reverse (Direct.phase1 in_order);
     Direct.phase2 := reverse (Direct.phase2 in_order);
     Direct.text_column := "text";
     Direct.id_column := Some "id" |}.

Definition shuffled_qa : QA._BatchConfig :=
  {| QA.articles := QA.articles ScenarioB.config;
     QA.phase1 := QA.phase1 ScenarioB.config;
     QA.phase2 := reverse (QA.phase2 ScenarioB.config);
     QA.phase3 := reverse (QA.phase3 ScenarioB.config);
     QA.text_column := "text";
     QA.id_column := Some "id" |}.

End ScenarioOrder.

Module ScenarioSingle.
Import OpenAICalls Scenario.

(** The synchronous completions of a single-article run of the direct
    variant: two conclusions, premises for the first, an empty completion
    for the second. *)
Definition direct_start : world :=
  {| chat_script :=
       [ Ok [Some ("1. Taxes fell." +:+ nl +:+ "2. Growth rose.")];
         Ok [Some "- The rate was cut"];
         Ok [None] ];
     job_outputs := []; submitted := [] |}.

Definition direct_run : world * outcome Direct.DirectExtractionResult :=
  Direct.process_single service "gpt-4o-mini" prompt1 prompt2
    "First text." (JStr "a1") direct_start.

End ScenarioSingle.

(** ** Results to write, and a file system in memory *)

Module ScenarioCsv.
Import OutputFormatter Main.

(** A file system that never fails: a file is the list of the lines
    written to it. *)
Definition in_memory : Files (gmap string (list (list json))) :=
  {| mkdir_parent := fun _ w => (w, Ok tt);
     open_w := fun path w => (<[path := []]> w, Ok tt);
     writerow := fun path cells w =>
       (<[path := default [] (w !! path) ++ [cells]]> w, Ok tt) |}.

(** The exception of slicing a dict before Python 3.12. *)
Definition unhashable : exn := Exn TypeError "unhashable type: 'slice'".

(** A result of the question-answer variant with two arguments, the
    second with six premises. *)
Definition qa_result : QA.QAResult :=
  {| QA.text := JStr "First text."; QA.article_id := JStr "a1";
     QA.questions := Some ["Why?"; "How?"];
     QA.arguments :=
       Some [ {| QA.question := "Why?"; QA.answer := "Because.";
                 QA.claim := "It is so."; QA.premises := ["It was said."] |};
              {| QA.question := "How?"; QA.answer := "Slowly.";
                 QA.claim := "It takes time.";
                 QA.premises := ["p1"; "p2"; "p3"; "p4"; "p5"; "p6"] |} ];
     QA.success := true; QA.error_message := None |}.

(** A result of the direct variant with one argument, and one that
    failed. *)
Definition direct_result : Direct.DirectExtractionResult :=
  {| Direct.text := JStr "Second text."; Direct.article_id := JStr "a2";
     Direct.conclusions := Some ["Taxes fell."];
     Direct.arguments :=
       Some [ {| Direct.conclusion := "Taxes fell.";
                 Direct.premises := ["The rate was cut"] |} ];
     Direct.success := true; Direct.error_message := None |}.

Definition failed_result : Direct.DirectExtractionResult :=
  {| Direct.text := JStr "Third text."; Direct.article_id := JStr "a3";
     Direct.conclusions := None; Direct.arguments := None;
     Direct.success := false; Direct.error_message := Some "Rate limit" |}.

End ScenarioCsv.

(** ** A sequential run that loses its connection *)

Module ScenarioRun.
Import OpenAICalls Scenario Main.

(** A record of the list [run_pipeline] makes of the data. *)
Definition record (id text : string) : gmap string json :=
  {[ "article_id" := JStr id; "text" := JStr text ]}.

Definition extractor : Extractor world Direct.DirectExtractionResult :=
  direct_extractor service "gpt-4o-mini" prompt1 prompt2.

(** The service answers the two calls of the first article, then the
    connection is lost. *)
Definition start : world :=
  {| chat_script :=
       [ Ok [Some "1. Taxes fell."]; Ok [Some "- The rate was cut"] ];
     job_outputs := []; submitted := [] |}.

Definition first_result : Direct.DirectExtractionResult :=
  {| Direct.text := JStr "First text."; Direct.article_id := JStr "a1";
     Direct.conclusions := Some ["Taxes fell."];
     Direct.arguments :=
       Some [ {| Direct.conclusion := "Taxes fell.";
                 Direct.premises := ["The rate was cut"] |} ];
     Direct.success := true; Direct.error_message := None |}.

End ScenarioRun.

(** * Properties *)

(** ** The monad *)

Lemma bind_returns {W A B} (c : M W A) (k : A -> M W B) w w' a :
  c w = (w', Returns a) -> bind c k w = k a w'.
Proof. intros H. unfold bind. now rewrite H. Qed.

Lemma bind_raises {W A B} (c : M W A) (k : A -> M W B) w w' e :
  c w = (w', Raises e) -> bind c k w = (w', Raises e).
Proof. intros H. unfold bind. now rewrite H. Qed.

Lemma bind_inv_returns {W A B} (c : M W A) (k : A -> M W B) w w' b :
  bind c k w = (w', Returns b) ->
  exists w1 a, c w = (w1, Returns a) /\ k a w1 = (w', Returns b).
Proof.
  unfold bind. destruct (c w) as [w1 [a|e|]]; intros H; try discriminate.
  eauto.
Qed.

Lemma perform_ok {W A} (op : W -> W * res A) w w' a :
  op w = (w', Ok a) -> perform op w = (w', Returns a).
Proof. intros H. unfold perform. now rewrite H. Qed.

Lemma perform_err {W A} (op : W -> W * res A) w w' e :
  op w = (w', Err e) -> perform op w = (w', Raises e).
Proof. intros H. unfold perform. now rewrite H. Qed.

Lemma lift_inv_returns {W A} (r : res A) (w w' : W) a :
  lift r w = (w', Returns a) -> r = Ok a /\ w' = w.
Proof. destruct r; cbn; intros [= -> ->]; auto. Qed.

(** ** The job status and the polling loop *)

Section PollingFacts.
Import OpenAICalls.
Context {W : Type} (client : Service W).

Lemma is_complete_iff (st : BatchJobStatus) :
  is_complete st = true <-> status st ∈ terminal_states.
Proof. unfold is_complete. apply bool_decide_eq_true. Qed.

Lemma poll_terminal fuel jid st w :
  is_complete st = true ->
  Common.poll client fuel jid st w = (w, Returns st).
Proof. intros H. destruct fuel; cbn; now rewrite H. Qed.

Lemma poll_pending fuel jid st w :
  is_complete st = false ->
  Common.poll client (S fuel) jid st w =
  bind (check_batch client jid) (Common.poll client fuel jid)
    (sleep client 30 w).
Proof. intros H. cbn. now rewrite H. Qed.

Lemma check_batch_ok jid w w' b :
  batches_retrieve client jid w = (w', Ok b) ->
  check_batch client jid w =
  (w', Returns {| job_id := OpenAICalls.batch_id b; status := batch_status b;
                  input_file_id := batch_input_file_id b;
                  output_file_id := batch_output_file_id b;
                  error_file_id := batch_error_file_id b |}).
Proof.
  intros H. unfold check_batch.
  now rewrite (bind_returns _ _ _ _ _ (perform_ok _ _ _ _ H)).
Qed.

Lemma poll_returns_terminal fuel jid st w w' st' :
  Common.poll client fuel jid st w = (w', Returns st') ->
  is_complete st' = true.
Proof.
  revert st w. induction fuel as [|fuel IH]; intros st w; cbn.
  - destruct (is_complete st) eqn:E; [|discriminate].
    now intros [= _ <-].
  - destruct (is_complete st) eqn:E.
    + now intros [= _ <-].
    + intros H. apply bind_inv_returns in H as (w1 & st1 & _ & H).
      now apply IH in H.
Qed.

End PollingFacts.

(** C8.  [is_complete] holds exactly for the four statuses completed,
    failed, expired and cancelled.  As soon as a status check answers with
    one of them (failed, expired and cancelled included), the loop of
    [_wait_for_batch] exits with no further sleep or check: when the first
    check is terminal the runner goes straight to [get_batch_results], and
    when a later one is, the loop returns at that round.  Whenever the loop
    ends, it ended on a terminal status and what follows is the fetch.
    Fetching the results of a job that has no output file returns the empty
    list and does not raise. *)
Theorem terminal_status_stops_polling_and_fetches :
  (forall st : OpenAICalls.BatchJobStatus,
     OpenAICalls.is_complete st = true <->
     OpenAICalls.status st ∈ ["completed"; "failed"; "expired"; "cancelled"])
  /\ (forall W (client : OpenAICalls.Service W) fuel jid st w,
        OpenAICalls.status st
          ∈ ["completed"; "failed"; "expired"; "cancelled"] ->
        Common.poll client fuel jid st w = (w, Returns st))
  /\ (forall W (client : OpenAICalls.Service W) fuel jid w w1 b,
        OpenAICalls.batches_retrieve client jid w = (w1, Ok b) ->
        OpenAICalls.batch_status b
          ∈ ["completed"; "failed"; "expired"; "cancelled"] ->
        Common.wait_for_batch client fuel jid w =
        OpenAICalls.get_batch_results client jid w1)
  /\ (forall W (client : OpenAICalls.Service W) jid w w1 b,
        OpenAICalls.batches_retrieve client jid w = (w1, Ok b) ->
        OpenAICalls.batch_output_file_id b = None ->
        OpenAICalls.get_batch_results client jid w = (w1, Returns []))
  /\ (forall W (client : OpenAICalls.Service W) fuel jid w w1 st w2 st',
        OpenAICalls.check_batch client jid w = (w1, Returns st) ->
        Common.poll client fuel jid st w1 = (w2, Returns st') ->
        OpenAICalls.status st'
          ∈ ["completed"; "failed"; "expired"; "cancelled"]
        /\ Common.wait_for_batch client fuel jid w =
           OpenAICalls.get_batch_results client jid w2).
Proof.
  split; [exact is_complete_iff|].
  split.
  { intros W client fuel jid st w Hst.
    apply poll_terminal. now apply is_complete_iff. }
  split.
  { intros W client fuel jid w w1 b Hget Hst.
    unfold Common.wait_for_batch.
    rewrite (bind_returns _ _ _ _ _ (check_batch_ok client _ _ _ _ Hget)).
    erewrite bind_returns; [reflexivity|].
    apply poll_terminal. now apply is_complete_iff. }
  split.
  - intros W client jid w w1 b Hget Hnone.
    unfold OpenAICalls.get_batch_results.
    rewrite (bind_returns _ _ _ _ _ (check_batch_ok client _ _ _ _ Hget)).
    cbn. now rewrite Hnone.
  - intros W client fuel jid w w1 st w2 st' Hcheck Hpoll. split.
    + apply is_complete_iff. eapply poll_returns_terminal, Hpoll.
    + unfold Common.wait_for_batch.
      rewrite (bind_returns _ _ _ _ _ Hcheck).
      now rewrite (bind_returns _ _ _ _ _ Hpoll).
Qed.

(** A job that fails at the very first status check: no round is spent
    polling, and the fetch gives the empty list.  A job that is cancelled
    after two rounds in progress: the loop ends there and the fetch
    follows. *)
Lemma terminal_status_stops_polling_and_fetches_witness :
  Common.poll (Example.stalled_service 0 "failed") 0 "batch-1"
    {| OpenAICalls.job_id := "batch-1"; OpenAICalls.status := "expired";
       OpenAICalls.input_file_id := "file-in";
       OpenAICalls.output_file_id := None;
       OpenAICalls.error_file_id := None |} 7
  = (7, Returns
          {| OpenAICalls.job_id := "batch-1"; OpenAICalls.status := "expired";
             OpenAICalls.input_file_id := "file-in";
             OpenAICalls.output_file_id := None;
             OpenAICalls.error_file_id := None |})
  /\ Common.wait_for_batch (Example.stalled_service 0 "failed") 0 "batch-1" 0
     = OpenAICalls.get_batch_results
         (Example.stalled_service 0 "failed") "batch-1" 1
  /\ OpenAICalls.get_batch_results
       (Example.stalled_service 0 "failed") "batch-1" 1
     = (2, Returns [])
  /\ Common.wait_for_batch (Example.stalled_service 2 "cancelled") 5 "batch-1" 0
     = OpenAICalls.get_batch_results
         (Example.stalled_service 2 "cancelled") "batch-1" 3.
Proof.
  destruct terminal_status_stops_polling_and_fetches
    as (_ & Hpoll & Hwait & Hget & Hend).
  split; [|split; [|split]].
  - apply Hpoll. vm_compute. repeat constructor.
  - eapply Hwait; [reflexivity|]. vm_compute. repeat constructor.
  - eapply Hget; reflexivity.
  - eapply Hend; [reflexivity|]. vm_compute. reflexivity.
Defined.

(** ** Result records and the maps built from them *)

Lemma extract_batch_result_total record :
  well_typed record = true ->
  exists content, OpenAICalls.extract_batch_result record = Ok content.
Proof.
  unfold well_typed, choices_of, OpenAICalls.extract_batch_result.
  intros [_ H]%andb_true_iff.
  destruct (Py.dict_get record "response" (JObj ∅)) as [| | | | |response];
    cbn; eauto.
  destruct (Py.dict_get response "body" (JObj ∅)) as [| | | | |body];
    cbn; eauto.
  destruct (Py.dict_get body "choices" (JArr [])) as [| | |s|l|m];
    cbn in *; try discriminate; eauto.
  - destruct s; cbn; eauto.
  - destruct l as [|first l]; cbn; eauto.
    destruct first as [| | | | |first]; cbn; eauto.
    destruct (Py.dict_get first "message" (JObj ∅)) as [| | | | |message];
      cbn; eauto.
    destruct (Py.dict_get message "content" (JStr "")); cbn; eauto.
  - destruct (negb (bool_decide (m = ∅))); cbn; eauto.
Qed.

Lemma setitem_total {V} (m : gmap string V) record v :
  well_typed record = true ->
  exists m', Py.setitem m (Py.dict_get record "custom_id" (JStr "")) v = Ok m'.
Proof.
  unfold well_typed. intros [H _]%andb_true_iff.
  destruct (Py.dict_get record "custom_id" (JStr "")); cbn in *;
    try discriminate; eauto.
Qed.

Lemma build_map_total {V} (parse : string -> V) results :
  forallb well_typed results = true ->
  exists m, Common.build_map parse results = Ok m.
Proof.
  unfold Common.build_map. generalize (∅ : gmap string V).
  induction results as [|record results IH]; intros acc; cbn; [eauto|].
  intros [Hrecord Hrest]%andb_true_iff. unfold Common.build_map_step at 1.
  destruct (extract_batch_result_total record Hrecord) as [content ->]. cbn.
  destruct (PyStr.is_empty content); cbn; [now apply IH|].
  destruct (setitem_total acc record (parse content) Hrecord) as [acc' ->].
  cbn. now apply IH.
Qed.

Lemma build_map_step_dom {V} (parse : string -> V) acc record acc' key :
  Common.build_map_step parse acc record = Ok acc' ->
  is_Some (acc' !! key) <-> is_Some (acc !! key) \/ has_content key record.
Proof.
  unfold Common.build_map_step, has_content.
  destruct (OpenAICalls.extract_batch_result record) as [content|];
    [|discriminate]. cbn.
  destruct (PyStr.is_empty content) eqn:Hempty; cbn.
  - intros [= <-]. split; [auto|].
    intros [H|(_ & c & [= <-] & Hc)]; [done|congruence].
  - destruct (Py.dict_get record "custom_id" (JStr "")) as [| | |id| |];
      cbn; try discriminate; intros [= <-];
      try (split; [auto|]; intros [H|(Hid & _)]; [done|discriminate]).
    destruct (decide (id = key)) as [->|Hne].
    + rewrite lookup_insert_eq. split; [|eauto]. intros _. right. eauto.
    + rewrite lookup_insert_ne by done. split; [auto|].
      intros [H|([= Hid] & _)]; [done|congruence].
Qed.

Lemma build_map_dom {V} (parse : string -> V) results m key :
  Common.build_map parse results = Ok m ->
  is_Some (m !! key) <->
  exists record, record ∈ results /\ has_content key record.
Proof.
  unfold Common.build_map.
  assert (forall acc,
    for_fold (Common.build_map_step parse) acc results = Ok m ->
    is_Some (m !! key) <->
    is_Some (acc !! key)
    \/ exists record, record ∈ results /\ has_content key record)
    as Hgen.
  { induction results as [|record results IH]; intros acc; cbn.
    - intros [= <-]. split; [auto|].
      intros [H|(r & Hr & _)]; [done|]. now apply not_elem_of_nil in Hr.
    - destruct (Common.build_map_step parse acc record) as [acc'|] eqn:Hstep;
        [|discriminate]. cbn. intros H.
      rewrite (IH _ H), (build_map_step_dom _ _ _ _ key Hstep).
      split.
      + intros [[Hacc|Hrec]|(r & Hr & Hc)]; [auto| |].
        * right. exists record. split; [left|done].
        * right. exists r. split; [now right|done].
      + intros [Hacc|(r & Hr & Hc)]; [auto|].
        apply elem_of_cons in Hr as [->|Hr]; [auto|]. right. eauto. }
  intros H. rewrite (Hgen _ H), lookup_empty.
  split; [intros [[? [=]]|]; auto|auto].
Qed.

Lemma build_map_missing {V} (parse : string -> V) results m key :
  Common.build_map parse results = Ok m ->
  (forall record, record ∈ results ->
     Py.dict_get record "custom_id" (JStr "") <> JStr key) ->
  m !! key = None.
Proof.
  intros Hm Hmissing. apply eq_None_not_Some.
  rewrite (build_map_dom _ _ _ key Hm).
  intros (record & Hrecord & Hid & _). now apply (Hmissing record).
Qed.

(** ** The joiner *)

Lemma direct_combine_inv cfg results :
  Direct._combine_results cfg = Ok results ->
  exists conclusions_map premises_map,
    Direct._build_conclusions_map (Direct.phase1 cfg) = Ok conclusions_map
    /\ Direct._build_premises_map (Direct.phase2 cfg) = Ok premises_map
    /\ results =
       imap (Direct.combine_article conclusions_map premises_map
               (Direct.text_column cfg) (Direct.id_column cfg))
         (Direct.articles cfg).
Proof.
  unfold Direct._combine_results.
  destruct (Direct._build_conclusions_map _) as [cm|]; [|discriminate].
  destruct (Direct._build_premises_map _) as [pm|]; [|discriminate].
  cbn. intros [= <-]. eauto.
Qed.

Lemma qa_combine_inv cfg results :
  QA._combine_results cfg = Ok results ->
  exists questions_map answers_map arguments_map,
    QA._build_questions_map (QA.phase1 cfg) = Ok questions_map
    /\ QA._build_answers_map (QA.phase2 cfg) = Ok answers_map
    /\ QA._build_arguments_map (QA.phase3 cfg) = Ok arguments_map
    /\ results =
       imap (QA.combine_article questions_map answers_map arguments_map
               (QA.text_column cfg) (QA.id_column cfg))
         (QA.articles cfg).
Proof.
  unfold QA._combine_results.
  destruct (QA._build_questions_map _) as [qm|]; [|discriminate].
  destruct (QA._build_answers_map _) as [am|]; [|discriminate].
  destruct (QA._build_arguments_map _) as [gm|]; [|discriminate].
  cbn. intros [= <-]. exists qm, am, gm. auto.
Qed.

Lemma direct_combine_total cfg :
  forallb well_typed (Direct.phase1 cfg) = true ->
  forallb well_typed (Direct.phase2 cfg) = true ->
  exists results, Direct._combine_results cfg = Ok results.
Proof.
  intros H1 H2. unfold Direct._combine_results,
    Direct._build_conclusions_map, Direct._build_premises_map.
  destruct (build_map_total Direct._parse_list_items _ H1) as [cm ->].
  destruct (build_map_total Direct._parse_list_items _ H2) as [pm ->].
  cbn. eauto.
Qed.

Lemma qa_combine_total cfg :
  forallb well_typed (QA.phase1 cfg) = true ->
  forallb well_typed (QA.phase2 cfg) = true ->
  forallb well_typed (QA.phase3 cfg) = true ->
  exists results, QA._combine_results cfg = Ok results.
Proof.
  intros H1 H2 H3. unfold QA._combine_results, QA._build_questions_map,
    QA._build_answers_map, QA._build_arguments_map.
  destruct (build_map_total QA._parse_questions _ H1) as [qm ->].
  destruct (build_map_total (fun content => content) _ H2) as [am ->].
  destruct (build_map_total QA._parse_argument _ H3) as [gm ->].
  cbn. eauto.
Qed.

Lemma direct_combine_article_fields cm pm tc ic i article :
  Direct.text (Direct.combine_article cm pm tc ic i article)
    = Py.dict_get article tc (JStr "")
  /\ Direct.article_id (Direct.combine_article cm pm tc ic i article)
    = Common.get_article_id ic article.
Proof.
  unfold Direct.combine_article. cbn.
  destruct (negb _); cbn; auto.
Qed.

Lemma qa_combine_article_fields qm am gm tc ic i article :
  QA.text (QA.combine_article qm am gm tc ic i article)
    = Py.dict_get article tc (JStr "")
  /\ QA.article_id (QA.combine_article qm am gm tc ic i article)
    = Common.get_article_id ic article.
Proof.
  unfold QA.combine_article. cbn.
  destruct (negb _); cbn; auto.
Qed.

Lemma direct_combine_one_per_article cfg results :
  Direct._combine_results cfg = Ok results ->
  one_per_article Direct.text Direct.article_id (Direct.articles cfg)
    (Direct.text_column cfg) (Direct.id_column cfg) results.
Proof.
  intros (cm & pm & _ & _ & ->)%direct_combine_inv. split.
  - apply length_imap.
  - intros i article Hi. eexists. rewrite list_lookup_imap, Hi. cbn.
    split; [reflexivity|]. apply direct_combine_article_fields.
Qed.

Lemma qa_combine_one_per_article cfg results :
  QA._combine_results cfg = Ok results ->
  one_per_article QA.text QA.article_id (QA.articles cfg)
    (QA.text_column cfg) (QA.id_column cfg) results.
Proof.
  intros (qm & am & gm & _ & _ & _ & ->)%qa_combine_inv. split.
  - apply length_imap.
  - intros i article Hi. eexists. rewrite list_lookup_imap, Hi. cbn.
    split; [reflexivity|]. apply qa_combine_article_fields.
Qed.

Lemma direct_process_batch_inv {W} (client : OpenAICalls.Service W)
    model cprompt pprompt fuel articles tc ic w w' results :
  Direct.process_batch client model cprompt pprompt fuel articles tc ic w
    = (w', Returns results) ->
  exists phase1_results phase2_results,
    Direct._combine_results
      {| Direct.articles := articles; Direct.phase1 := phase1_results;
         Direct.phase2 := phase2_results; Direct.text_column := tc;
         Direct.id_column := ic |} = Ok results.
Proof.
  unfold Direct.process_batch. intros H.
  apply bind_inv_returns in H as (w1 & p1 & _ & H).
  apply bind_inv_returns in H as (w2 & p2 & _ & H).
  apply lift_inv_returns in H as [H _]. eauto.
Qed.

Lemma qa_process_batch_inv {W} (client : OpenAICalls.Service W)
    model qprompt aprompt gprompt fuel articles tc ic w w' results :
  QA.process_batch client model qprompt aprompt gprompt fuel articles tc ic w
    = (w', Returns results) ->
  exists phase1_results phase2_results phase3_results,
    QA._combine_results
      {| QA.articles := articles; QA.phase1 := phase1_results;
         QA.phase2 := phase2_results; QA.phase3 := phase3_results;
         QA.text_column := tc; QA.id_column := ic |} = Ok results.
Proof.
  unfold QA.process_batch. intros H.
  apply bind_inv_returns in H as (w1 & p1 & _ & H).
  apply bind_inv_returns in H as (w2 & p2 & _ & H).
  apply bind_inv_returns in H as (w3 & p3 & _ & H).
  apply lift_inv_returns in H as [H _]. eauto.
Qed.

(** C1.  The joiner of either variant returns, for phase results of the
    batch output format and whichever of them are missing, empty or
    partial, exactly one record per input article, in the order of the
    articles; and every list that [process_batch] returns, in either
    variant, is such a list. *)
Theorem process_batch_one_result_per_article :
  (forall cfg : Direct._BatchConfig,
     forallb well_typed (Direct.phase1 cfg) = true ->
     forallb well_typed (Direct.phase2 cfg) = true ->
     exists results,
       Direct._combine_results cfg = Ok results
       /\ one_per_article Direct.text Direct.article_id (Direct.articles cfg)
            (Direct.text_column cfg) (Direct.id_column cfg) results)
  /\ (forall cfg : QA._BatchConfig,
        forallb well_typed (QA.phase1 cfg) = true ->
        forallb well_typed (QA.phase2 cfg) = true ->
        forallb well_typed (QA.phase3 cfg) = true ->
        exists results,
          QA._combine_results cfg = Ok results
          /\ one_per_article QA.text QA.article_id (QA.articles cfg)
               (QA.text_column cfg) (QA.id_column cfg) results)
  /\ (forall W (client : OpenAICalls.Service W) model cprompt pprompt
             fuel articles tc ic w w' results,
        Direct.process_batch client model cprompt pprompt fuel articles tc ic w
          = (w', Returns results) ->
        one_per_article Direct.text Direct.article_id articles tc ic results)
  /\ (forall W (client : OpenAICalls.Service W) model qprompt aprompt gprompt
             fuel articles tc ic w w' results,
        QA.process_batch client model qprompt aprompt gprompt
          fuel articles tc ic w = (w', Returns results) ->
        one_per_article QA.text QA.article_id articles tc ic results).
Proof.
  repeat split.
  - intros cfg H1 H2.
    destruct (direct_combine_total cfg H1 H2) as [results H].
    exists results. split; [exact H|].
    now apply direct_combine_one_per_article.
  - intros cfg H1 H2 H3.
    destruct (qa_combine_total cfg H1 H2 H3) as [results H].
    exists results. split; [exact H|].
    now apply qa_combine_one_per_article.
  - apply direct_process_batch_inv in H as (p1 & p2 & H).
    apply (direct_combine_one_per_article _ _ H).
  - apply direct_process_batch_inv in H as (p1 & p2 & H).
    apply (direct_combine_one_per_article _ _ H).
  - apply qa_process_batch_inv in H as (p1 & p2 & p3 & H).
    apply (qa_combine_one_per_article _ _ H).
  - apply qa_process_batch_inv in H as (p1 & p2 & p3 & H).
    apply (qa_combine_one_per_article _ _ H).
Qed.

(** Three articles with partial phase results, through the joiner alone and
    through whole batch runs. *)
Lemma process_batch_one_result_per_article_witness :
  (exists results,
     Direct._combine_results Scenario.partial_direct = Ok results
     /\ one_per_article Direct.text Direct.article_id
          (Direct.articles Scenario.partial_direct)
          (Direct.text_column Scenario.partial_direct)
          (Direct.id_column Scenario.partial_direct) results)
  /\ (exists results,
        QA._combine_results Scenario.empty_qa = Ok results
        /\ one_per_article QA.text QA.article_id
             (QA.articles Scenario.empty_qa)
             (QA.text_column Scenario.empty_qa)
             (QA.id_column Scenario.empty_qa) results)
  /\ (Scenario.direct_run.2 = Returns (Scenario.returned Scenario.direct_run)
      /\ one_per_article Direct.text Direct.article_id Scenario.three_articles
           "text" (Some "id") (Scenario.returned Scenario.direct_run))
  /\ (Scenario.qa_run.2 = Returns (Scenario.returned Scenario.qa_run)
      /\ one_per_article QA.text QA.article_id Scenario.three_articles
           "text" (Some "id") (Scenario.returned Scenario.qa_run)).
Proof.
  destruct process_batch_one_result_per_article as (Hd & Hq & Hdb & Hqb).
  split; [|split; [|split]].
  - apply (Hd Scenario.partial_direct); vm_compute; reflexivity.
  - apply (Hq Scenario.empty_qa); vm_compute; reflexivity.
  - split; [vm_compute; reflexivity|].
    apply (Hdb _ Scenario.service "gpt-4o-mini" Scenario.prompt1
             Scenario.prompt2 0 Scenario.three_articles "text" (Some "id")
             Scenario.direct_world Scenario.direct_run.1).
    vm_compute. reflexivity.
  - split; [vm_compute; reflexivity|].
    apply (Hqb _ Scenario.service "gpt-4o-mini" Scenario.prompt1
             Scenario.prompt2' Scenario.prompt3 0 Scenario.three_articles
             "text" (Some "id") Scenario.idle Scenario.qa_run.1).
    vm_compute. reflexivity.
Defined.

(** ** Missing keys *)

Lemma omap_all_None {A B} (f : A -> option B) (l : list A) :
  (forall x, x ∈ l -> f x = None) -> omap f l = [].
Proof.
  induction l as [|x l IH]; intros H; cbn; [done|].
  rewrite (H x) by left. apply IH. intros y Hy. apply H. now right.
Qed.

Lemma direct_article_without_conclusions cm pm tc ic i article :
  cm !! Direct.c_key i = None ->
  let r := Direct.combine_article cm pm tc ic i article in
  Direct.conclusions r = Some [] /\ Direct.arguments r = Some []
  /\ Direct.success r = false
  /\ Direct.error_message r = Some "No arguments extracted".
Proof. intros H. unfold Direct.combine_article. rewrite H. cbn. auto. Qed.

Lemma direct_article_arguments cm pm tc ic i article :
  Direct.arguments (Direct.combine_article cm pm tc ic i article)
  = Some (imap (Direct.combine_conclusion pm i)
            (default [] (cm !! Direct.c_key i)))
  /\ Direct.conclusions (Direct.combine_article cm pm tc ic i article)
     = Some (default [] (cm !! Direct.c_key i)).
Proof. unfold Direct.combine_article. cbn. destruct (negb _); cbn; auto. Qed.

Lemma qa_article_without_questions qm am gm tc ic i article :
  qm !! QA.q_key i = None ->
  let r := QA.combine_article qm am gm tc ic i article in
  QA.questions r = Some [] /\ QA.arguments r = Some []
  /\ QA.success r = false
  /\ QA.error_message r = Some "No arguments extracted".
Proof. intros H. unfold QA.combine_article. rewrite H. cbn. auto. Qed.

Lemma qa_article_arguments qm am gm tc ic i article :
  QA.arguments (QA.combine_article qm am gm tc ic i article)
  = Some (omap (QA.combine_question am gm i)
            (enumerate (default [] (qm !! QA.q_key i))))
  /\ QA.questions (QA.combine_article qm am gm tc ic i article)
     = Some (default [] (qm !! QA.q_key i)).
Proof. unfold QA.combine_article. cbn. destruct (negb _); cbn; auto. Qed.

Lemma qa_article_success qm am gm tc ic i article args :
  QA.arguments (QA.combine_article qm am gm tc ic i article) = Some args ->
  QA.success (QA.combine_article qm am gm tc ic i article)
  = bool_decide (0 < length args)
  /\ QA.error_message (QA.combine_article qm am gm tc ic i article)
     = if bool_decide (0 < length args) then None
       else Some "No arguments extracted".
Proof.
  unfold QA.combine_article. cbn.
  destruct (bool_decide _) eqn:E; cbn; intros [= <-]; rewrite E; auto.
Qed.

Lemma direct_article_success cm pm tc ic i article args :
  Direct.arguments (Direct.combine_article cm pm tc ic i article) = Some args ->
  Direct.success (Direct.combine_article cm pm tc ic i article)
  = bool_decide (0 < length args)
  /\ Direct.error_message (Direct.combine_article cm pm tc ic i article)
     = if bool_decide (0 < length args) then None
       else Some "No arguments extracted".
Proof.
  unfold Direct.combine_article. cbn.
  destruct (bool_decide _) eqn:E; cbn; intros [= <-]; rewrite E; auto.
Qed.

(** C6.  When the correlation key of article [i] is missing from a phase
    result, the joiner does not raise: it returns a record for every
    article, and the record of article [i] has the empty list as the output
    of that phase.  Direct variant: without [c_i] the article has no
    conclusions and no arguments; without [p_i_j] conclusion [j] keeps its
    argument, with no premises.  Question-answer variant: without [q_i] the
    article has no questions and no arguments; when every [qa_i_j], or every
    [arg_i_j], is missing the article has no arguments. *)
Theorem missing_key_defaults_to_empty :
  (forall (cfg : Direct._BatchConfig) i article,
     forallb well_typed (Direct.phase1 cfg) = true ->
     forallb well_typed (Direct.phase2 cfg) = true ->
     Direct.articles cfg !! i = Some article ->
     absent (Direct.c_key i) (Direct.phase1 cfg) ->
     exists results r,
       Direct._combine_results cfg = Ok results
       /\ length results = length (Direct.articles cfg)
       /\ results !! i = Some r
       /\ Direct.conclusions r = Some [] /\ Direct.arguments r = Some []
       /\ Direct.success r = false)
  /\ (forall (cfg : Direct._BatchConfig) i j article,
        forallb well_typed (Direct.phase1 cfg) = true ->
        forallb well_typed (Direct.phase2 cfg) = true ->
        Direct.articles cfg !! i = Some article ->
        absent (Direct.p_key i j) (Direct.phase2 cfg) ->
        exists results r found args,
          Direct._combine_results cfg = Ok results
          /\ length results = length (Direct.articles cfg)
          /\ results !! i = Some r
          /\ Direct.conclusions r = Some found
          /\ Direct.arguments r = Some args
          /\ length args = length found
          /\ forall c, found !! j = Some c ->
               args !! j = Some {| Direct.conclusion := c;
                                   Direct.premises := [] |})
  /\ (forall (cfg : QA._BatchConfig) i article,
        forallb well_typed (QA.phase1 cfg) = true ->
        forallb well_typed (QA.phase2 cfg) = true ->
        forallb well_typed (QA.phase3 cfg) = true ->
        QA.articles cfg !! i = Some article ->
        absent (QA.q_key i) (QA.phase1 cfg) ->
        exists results r,
          QA._combine_results cfg = Ok results
          /\ length results = length (QA.articles cfg)
          /\ results !! i = Some r
          /\ QA.questions r = Some [] /\ QA.arguments r = Some []
          /\ QA.success r = false)
  /\ (forall (cfg : QA._BatchConfig) i article,
        forallb well_typed (QA.phase1 cfg) = true ->
        forallb well_typed (QA.phase2 cfg) = true ->
        forallb well_typed (QA.phase3 cfg) = true ->
        QA.articles cfg !! i = Some article ->
        (forall j, absent (QA.qa_key i j) (QA.phase2 cfg))
        \/ (forall j, absent (QA.arg_key i j) (QA.phase3 cfg)) ->
        exists results r,
          QA._combine_results cfg = Ok results
          /\ length results = length (QA.articles cfg)
          /\ results !! i = Some r
          /\ QA.arguments r = Some [] /\ QA.success r = false).
Proof.
  split; [|split; [|split]].
  - intros cfg i article H1 H2 Hi Habs.
    destruct (direct_combine_total cfg H1 H2) as [results Hres].
    pose proof Hres as (cm & pm & Hcm & _ & ->)%direct_combine_inv.
    eexists _, _. split; [exact Hres|]. split; [apply length_imap|].
    split; [rewrite list_lookup_imap, Hi; reflexivity|].
    pose proof (build_map_missing _ _ _ _ Hcm Habs) as Hnone.
    destruct (direct_article_without_conclusions cm pm
                (Direct.text_column cfg) (Direct.id_column cfg) i article Hnone)
      as (? & ? & ? & _). auto.
  - intros cfg i j article H1 H2 Hi Habs.
    destruct (direct_combine_total cfg H1 H2) as [results Hres].
    pose proof Hres as (cm & pm & _ & Hpm & ->)%direct_combine_inv.
    pose proof (build_map_missing _ _ _ _ Hpm Habs) as Hnone.
    destruct (direct_article_arguments cm pm
                (Direct.text_column cfg) (Direct.id_column cfg) i article)
      as [Hargs Hfound].
    eexists _, _, _, _. split; [exact Hres|]. split; [apply length_imap|].
    split; [rewrite list_lookup_imap, Hi; reflexivity|].
    split; [exact Hfound|]. split; [exact Hargs|].
    split; [apply length_imap|].
    intros c Hc. rewrite list_lookup_imap, Hc. cbn.
    unfold Direct.combine_conclusion. now rewrite Hnone.
  - intros cfg i article H1 H2 H3 Hi Habs.
    destruct (qa_combine_total cfg H1 H2 H3) as [results Hres].
    pose proof Hres as (qm & am & gm & Hqm & _ & _ & ->)%qa_combine_inv.
    eexists _, _. split; [exact Hres|]. split; [apply length_imap|].
    split; [rewrite list_lookup_imap, Hi; reflexivity|].
    pose proof (build_map_missing _ _ _ _ Hqm Habs) as Hnone.
    destruct (qa_article_without_questions qm am gm
                (QA.text_column cfg) (QA.id_column cfg) i article Hnone)
      as (? & ? & ? & _). auto.
  - intros cfg i article H1 H2 H3 Hi Habs.
    destruct (qa_combine_total cfg H1 H2 H3) as [results Hres].
    pose proof Hres as (qm & am & gm & _ & Ham & Hgm & ->)%qa_combine_inv.
    destruct (qa_article_arguments qm am gm
                (QA.text_column cfg) (QA.id_column cfg) i article)
      as [Hargs _].
    assert (QA.arguments
              (QA.combine_article qm am gm (QA.text_column cfg)
                 (QA.id_column cfg) i article) = Some []) as Hnil.
    { rewrite Hargs. f_equal. apply omap_all_None. intros [j q] _.
      unfold QA.combine_question.
      destruct Habs as [Habs|Habs].
      - unfold QA.truthy_answer.
        now rewrite (build_map_missing _ _ _ _ Ham (Habs j)).
      - rewrite (build_map_missing _ _ _ _ Hgm (Habs j)).
        now destruct (QA.truthy_answer _ _). }
    eexists _, _. split; [exact Hres|]. split; [apply length_imap|].
    split; [rewrite list_lookup_imap, Hi; reflexivity|].
    split; [exact Hnil|].
    now destruct (qa_article_success _ _ _ _ _ _ _ _ Hnil) as [-> _].
Qed.

Lemma absent_by_check key results :
  forallb (fun record => negb (carries_key key record)) results = true ->
  absent key results.
Proof.
  intros H record Hrecord Hid.
  rewrite forallb_forall in H.
  apply list_elem_of_In, H in Hrecord.
  unfold carries_key in Hrecord. rewrite Hid, String.eqb_refl in Hrecord.
  discriminate.
Qed.

(** In [Scenario.partial_direct] the key [c_1] never came back and [p_0_0]
    is missing from phase 2; in [Scenario.empty_qa] every key is missing. *)
Lemma missing_key_defaults_to_empty_witness :
  (exists results r,
     Direct._combine_results Scenario.partial_direct = Ok results
     /\ length results = length (Direct.articles Scenario.partial_direct)
     /\ results !! 1 = Some r
     /\ Direct.conclusions r = Some [] /\ Direct.arguments r = Some []
     /\ Direct.success r = false)
  /\ (exists results r found args,
        Direct._combine_results Scenario.partial_direct = Ok results
        /\ length results = length (Direct.articles Scenario.partial_direct)
        /\ results !! 0 = Some r
        /\ Direct.conclusions r = Some found
        /\ Direct.arguments r = Some args
        /\ length args = length found
        /\ forall c, found !! 0 = Some c ->
             args !! 0 = Some {| Direct.conclusion := c;
                                 Direct.premises := [] |})
  /\ (exists results r,
        QA._combine_results Scenario.empty_qa = Ok results
        /\ length results = length (QA.articles Scenario.empty_qa)
        /\ results !! 2 = Some r
        /\ QA.questions r = Some [] /\ QA.arguments r = Some []
        /\ QA.success r = false)
  /\ (exists results r,
        QA._combine_results Scenario.empty_qa = Ok results
        /\ length results = length (QA.articles Scenario.empty_qa)
        /\ results !! 2 = Some r
        /\ QA.arguments r = Some [] /\ QA.success r = false).
Proof.
  destruct missing_key_defaults_to_empty as (H1 & H2 & H3 & H4).
  split; [|split; [|split]].
  - apply (H1 Scenario.partial_direct 1
             (Scenario.article "a2" "Second text."));
      [reflexivity | reflexivity | reflexivity |].
    apply absent_by_check. vm_compute. reflexivity.
  - apply (H2 Scenario.partial_direct 0 0
             (Scenario.article "a1" "First text."));
      [reflexivity | reflexivity | reflexivity |].
    apply absent_by_check. vm_compute. reflexivity.
  - apply (H3 Scenario.empty_qa 2 (Scenario.article "a3" "Third text."));
      [reflexivity | reflexivity | reflexivity | reflexivity |].
    apply absent_by_check. reflexivity.
  - apply (H4 Scenario.empty_qa 2 (Scenario.article "a3" "Third text."));
      [reflexivity | reflexivity | reflexivity | reflexivity |].
    left. intros j. apply absent_by_check. reflexivity.
Defined.

(** ** The single-article path *)

Lemma bounded_ret {W A} (a : A) : bounded (ret (W := W) a).
Proof. intros w. discriminate. Qed.

Lemma bounded_raise {W A} (e : exn) : bounded (raise (W := W) (A := A) e).
Proof. intros w. discriminate. Qed.

Lemma bounded_perform {W A} (op : W -> W * res A) : bounded (perform op).
Proof.
  intros w. unfold perform. destruct (op w) as [w' [a|e]]; discriminate.
Qed.

Lemma bounded_bind {W A B} (c : M W A) (k : A -> M W B) :
  bounded c -> (forall a, bounded (k a)) -> bounded (bind c k).
Proof.
  intros Hc Hk w. unfold bind. specialize (Hc w).
  destruct (c w) as [w' [a|e|]]; cbn in *; [apply Hk|discriminate|done].
Qed.

Lemma bounded_for_each {W A B} (f : A -> M W B) (l : list A) :
  (forall x, bounded (f x)) -> bounded (for_each f l).
Proof.
  intros Hf. induction l as [|x l IH]; cbn; [apply bounded_ret|].
  apply bounded_bind; [apply Hf|]. intros y.
  apply bounded_bind; [apply IH|]. intros ys. apply bounded_ret.
Qed.

Lemma bounded_call {W} (client : OpenAICalls.Service W) self_model prompt
    model temperature :
  bounded (OpenAICalls.call client self_model prompt model temperature).
Proof.
  unfold OpenAICalls.call. apply bounded_bind; [apply bounded_perform|].
  intros [|content choices]; [apply bounded_raise|apply bounded_ret].
Qed.

Lemma for_each_length {W A B} (f : A -> M W B) (l : list A) w w' ys :
  for_each f l w = (w', Returns ys) -> length ys = length l.
Proof.
  revert w w' ys. induction l as [|x l IH]; intros w w' ys; cbn.
  - now intros [= _ <-].
  - intros H. apply bind_inv_returns in H as (w1 & y & _ & H).
    apply bind_inv_returns in H as (w2 & ys' & Hrest & H).
    injection H as _ <-. cbn. f_equal. eapply IH, Hrest.
Qed.

Lemma direct_try_block_bounded {W} (client : OpenAICalls.Service W) model
    cprompt pprompt text :
  bounded (direct_try_block client model cprompt pprompt text).
Proof.
  unfold direct_try_block, Direct.extract_conclusions,
    Direct._process_conclusions, Direct.extract_premises.
  repeat first
    [ apply bounded_ret | apply bounded_call | apply bounded_for_each; intros
    | apply bounded_bind; [|intros] ].
Qed.

Lemma qa_try_block_bounded {W} (client : OpenAICalls.Service W) model
    qprompt aprompt gprompt text :
  bounded (qa_try_block client model qprompt aprompt gprompt text).
Proof.
  unfold qa_try_block, QA.extract_questions, QA._process_questions,
    QA.answer_question, QA.construct_argument.
  repeat first
    [ apply bounded_ret | apply bounded_call | apply bounded_for_each; intros
    | apply bounded_bind; [|intros] ].
Qed.

Lemma direct_process_single_spec {W} (client : OpenAICalls.Service W) model
    cprompt pprompt text id w :
  match direct_try_block client model cprompt pprompt text w with
  | (w', Returns (found, args)) =>
      Direct.process_single client model cprompt pprompt text id w =
      (w', Returns {| Direct.text := JStr text; Direct.article_id := id;
                      Direct.conclusions := Some found;
                      Direct.arguments := Some args;
                      Direct.success := true;
                      Direct.error_message := None |})
  | (w', Raises e) =>
      if Direct.handled e then
        exists r,
          Direct.process_single client model cprompt pprompt text id w
            = (w', Returns r)
          /\ Direct.text r = JStr text /\ Direct.article_id r = id
          /\ Direct.arguments r = None /\ Direct.success r = false
          /\ Direct.error_message r = Some (exn_msg e)
      else
        Direct.process_single client model cprompt pprompt text id w
          = (w', Raises e)
  | (_, OutOfFuel) => False
  end.
Proof.
  pose proof (direct_try_block_bounded client model cprompt pprompt text w)
    as Hb.
  unfold direct_try_block, Direct.process_single, bind in *.
  destruct (Direct.extract_conclusions client model cprompt text w)
    as [w1 [found|e|]]; cbn in *; [| |done].
  - destruct (Direct._process_conclusions client model pprompt found text w1)
      as [w2 [args|e|]]; cbn in *; [reflexivity| |done].
    destruct (Direct.handled e); [|reflexivity].
    eexists. split; [reflexivity|]. cbn. auto.
  - destruct (Direct.handled e); [|reflexivity].
    eexists. split; [reflexivity|]. cbn. auto.
Qed.

Lemma qa_process_single_spec {W} (client : OpenAICalls.Service W) model
    qprompt aprompt gprompt text id w :
  match qa_try_block client model qprompt aprompt gprompt text w with
  | (w', Returns (found, args)) =>
      QA.process_single client model qprompt aprompt gprompt text id w =
      (w', Returns {| QA.text := JStr text; QA.article_id := id;
                      QA.questions := Some found;
                      QA.arguments := Some args;
                      QA.success := true;
                      QA.error_message := None |})
  | (w', Raises e) =>
      if QA.handled e then
        exists r,
          QA.process_single client model qprompt aprompt gprompt text id w
            = (w', Returns r)
          /\ QA.text r = JStr text /\ QA.article_id r = id
          /\ QA.arguments r = None /\ QA.success r = false
          /\ QA.error_message r = Some (exn_msg e)
      else
        QA.process_single client model qprompt aprompt gprompt text id w
          = (w', Raises e)
  | (_, OutOfFuel) => False
  end.
Proof.
  pose proof (qa_try_block_bounded client model qprompt aprompt gprompt text w)
    as Hb.
  unfold qa_try_block, QA.process_single, bind in *.
  destruct (QA.extract_questions client model qprompt text w)
    as [w1 [found|e|]]; cbn in *; [| |done].
  - destruct (QA._process_questions client model aprompt gprompt found text w1)
      as [w2 [args|e|]]; cbn in *; [reflexivity| |done].
    destruct (QA.handled e); [|reflexivity].
    eexists. split; [reflexivity|]. cbn. auto.
  - destruct (QA.handled e); [|reflexivity].
    eexists. split; [reflexivity|]. cbn. auto.
Qed.

(** C9, against the claim as stated.  The client fails with a connection
    error on the first completion; [process_single] returns no record: the
    error reaches the caller. *)
Lemma process_single_propagates_connection_error :
  Direct.process_single Scenario.service "gpt-4o-mini" Scenario.prompt1
    Scenario.prompt2 "First text." (JStr "a1") Scenario.idle
  = (Scenario.idle,
     Raises (Exn (OtherError "APIConnectionError") "Connection error."))
  /\ QA.process_single Scenario.service "gpt-4o-mini" Scenario.prompt1
       Scenario.prompt2' Scenario.prompt3 "First text." (JStr "a1")
       Scenario.idle
     = (Scenario.idle,
        Raises (Exn (OtherError "APIConnectionError") "Connection error.")).
Proof. split; vm_compute; reflexivity. Qed.

(** C9, amended.  [process_single] always ends, in one of three ways.  When
    no phase call raises, it returns the record of the article with
    [success] set.  When a phase call raises a [ValueError], a [KeyError] or a
    [RuntimeError], the rest of the work for the article is dropped and a
    record is returned that is not successful, has no arguments and carries
    the message of the error in [error_message].  When a phase call raises
    an exception of any other class, that exception reaches the caller. *)
Theorem process_single_catches_three_classes :
  forall W (client : OpenAICalls.Service W) model text id w,
    (forall cprompt pprompt,
       match direct_try_block client model cprompt pprompt text w with
       | (w', Returns (found, args)) =>
           Direct.process_single client model cprompt pprompt text id w =
           (w', Returns {| Direct.text := JStr text; Direct.article_id := id;
                           Direct.conclusions := Some found;
                           Direct.arguments := Some args;
                           Direct.success := true;
                           Direct.error_message := None |})
       | (w', Raises e) =>
           match exn_cls e with
           | ValueError | KeyError | RuntimeError =>
               exists r,
                 Direct.process_single client model cprompt pprompt text id w
                   = (w', Returns r)
                 /\ Direct.text r = JStr text /\ Direct.article_id r = id
                 /\ Direct.arguments r = None /\ Direct.success r = false
                 /\ Direct.error_message r = Some (exn_msg e)
           | _ =>
               Direct.process_single client model cprompt pprompt text id w
                 = (w', Raises e)
           end
       | (_, OutOfFuel) => False
       end)
    /\ (forall qprompt aprompt gprompt,
          match qa_try_block client model qprompt aprompt gprompt text w with
          | (w', Returns (found, args)) =>
              QA.process_single client model qprompt aprompt gprompt text id w =
              (w', Returns {| QA.text := JStr text; QA.article_id := id;
                              QA.questions := Some found;
                              QA.arguments := Some args;
                              QA.success := true;
                              QA.error_message := None |})
          | (w', Raises e) =>
              match exn_cls e with
              | ValueError | KeyError | RuntimeError =>
                  exists r,
                    QA.process_single client model qprompt aprompt gprompt
                      text id w = (w', Returns r)
                    /\ QA.text r = JStr text /\ QA.article_id r = id
                    /\ QA.arguments r = None /\ QA.success r = false
                    /\ QA.error_message r = Some (exn_msg e)
              | _ =>
                  QA.process_single client model qprompt aprompt gprompt
                    text id w = (w', Raises e)
              end
          | (_, OutOfFuel) => False
          end).
Proof.
  intros W client model text id w. split.
  - intros cprompt pprompt.
    pose proof (direct_process_single_spec client model cprompt pprompt
                  text id w) as H.
    destruct (direct_try_block client model cprompt pprompt text w)
      as [w' [[found args]|e|]]; [exact H| |exact H].
    unfold Direct.handled in H. destruct (exn_cls e); exact H.
  - intros qprompt aprompt gprompt.
    pose proof (qa_process_single_spec client model qprompt aprompt gprompt
                  text id w) as H.
    destruct (qa_try_block client model qprompt aprompt gprompt text w)
      as [w' [[found args]|e|]]; [exact H| |exact H].
    unfold QA.handled in H. destruct (exn_cls e); exact H.
Qed.

(** C2, the single-article path at a completion that lists no item.  The
    model answers the phase-1 prompt with a sentence that has no numbered or
    bulleted line: [process_single] returns a record with [success] set, an
    empty [arguments] list and no [error_message], in both variants.  The
    joiner of the batch path, on the same completion for the same article,
    returns a record that is not successful and carries the fixed reason. *)
Theorem process_single_success_with_no_arguments :
  (exists w' r,
     Direct.process_single Scenario.service "gpt-4o-mini" Scenario.prompt1
       Scenario.prompt2 "First text." (JStr "a1")
       {| Scenario.chat_script := [Ok [Some "The text states no conclusion."]];
          Scenario.job_outputs := []; Scenario.submitted := [] |}
     = (w', Returns r)
     /\ Direct.success r = true /\ Direct.arguments r = Some []
     /\ Direct.error_message r = None)
  /\ (exists w' r,
        QA.process_single Scenario.service "gpt-4o-mini" Scenario.prompt1
          Scenario.prompt2' Scenario.prompt3 "First text." (JStr "a1")
          {| Scenario.chat_script := [Ok [Some "The text raises no question."]];
             Scenario.job_outputs := []; Scenario.submitted := [] |}
        = (w', Returns r)
        /\ QA.success r = true /\ QA.arguments r = Some []
        /\ QA.error_message r = None)
  /\ (exists r,
        Direct._combine_results
          {| Direct.articles := [Scenario.article "a1" "First text."];
             Direct.phase1 :=
               [Scenario.completed "c_0" "The text states no conclusion."];
             Direct.phase2 := [];
             Direct.text_column := "text"; Direct.id_column := Some "id" |}
        = Ok [r]
        /\ Direct.success r = false /\ Direct.arguments r = Some []
        /\ Direct.error_message r = Some "No arguments extracted").
Proof.
  split; [|split].
  - eexists _, _. split; [vm_compute; reflexivity|]. cbn. auto.
  - eexists _, _. split; [vm_compute; reflexivity|]. cbn. auto.
  - eexists. split; [vm_compute; reflexivity|]. cbn. auto.
Qed.

(** ** Correlation keys *)

Lemma revapp_not_Nil d acc :
  acc <> Decimal.Nil -> Decimal.revapp d acc <> Decimal.Nil.
Proof. revert acc. induction d; intros acc H; cbn; try apply IHd; done. Qed.

Lemma little_succ_not_Nil d : Decimal.Little.succ d <> Decimal.Nil.
Proof. destruct d; cbn; discriminate. Qed.

Lemma to_little_uint_not_Nil n acc :
  acc <> Decimal.Nil -> Nat.to_little_uint n acc <> Decimal.Nil.
Proof.
  revert acc. induction n as [|n IH]; intros acc H; cbn; [done|].
  apply IH, little_succ_not_Nil.
Qed.

Lemma to_uint_not_Nil n : Nat.to_uint n <> Decimal.Nil.
Proof.
  unfold Nat.to_uint, Decimal.rev.
  pose proof (to_little_uint_not_Nil n Decimal.zero) as H.
  destruct (Nat.to_little_uint n Decimal.zero); cbn;
    try (apply revapp_not_Nil; discriminate).
  now apply H.
Qed.

Lemma of_nat_not_empty i : PyStr.is_empty (PyStr.of_nat i) = false.
Proof.
  unfold PyStr.of_nat. pose proof (to_uint_not_Nil i) as H.
  destruct (Nat.to_uint i); cbn; [done|..]; reflexivity.
Qed.

Lemma parse_index_of_nat i : parse_index (PyStr.of_nat i) = Some i.
Proof.
  unfold parse_index. rewrite of_nat_not_empty. unfold PyStr.of_nat.
  rewrite NilEmpty.usu. cbn. f_equal. apply DecimalNat.Unsigned.of_to.
Qed.

Lemma digits_have_no_underscore d :
  PyStr.contains "_"%char (NilEmpty.string_of_uint d) = false.
Proof. induction d; cbn; auto. Qed.

Lemma split_without_sep sep a :
  PyStr.contains sep a = false -> PyStr.split sep a = [a].
Proof.
  induction a as [|c a IH]; cbn [PyStr.split PyStr.contains]; [done|].
  intros [Hc Ha]%orb_false_iff. rewrite Hc, (IH Ha). reflexivity.
Qed.

Lemma split_at_sep sep a b :
  PyStr.contains sep a = false ->
  PyStr.split sep (a +:+ String sep b) = a :: PyStr.split sep b.
Proof.
  induction a as [|c a IH].
  - intros _. change ("" +:+ String sep b) with (String sep b).
    cbn [PyStr.split]. now rewrite Ascii.eqb_refl.
  - change (String c a +:+ String sep b) with (String c (a +:+ String sep b)).
    cbn [PyStr.split PyStr.contains].
    intros [Hc Ha]%orb_false_iff. now rewrite Hc, (IH Ha).
Qed.

Lemma split_index i : PyStr.split "_"%char (PyStr.of_nat i) = [PyStr.of_nat i].
Proof. apply split_without_sep, digits_have_no_underscore. Qed.

(** The segments of [f"{tag}_{i}"] and of [f"{tag}_{i}_{j}"], for a tag
    with no underscore. *)
Lemma split_key1 tag i :
  PyStr.contains "_"%char tag = false ->
  PyStr.split "_"%char (tag +:+ String "_"%char (PyStr.of_nat i))
  = [tag; PyStr.of_nat i].
Proof. intros H. now rewrite (split_at_sep _ _ _ H), split_index. Qed.

Lemma split_key2 tag i j :
  PyStr.contains "_"%char tag = false ->
  PyStr.split "_"%char
    (tag +:+ String "_"%char
       (PyStr.of_nat i +:+ String "_"%char (PyStr.of_nat j)))
  = [tag; PyStr.of_nat i; PyStr.of_nat j].
Proof.
  intros H. rewrite (split_at_sep _ _ _ H).
  rewrite split_at_sep by apply digits_have_no_underscore.
  now rewrite split_index.
Qed.

Lemma c_key_segments i :
  PyStr.split "_"%char (Direct.c_key i) = ["c"; PyStr.of_nat i].
Proof. now apply (split_key1 "c"). Qed.

Lemma p_key_segments i j :
  PyStr.split "_"%char (Direct.p_key i j)
  = ["p"; PyStr.of_nat i; PyStr.of_nat j].
Proof. now apply (split_key2 "p"). Qed.

Lemma q_key_segments i :
  PyStr.split "_"%char (QA.q_key i) = ["q"; PyStr.of_nat i].
Proof. now apply (split_key1 "q"). Qed.

Lemma qa_key_segments i j :
  PyStr.split "_"%char (QA.qa_key i j)
  = ["qa"; PyStr.of_nat i; PyStr.of_nat j].
Proof. now apply (split_key2 "qa"). Qed.

Lemma arg_key_segments i j :
  PyStr.split "_"%char (QA.arg_key i j)
  = ["arg"; PyStr.of_nat i; PyStr.of_nat j].
Proof. now apply (split_key2 "arg"). Qed.

Create Rewrite HintDb keys.
#[local] Hint Rewrite c_key_segments p_key_segments q_key_segments
  qa_key_segments arg_key_segments : keys.

Ltac read_key :=
  unfold key_tag, key_article_index, key_item_index;
  autorewrite with keys; cbn [lookup list_lookup mbind option_bind];
  rewrite ?parse_index_of_nat; try reflexivity.

Lemma key_indices i j :
  key_article_index (Direct.c_key i) = Some i
  /\ key_item_index (Direct.c_key i) = None
  /\ key_article_index (Direct.p_key i j) = Some i
  /\ key_item_index (Direct.p_key i j) = Some j
  /\ key_article_index (QA.q_key i) = Some i
  /\ key_item_index (QA.q_key i) = None
  /\ key_article_index (QA.qa_key i j) = Some i
  /\ key_item_index (QA.qa_key i j) = Some j
  /\ key_article_index (QA.arg_key i j) = Some i
  /\ key_item_index (QA.arg_key i j) = Some j.
Proof. repeat split; read_key. Qed.

Lemma c_key_inj i i' : Direct.c_key i = Direct.c_key i' -> i = i'.
Proof.
  intros H. apply (f_equal key_article_index) in H.
  revert H. read_key. congruence.
Qed.

Lemma q_key_inj i i' : QA.q_key i = QA.q_key i' -> i = i'.
Proof.
  intros H. apply (f_equal key_article_index) in H.
  revert H. read_key. congruence.
Qed.

Lemma p_key_inj i j i' j' :
  Direct.p_key i j = Direct.p_key i' j' -> i = i' /\ j = j'.
Proof.
  intros H. pose proof (f_equal key_article_index H) as Hi.
  apply (f_equal key_item_index) in H.
  revert H Hi. read_key. split; congruence.
Qed.

Lemma qa_key_inj i j i' j' :
  QA.qa_key i j = QA.qa_key i' j' -> i = i' /\ j = j'.
Proof.
  intros H. pose proof (f_equal key_article_index H) as Hi.
  apply (f_equal key_item_index) in H.
  revert H Hi. read_key. split; congruence.
Qed.

Lemma arg_key_inj i j i' j' :
  QA.arg_key i j = QA.arg_key i' j' -> i = i' /\ j = j'.
Proof.
  intros H. pose proof (f_equal key_article_index H) as Hi.
  apply (f_equal key_item_index) in H.
  revert H Hi. read_key. split; congruence.
Qed.

(** ** Lists built by [enumerate] *)

Lemma elem_of_enumerate {A} (l : list A) i x :
  (i, x) ∈ enumerate l <-> l !! i = Some x.
Proof.
  unfold enumerate. rewrite elem_of_lookup_imap. split.
  - now intros (i' & x' & [= -> ->] & H).
  - intros H. eauto.
Qed.

Lemma enumerate_fst {A} (l : list A) :
  (enumerate l).*1 = seq 0 (length l).
Proof.
  unfold enumerate. rewrite fmap_imap.
  change (imap (fun (n : nat) => fst ∘ pair n) l)
    with (imap (fun (j : nat) (_ : A) => j) l).
  rewrite (imap_seq_0 l (fun j => j)). apply list_fmap_id.
Qed.

Lemma NoDup_enumerate {A} (l : list A) : NoDup (enumerate l).
Proof.
  apply (NoDup_fmap_1 fst). rewrite enumerate_fst. apply NoDup_seq.
Qed.

Lemma NoDup_omap_inj {A B} (f : A -> option B) (l : list A) :
  (forall x y b, x ∈ l -> y ∈ l -> f x = Some b -> f y = Some b -> x = y) ->
  NoDup l -> NoDup (omap f l).
Proof.
  intros Hinj Hl. induction Hl as [|x l Hx Hl IH]; cbn; [constructor|].
  assert (NoDup (omap f l)) as Hrest.
  { apply IH. intros y z b Hy Hz. apply Hinj; now right. }
  destruct (f x) as [b|] eqn:Hfx; [|exact Hrest].
  constructor; [|exact Hrest].
  intros (y & Hy & Hfy)%list_elem_of_omap.
  assert (x = y) as -> by (apply (Hinj x y b); [left|right| |]; done).
  contradiction.
Qed.

Lemma fmap_list_bind {A B C} (g : B -> C) (f : A -> list B) (l : list A) :
  g <$> (l ≫= f) = l ≫= (fun x => g <$> f x).
Proof.
  induction l as [|x l IH]; csimpl; [done|]. now rewrite fmap_app, IH.
Qed.

Lemma NoDup_enumerate_omap {A B} (f : nat * A -> option B) (l : list A) :
  (forall i i' x x' b, f (i, x) = Some b -> f (i', x') = Some b -> i = i') ->
  NoDup (omap f (enumerate l)).
Proof.
  intros Hinj. apply NoDup_omap_inj; [|apply NoDup_enumerate].
  intros [i x] [i' x'] b Hx Hx' Hb Hb'.
  assert (i = i') as <- by eauto.
  apply elem_of_enumerate in Hx, Hx'. congruence.
Qed.

(** ** The request batches *)

Section RequestBatches.
Import OpenAICalls.
Variables (model : string) (tc : string) (articles : list (gmap string json)).

Lemma direct_phase1_requests_spec cprompt r :
  r ∈ Direct.phase1_requests model cprompt articles tc <->
  exists i article text,
    articles !! i = Some article /\ article !! tc = Some text
    /\ r = build_batch_request (Direct.c_key i) (cprompt text) model (1 # 10)%Q.
Proof.
  unfold Direct.phase1_requests. rewrite list_elem_of_omap. split.
  - intros ([i article] & Hin%elem_of_enumerate & Hr).
    destruct (article !! tc) as [text|] eqn:Htext; [|discriminate].
    injection Hr as <-. eauto 6.
  - intros (i & article & text & Hi & Htext & ->).
    exists (i, article). split; [now apply elem_of_enumerate|].
    now rewrite Htext.
Qed.

Lemma qa_phase1_requests_spec qprompt r :
  r ∈ QA.phase1_requests model qprompt articles tc <->
  exists i article text,
    articles !! i = Some article /\ article !! tc = Some text
    /\ r = build_batch_request (QA.q_key i) (qprompt text) model (1 # 10)%Q.
Proof.
  unfold QA.phase1_requests. rewrite list_elem_of_omap. split.
  - intros ([i article] & Hin%elem_of_enumerate & Hr).
    destruct (article !! tc) as [text|] eqn:Htext; [|discriminate].
    injection Hr as <-. eauto 6.
  - intros (i & article & text & Hi & Htext & ->).
    exists (i, article). split; [now apply elem_of_enumerate|].
    now rewrite Htext.
Qed.

Lemma direct_phase2_requests_spec pprompt
    (conclusions_map : gmap string (list string)) r :
  r ∈ Direct.phase2_requests model pprompt articles conclusions_map tc <->
  exists i j article text c,
    articles !! i = Some article /\ article !! tc = Some text
    /\ default [] (conclusions_map !! Direct.c_key i) !! j = Some c
    /\ r = build_batch_request (Direct.p_key i j) (pprompt text c)
             model (1 # 10)%Q.
Proof.
  unfold Direct.phase2_requests. rewrite list_elem_of_bind. split.
  - intros ([i article] & Hr & Hin%elem_of_enumerate).
    destruct (article !! tc) as [text|] eqn:Htext;
      [|now apply not_elem_of_nil in Hr].
    apply elem_of_lookup_imap in Hr as (j & c & -> & Hc). eauto 10.
  - intros (i & j & article & text & c & Hi & Htext & Hc & ->).
    exists (i, article). split; [|now apply elem_of_enumerate].
    rewrite Htext. apply elem_of_lookup_imap. eauto.
Qed.

Lemma qa_phase2_requests_spec aprompt
    (questions_map : gmap string (list string)) r :
  r ∈ QA.phase2_requests model aprompt articles questions_map tc <->
  exists i j article text q,
    articles !! i = Some article /\ article !! tc = Some text
    /\ default [] (questions_map !! QA.q_key i) !! j = Some q
    /\ r = build_batch_request (QA.qa_key i j) (aprompt q text)
             model (1 # 10)%Q.
Proof.
  unfold QA.phase2_requests. rewrite list_elem_of_bind. split.
  - intros ([i article] & Hr & Hin%elem_of_enumerate).
    destruct (article !! tc) as [text|] eqn:Htext;
      [|now apply not_elem_of_nil in Hr].
    apply elem_of_lookup_imap in Hr as (j & c & -> & Hc). eauto 10.
  - intros (i & j & article & text & c & Hi & Htext & Hc & ->).
    exists (i, article). split; [|now apply elem_of_enumerate].
    rewrite Htext. apply elem_of_lookup_imap. eauto.
Qed.

Lemma qa_phase3_requests_spec gprompt
    (questions_map : gmap string (list string))
    (answers_map : gmap string string) r :
  r ∈ QA.phase3_requests model gprompt articles questions_map answers_map tc <->
  exists i j article q a,
    articles !! i = Some article /\ is_Some (article !! tc)
    /\ default [] (questions_map !! QA.q_key i) !! j = Some q
    /\ QA.truthy_answer answers_map (QA.qa_key i j) = Some a
    /\ r = build_batch_request (QA.arg_key i j) (gprompt q a)
             model (1 # 10)%Q.
Proof.
  unfold QA.phase3_requests. rewrite list_elem_of_bind. split.
  - intros ([i article] & Hr & Hin%elem_of_enumerate).
    destruct (article !! tc) as [text|] eqn:Htext;
      [|now apply not_elem_of_nil in Hr].
    apply list_elem_of_omap in Hr as ([j q] & Hq%elem_of_enumerate & Hr).
    destruct (QA.truthy_answer answers_map (QA.qa_key i j)) as [a|] eqn:Ha;
      [|discriminate].
    injection Hr as <-. exists i, j, article, q, a.
    rewrite Htext. eauto 10.
  - intros (i & j & article & q & a & Hi & [text Htext] & Hq & Ha & ->).
    exists (i, article). split; [|now apply elem_of_enumerate].
    rewrite Htext. apply list_elem_of_omap.
    exists (j, q). split; [now apply elem_of_enumerate|]. now rewrite Ha.
Qed.

Lemma direct_phase1_ids_NoDup cprompt :
  NoDup (custom_id <$> Direct.phase1_requests model cprompt articles tc).
Proof.
  unfold Direct.phase1_requests. rewrite list_fmap_omap.
  apply NoDup_enumerate_omap. intros i i' a a' k.
  destruct (a !! tc), (a' !! tc); cbn; try discriminate.
  intros H1 H2. apply c_key_inj. congruence.
Qed.

Lemma qa_phase1_ids_NoDup qprompt :
  NoDup (custom_id <$> QA.phase1_requests model qprompt articles tc).
Proof.
  unfold QA.phase1_requests. rewrite list_fmap_omap.
  apply NoDup_enumerate_omap. intros i i' a a' k.
  destruct (a !! tc), (a' !! tc); cbn; try discriminate.
  intros H1 H2. apply q_key_inj. congruence.
Qed.

End RequestBatches.

Section RequestBatchIds.
Import OpenAICalls.
Variables (model : string) (tc : string) (articles : list (gmap string json)).

Lemma NoDup_item_keys {A} (key : nat -> string) (l : list A) :
  (forall j j', key j = key j' -> j = j') ->
  NoDup (imap (fun j (_ : A) => key j) l).
Proof.
  intros Hinj. rewrite (imap_seq_0 l key).
  apply NoDup_fmap_2_strong; [|apply NoDup_seq]. intros j j' _ _. apply Hinj.
Qed.

Lemma direct_phase2_ids_NoDup pprompt
    (conclusions_map : gmap string (list string)) :
  NoDup (custom_id <$>
           Direct.phase2_requests model pprompt articles conclusions_map tc).
Proof.
  unfold Direct.phase2_requests. rewrite fmap_list_bind. apply NoDup_bind.
  - intros [i1 a1] [i2 a2] k H1%elem_of_enumerate H2%elem_of_enumerate Hk1 Hk2.
    destruct (a1 !! tc) as [t1|]; [|now apply not_elem_of_nil in Hk1].
    destruct (a2 !! tc) as [t2|]; [|now apply not_elem_of_nil in Hk2].
    apply list_elem_of_fmap in Hk1 as (r1 & -> & Hr1).
    apply list_elem_of_fmap in Hk2 as (r2 & Hk & Hr2).
    apply elem_of_lookup_imap in Hr1 as (j1 & c1 & -> & _).
    apply elem_of_lookup_imap in Hr2 as (j2 & c2 & -> & _).
    cbn in Hk. apply p_key_inj in Hk as [-> _]. congruence.
  - intros [i a] _. destruct (a !! tc) as [t|]; [|constructor].
    rewrite fmap_imap.
    apply (NoDup_item_keys (Direct.p_key i)).
    intros j j' H. now apply p_key_inj in H.
  - apply NoDup_enumerate.
Qed.

Lemma qa_phase2_ids_NoDup aprompt
    (questions_map : gmap string (list string)) :
  NoDup (custom_id <$>
           QA.phase2_requests model aprompt articles questions_map tc).
Proof.
  unfold QA.phase2_requests. rewrite fmap_list_bind. apply NoDup_bind.
  - intros [i1 a1] [i2 a2] k H1%elem_of_enumerate H2%elem_of_enumerate Hk1 Hk2.
    destruct (a1 !! tc) as [t1|]; [|now apply not_elem_of_nil in Hk1].
    destruct (a2 !! tc) as [t2|]; [|now apply not_elem_of_nil in Hk2].
    apply list_elem_of_fmap in Hk1 as (r1 & -> & Hr1).
    apply list_elem_of_fmap in Hk2 as (r2 & Hk & Hr2).
    apply elem_of_lookup_imap in Hr1 as (j1 & c1 & -> & _).
    apply elem_of_lookup_imap in Hr2 as (j2 & c2 & -> & _).
    cbn in Hk. apply qa_key_inj in Hk as [-> _]. congruence.
  - intros [i a] _. destruct (a !! tc) as [t|]; [|constructor].
    rewrite fmap_imap.
    apply (NoDup_item_keys (QA.qa_key i)).
    intros j j' H. now apply qa_key_inj in H.
  - apply NoDup_enumerate.
Qed.

Lemma qa_phase3_ids_NoDup gprompt
    (questions_map : gmap string (list string))
    (answers_map : gmap string string) :
  NoDup (custom_id <$>
           QA.phase3_requests model gprompt articles questions_map
             answers_map tc).
Proof.
  unfold QA.phase3_requests. rewrite fmap_list_bind. apply NoDup_bind.
  - intros [i1 a1] [i2 a2] k H1%elem_of_enumerate H2%elem_of_enumerate Hk1 Hk2.
    destruct (a1 !! tc) as [t1|]; [|now apply not_elem_of_nil in Hk1].
    destruct (a2 !! tc) as [t2|]; [|now apply not_elem_of_nil in Hk2].
    apply list_elem_of_fmap in Hk1 as (r1 & -> & Hr1).
    apply list_elem_of_fmap in Hk2 as (r2 & Hk & Hr2).
    apply list_elem_of_omap in Hr1 as ([j1 q1] & _ & Hr1).
    apply list_elem_of_omap in Hr2 as ([j2 q2] & _ & Hr2).
    destruct (QA.truthy_answer answers_map (QA.qa_key i1 j1)) as [w1|];
      [|discriminate].
    destruct (QA.truthy_answer answers_map (QA.qa_key i2 j2)) as [w2|];
      [|discriminate].
    injection Hr1 as <-. injection Hr2 as <-.
    cbn in Hk. apply arg_key_inj in Hk as [-> _]. congruence.
  - intros [i a] _. destruct (a !! tc) as [t|]; [|constructor].
    rewrite list_fmap_omap. apply NoDup_enumerate_omap.
    intros j j' q q' k.
    destruct (QA.truthy_answer answers_map (QA.qa_key i j)) as [w1|];
      [|discriminate].
    destruct (QA.truthy_answer answers_map (QA.qa_key i j')) as [w2|];
      [|discriminate].
    cbn. intros H1 H2.
    assert (QA.arg_key i j = QA.arg_key i j') as H by congruence.
    now apply arg_key_inj in H.
  - apply NoDup_enumerate.
Qed.

End RequestBatchIds.

Lemma direct_joiner_uses_index cfg results :
  Direct._combine_results cfg = Ok results ->
  exists cm pm,
    Direct._build_conclusions_map (Direct.phase1 cfg) = Ok cm
    /\ Direct._build_premises_map (Direct.phase2 cfg) = Ok pm
    /\ forall i article,
         Direct.articles cfg !! i = Some article ->
         exists r,
           results !! i = Some r
           /\ Direct.conclusions r = Some (default [] (cm !! Direct.c_key i))
           /\ Direct.arguments r =
              Some (imap (Direct.combine_conclusion pm i)
            (default [] (cm !! Direct.c_key i))).
Proof.
  intros (cm & pm & Hcm & Hpm & ->)%direct_combine_inv.
  exists cm, pm. split; [done|]. split; [done|].
  intros i article Hi. eexists. rewrite list_lookup_imap, Hi. cbn.
  split; [reflexivity|].
  destruct (direct_article_arguments cm pm (Direct.text_column cfg)
              (Direct.id_column cfg) i article) as [-> ->]. auto.
Qed.

Lemma qa_joiner_uses_index cfg results :
  QA._combine_results cfg = Ok results ->
  exists qm am gm,
    QA._build_questions_map (QA.phase1 cfg) = Ok qm
    /\ QA._build_answers_map (QA.phase2 cfg) = Ok am
    /\ QA._build_arguments_map (QA.phase3 cfg) = Ok gm
    /\ forall i article,
         QA.articles cfg !! i = Some article ->
         exists r,
           results !! i = Some r
           /\ QA.questions r = Some (default [] (qm !! QA.q_key i))
           /\ QA.arguments r =
              Some (omap (QA.combine_question am gm i)
            (enumerate (default [] (qm !! QA.q_key i)))).
Proof.
  intros (qm & am & gm & Hqm & Ham & Hgm & ->)%qa_combine_inv.
  exists qm, am, gm. split; [done|]. split; [done|]. split; [done|].
  intros i article Hi. eexists. rewrite list_lookup_imap, Hi. cbn.
  split; [reflexivity|].
  destruct (qa_article_arguments qm am gm (QA.text_column cfg)
              (QA.id_column cfg) i article) as [-> ->]. auto.
Qed.

(** C3.  The keys of phase 1 are [<tag>_i] and those of the later phases
    [<tag>_i_j]; read back, the article-index segment of a key generated for
    the article at index [i] is [i], in every phase of both variants.  Each
    request of a batch is built from the article whose index its key
    carries, the later phases look the items of article [i] up under the
    phase-1 key of the same [i], and no two requests of a batch share a
    key.  The joiner gives the article at index [i] what the maps hold
    under the keys of index [i], so it needs nothing but the index. *)
Theorem correlation_keys_carry_article_index :
  (forall i j,
     PyStr.split "_"%char (Direct.c_key i) = ["c"; PyStr.of_nat i]
     /\ PyStr.split "_"%char (Direct.p_key i j)
        = ["p"; PyStr.of_nat i; PyStr.of_nat j]
     /\ PyStr.split "_"%char (QA.q_key i) = ["q"; PyStr.of_nat i]
     /\ PyStr.split "_"%char (QA.qa_key i j)
        = ["qa"; PyStr.of_nat i; PyStr.of_nat j]
     /\ PyStr.split "_"%char (QA.arg_key i j)
        = ["arg"; PyStr.of_nat i; PyStr.of_nat j]
     /\ key_article_index (Direct.c_key i) = Some i
     /\ key_article_index (Direct.p_key i j) = Some i
     /\ key_article_index (QA.q_key i) = Some i
     /\ key_article_index (QA.qa_key i j) = Some i
     /\ key_article_index (QA.arg_key i j) = Some i
     /\ key_item_index (Direct.p_key i j) = Some j
     /\ key_item_index (QA.qa_key i j) = Some j
     /\ key_item_index (QA.arg_key i j) = Some j)
  /\ (forall model tc articles cprompt pprompt
             (cm : gmap string (list string)),
        (forall r,
           r ∈ Direct.phase1_requests model cprompt articles tc <->
           exists i article text,
             articles !! i = Some article /\ article !! tc = Some text
             /\ r = OpenAICalls.build_batch_request (Direct.c_key i)
                      (cprompt text) model (1 # 10)%Q)
        /\ (forall r,
              r ∈ Direct.phase2_requests model pprompt articles cm tc <->
              exists i j article text c,
                articles !! i = Some article /\ article !! tc = Some text
                /\ default [] (cm !! Direct.c_key i) !! j = Some c
                /\ r = OpenAICalls.build_batch_request (Direct.p_key i j)
                         (pprompt text c) model (1 # 10)%Q)
        /\ NoDup (OpenAICalls.custom_id <$>
                    Direct.phase1_requests model cprompt articles tc)
        /\ NoDup (OpenAICalls.custom_id <$>
                    Direct.phase2_requests model pprompt articles cm tc))
  /\ (forall model tc articles qprompt aprompt gprompt
             (qm : gmap string (list string)) (am : gmap string string),
        (forall r,
           r ∈ QA.phase1_requests model qprompt articles tc <->
           exists i article text,
             articles !! i = Some article /\ article !! tc = Some text
             /\ r = OpenAICalls.build_batch_request (QA.q_key i)
                      (qprompt text) model (1 # 10)%Q)
        /\ (forall r,
              r ∈ QA.phase2_requests model aprompt articles qm tc <->
              exists i j article text q,
                articles !! i = Some article /\ article !! tc = Some text
                /\ default [] (qm !! QA.q_key i) !! j = Some q
                /\ r = OpenAICalls.build_batch_request (QA.qa_key i j)
                         (aprompt q text) model (1 # 10)%Q)
        /\ (forall r,
              r ∈ QA.phase3_requests model gprompt articles qm am tc <->
              exists i j article q a,
                articles !! i = Some article /\ is_Some (article !! tc)
                /\ default [] (qm !! QA.q_key i) !! j = Some q
                /\ QA.truthy_answer am (QA.qa_key i j) = Some a
                /\ r = OpenAICalls.build_batch_request (QA.arg_key i j)
                         (gprompt q a) model (1 # 10)%Q)
        /\ NoDup (OpenAICalls.custom_id <$>
                    QA.phase1_requests model qprompt articles tc)
        /\ NoDup (OpenAICalls.custom_id <$>
                    QA.phase2_requests model aprompt articles qm tc)
        /\ NoDup (OpenAICalls.custom_id <$>
                    QA.phase3_requests model gprompt articles qm am tc))
  /\ (forall cfg results,
        Direct._combine_results cfg = Ok results ->
        exists cm pm,
          Direct._build_conclusions_map (Direct.phase1 cfg) = Ok cm
          /\ Direct._build_premises_map (Direct.phase2 cfg) = Ok pm
          /\ forall i article,
               Direct.articles cfg !! i = Some article ->
               exists r,
                 results !! i = Some r
                 /\ Direct.conclusions r
                    = Some (default [] (cm !! Direct.c_key i))
                 /\ Direct.arguments r =
                    Some (imap (Direct.combine_conclusion pm i)
            (default [] (cm !! Direct.c_key i))))
  /\ (forall cfg results,
        QA._combine_results cfg = Ok results ->
        exists qm am gm,
          QA._build_questions_map (QA.phase1 cfg) = Ok qm
          /\ QA._build_answers_map (QA.phase2 cfg) = Ok am
          /\ QA._build_arguments_map (QA.phase3 cfg) = Ok gm
          /\ forall i article,
               QA.articles cfg !! i = Some article ->
               exists r,
                 results !! i = Some r
                 /\ QA.questions r = Some (default [] (qm !! QA.q_key i))
                 /\ QA.arguments r =
                    Some (omap (QA.combine_question am gm i)
            (enumerate (default [] (qm !! QA.q_key i))))).
Proof.
  split; [|split; [|split; [|split]]].
  - intros i j.
    rewrite c_key_segments, p_key_segments, q_key_segments,
      qa_key_segments, arg_key_segments.
    destruct (key_indices i j) as (? & _ & ? & ? & ? & _ & ? & ? & ? & ?).
    repeat split; assumption.
  - intros model tc articles cprompt pprompt cm.
    split; [intros r; apply direct_phase1_requests_spec|].
    split; [intros r; apply direct_phase2_requests_spec|].
    split; [apply direct_phase1_ids_NoDup|apply direct_phase2_ids_NoDup].
  - intros model tc articles qprompt aprompt gprompt qm am.
    split; [intros r; apply qa_phase1_requests_spec|].
    split; [intros r; apply qa_phase2_requests_spec|].
    split; [intros r; apply qa_phase3_requests_spec|].
    split; [apply qa_phase1_ids_NoDup|].
    split; [apply qa_phase2_ids_NoDup|apply qa_phase3_ids_NoDup].
  - exact direct_joiner_uses_index.
  - exact qa_joiner_uses_index.
Qed.

(** The joiner on [Scenario.partial_direct] and on [Scenario.empty_qa]. *)
Lemma correlation_keys_carry_article_index_witness :
  (exists cm pm,
     Direct._build_conclusions_map (Direct.phase1 Scenario.partial_direct)
       = Ok cm
     /\ Direct._build_premises_map (Direct.phase2 Scenario.partial_direct)
        = Ok pm
     /\ forall i article,
          Direct.articles Scenario.partial_direct !! i = Some article ->
          exists r,
            Scenario.returned Scenario.direct_run !! i = Some r
            /\ Direct.conclusions r = Some (default [] (cm !! Direct.c_key i))
            /\ Direct.arguments r =
               Some (imap (Direct.combine_conclusion pm i)
            (default [] (cm !! Direct.c_key i))))
  /\ (exists qm am gm,
        QA._build_questions_map (QA.phase1 Scenario.empty_qa) = Ok qm
        /\ QA._build_answers_map (QA.phase2 Scenario.empty_qa) = Ok am
        /\ QA._build_arguments_map (QA.phase3 Scenario.empty_qa) = Ok gm
        /\ forall i article,
             QA.articles Scenario.empty_qa !! i = Some article ->
             exists r,
               Scenario.returned Scenario.qa_run !! i = Some r
               /\ QA.questions r = Some (default [] (qm !! QA.q_key i))
               /\ QA.arguments r =
                  Some (omap (QA.combine_question am gm i)
            (enumerate (default [] (qm !! QA.q_key i))))).
Proof.
  destruct correlation_keys_carry_article_index as (_ & _ & _ & Hd & Hq).
  split.
  - apply (Hd Scenario.partial_direct
             (Scenario.returned Scenario.direct_run)).
    vm_compute. reflexivity.
  - apply (Hq Scenario.empty_qa (Scenario.returned Scenario.qa_run)).
    vm_compute. reflexivity.
Defined.

(** ** What the maps hold *)

Lemma build_map_step_values {V} (parse : string -> V) (P : V -> Prop)
    acc record acc' :
  (forall content, PyStr.is_empty content = false -> P (parse content)) ->
  map_Forall (fun _ v => P v) acc ->
  Common.build_map_step parse acc record = Ok acc' ->
  map_Forall (fun _ v => P v) acc'.
Proof.
  intros HP Hacc. unfold Common.build_map_step.
  destruct (OpenAICalls.extract_batch_result record) as [content|];
    [|discriminate]. cbn.
  destruct (PyStr.is_empty content) eqn:Hempty; cbn; [now intros [= <-]|].
  destruct (Py.dict_get record "custom_id" (JStr "")); cbn;
    try discriminate; intros [= <-]; try exact Hacc.
  apply map_Forall_insert_2; auto.
Qed.

Lemma build_map_values {V} (parse : string -> V) (P : V -> Prop)
    results m key v :
  (forall content, PyStr.is_empty content = false -> P (parse content)) ->
  Common.build_map parse results = Ok m ->
  m !! key = Some v -> P v.
Proof.
  intros HP Hm Hv. unfold Common.build_map in Hm.
  assert (map_Forall (fun _ v => P v) m) as Hall; [|exact (Hall key v Hv)].
  revert Hm.
  assert (map_Forall (fun _ v => P v) (∅ : gmap string V)) as Hacc
    by apply map_Forall_empty.
  revert Hacc. generalize (∅ : gmap string V).
  induction results as [|record results IH]; intros acc Hacc; cbn.
  - now intros [= <-].
  - destruct (Common.build_map_step parse acc record) as [acc'|] eqn:Hstep;
      [|discriminate]. cbn.
    apply IH. eapply build_map_step_values; eauto.
Qed.

Lemma truthy_answer_Some am key a :
  QA.truthy_answer am key = Some a <-> am !! key = Some a /\ a <> "".
Proof.
  unfold QA.truthy_answer. destruct (am !! key) as [[|c s]|].
  - split; [discriminate|]. now intros [[= <-] H].
  - split.
    + intros [= <-]. split; [reflexivity|discriminate].
    + now intros [[= <-] _].
  - split; [discriminate|]. now intros [[=] _].
Qed.

Lemma answers_map_truthy phase2 am key :
  QA._build_answers_map phase2 = Ok am ->
  is_Some (QA.truthy_answer am key) <->
  exists record, record ∈ phase2 /\ has_content key record.
Proof.
  intros Ham. rewrite <- (build_map_dom _ _ _ key Ham). split.
  - intros [a (Ha & _)%truthy_answer_Some]. eauto.
  - intros [a Ha]. exists a. apply truthy_answer_Some. split; [done|].
    pose proof (build_map_values (fun content => content)
                  (fun v => PyStr.is_empty v = false) _ _ _ _
                  (fun c H => H) Ham Ha) as Hne.
    intros ->. discriminate.
Qed.

(** C5.  Take an article [i] that has the text column and one of its
    parsed questions, [j].  Phase 3 holds a request keyed [arg_i_j] exactly
    when the phase-2 result holds a record keyed [qa_i_j] with a non-empty
    completion text.  The joiner keeps every parsed question in
    [questions], and builds no argument for a question whose answer is
    absent.  In Scenario B (three questions, answers for the first and the
    third) the run submits requests for [arg_0_0] and [arg_0_2] only, and
    the result has three questions and exactly the two arguments of the
    first and the third. *)
Theorem phase3_request_iff_answer_present :
  (forall model tc articles gprompt phase2
          (qm : gmap string (list string)) am i j article q,
     QA._build_answers_map phase2 = Ok am ->
     articles !! i = Some article ->
     is_Some (article !! tc) ->
     default [] (qm !! QA.q_key i) !! j = Some q ->
     (exists r,
        r ∈ QA.phase3_requests model gprompt articles qm am tc
        /\ OpenAICalls.custom_id r = QA.arg_key i j)
     <-> (exists record,
            record ∈ phase2 /\ has_content (QA.qa_key i j) record))
  /\ (forall cfg results i article,
        QA._combine_results cfg = Ok results ->
        QA.articles cfg !! i = Some article ->
        exists qm am gm r,
          QA._build_questions_map (QA.phase1 cfg) = Ok qm
          /\ QA._build_answers_map (QA.phase2 cfg) = Ok am
          /\ QA._build_arguments_map (QA.phase3 cfg) = Ok gm
          /\ results !! i = Some r
          /\ QA.questions r = Some (default [] (qm !! QA.q_key i))
          /\ QA.arguments r =
             Some (omap (QA.combine_question am gm i)
                     (enumerate (default [] (qm !! QA.q_key i))))
          /\ forall j q,
               ~ (exists record,
                    record ∈ QA.phase2 cfg
                    /\ has_content (QA.qa_key i j) record) ->
               QA.combine_question am gm i (j, q) = None)
  /\ (exists w' r args,
        ScenarioB.run = (w', Returns [r])
        /\ ScenarioB.submitted_keys w'
           = [["q_0"]; ["qa_0_0"; "qa_0_1"; "qa_0_2"]; ["arg_0_0"; "arg_0_2"]]
        /\ QA.questions r = Some ["Why?"; "How?"; "When?"]
        /\ QA.arguments r = Some args
        /\ length args = 2
        /\ QA.question <$> args = ["Why?"; "When?"]).
Proof.
  split; [|split].
  - intros model tc articles gprompt phase2 qm am i j article q
      Ham Hi Htext Hq.
    rewrite <- (answers_map_truthy _ _ _ Ham). split.
    + intros (r & (i' & j' & article' & q' & a & _ & _ & _ & Ha & ->)
                %qa_phase3_requests_spec & Hid).
      cbn in Hid. apply arg_key_inj in Hid as [-> ->]. eauto.
    + intros [a Ha].
      exists (OpenAICalls.build_batch_request (QA.arg_key i j) (gprompt q a)
                model (1 # 10)%Q).
      split; [|reflexivity].
      apply qa_phase3_requests_spec. exists i, j, article, q, a. auto.
  - intros cfg results i article Hres Hi.
    destruct (qa_joiner_uses_index cfg results Hres)
      as (qm & am & gm & Hqm & Ham & Hgm & Hall).
    destruct (Hall i article Hi) as (r & Hr & Hqs & Hargs).
    exists qm, am, gm, r. repeat (split; [assumption|]).
    intros j q Hnone. unfold QA.combine_question.
    destruct (QA.truthy_answer am (QA.qa_key i j)) as [a|] eqn:Ha;
      [|reflexivity].
    exfalso. apply Hnone. apply (answers_map_truthy _ _ _ Ham).
    rewrite Ha. eauto.
  - eexists _, _, _. split; [vm_compute; reflexivity|].
    repeat split; vm_compute; reflexivity.
Qed.

(** Scenario B at question 1, whose answer is absent, at question 0, whose
    answer is present, and through the joiner. *)
Lemma phase3_request_iff_answer_present_witness :
  ((exists r,
      r ∈ QA.phase3_requests "gpt-4o-mini" Scenario.prompt3
            ScenarioB.one_article ScenarioB.questions_map
            ScenarioB.answers_map "text"
      /\ OpenAICalls.custom_id r = QA.arg_key 0 0)
   <-> (exists record,
          record ∈ ScenarioB.answers_output
          /\ has_content (QA.qa_key 0 0) record))
  /\ ((exists r,
      r ∈ QA.phase3_requests "gpt-4o-mini" Scenario.prompt3
            ScenarioB.one_article ScenarioB.questions_map
            ScenarioB.answers_map "text"
      /\ OpenAICalls.custom_id r = QA.arg_key 0 1)
   <-> (exists record,
          record ∈ ScenarioB.answers_output
          /\ has_content (QA.qa_key 0 1) record))
  /\ (exists qm am gm r,
        QA._build_questions_map (QA.phase1 ScenarioB.config) = Ok qm
        /\ QA._build_answers_map (QA.phase2 ScenarioB.config) = Ok am
        /\ QA._build_arguments_map (QA.phase3 ScenarioB.config) = Ok gm
        /\ Scenario.returned ScenarioB.run !! 0 = Some r
        /\ QA.questions r = Some (default [] (qm !! QA.q_key 0))
        /\ QA.arguments r =
           Some (omap (QA.combine_question am gm 0)
                   (enumerate (default [] (qm !! QA.q_key 0))))
        /\ forall j q,
             ~ (exists record,
                  record ∈ QA.phase2 ScenarioB.config
                  /\ has_content (QA.qa_key 0 j) record) ->
             QA.combine_question am gm 0 (j, q) = None).
Proof.
  destruct phase3_request_iff_answer_present as (Hreq & Hjoin & _).
  split; [|split].
  - apply (Hreq "gpt-4o-mini" "text" ScenarioB.one_article Scenario.prompt3
             ScenarioB.answers_output ScenarioB.questions_map
             ScenarioB.answers_map 0 0
             (Scenario.article "a1" "First text.") "Why?").
    + vm_compute. reflexivity.
    + reflexivity.
    + vm_compute. eauto.
    + vm_compute. reflexivity.
  - apply (Hreq "gpt-4o-mini" "text" ScenarioB.one_article Scenario.prompt3
             ScenarioB.answers_output ScenarioB.questions_map
             ScenarioB.answers_map 0 1
             (Scenario.article "a1" "First text.") "How?").
    + vm_compute. reflexivity.
    + reflexivity.
    + vm_compute. eauto.
    + vm_compute. reflexivity.
  - apply (Hjoin ScenarioB.config (Scenario.returned ScenarioB.run) 0
             (Scenario.article "a1" "First text.")).
    + vm_compute. reflexivity.
    + reflexivity.
Defined.

(** ** At most ten questions *)

Lemma parse_questions_at_most_10 text :
  length (QA._parse_questions text) <= 10.
Proof. unfold QA._parse_questions. rewrite length_take. lia. Qed.

Lemma omap_length_le {A B} (f : A -> option B) (l : list A) :
  length (omap f l) <= length l.
Proof.
  induction l as [|x l IH]; cbn; [lia|]. destruct (f x); cbn; lia.
Qed.

Lemma length_enumerate {A} (l : list A) : length (enumerate l) = length l.
Proof. apply length_imap. Qed.

Lemma questions_map_at_most_10 phase1 qm key :
  QA._build_questions_map phase1 = Ok qm ->
  length (default [] (qm !! key)) <= 10.
Proof.
  intros Hqm. destruct (qm !! key) as [qs|] eqn:Hkey; cbn; [|lia].
  apply (build_map_values QA._parse_questions (fun v => length v <= 10)
           _ _ _ _ (fun c _ => parse_questions_at_most_10 c) Hqm Hkey).
Qed.

Lemma qa_combine_at_most_10 cfg results r :
  QA._combine_results cfg = Ok results ->
  r ∈ results ->
  exists qs args,
    QA.questions r = Some qs /\ QA.arguments r = Some args
    /\ length qs <= 10 /\ length args <= 10.
Proof.
  intros Hres Hr.
  apply list_elem_of_lookup in Hr as [i Hi].
  destruct (qa_combine_one_per_article cfg results Hres) as [Hlen _].
  destruct (lookup_lt_is_Some_2 (QA.articles cfg) i) as [article Ha].
  { rewrite <- Hlen. eapply lookup_lt_Some, Hi. }
  destruct (qa_joiner_uses_index cfg results Hres)
    as (qm & am & gm & Hqm & _ & _ & Hall).
  destruct (Hall i article Ha) as (r' & Hr' & Hqs & Hargs).
  assert (r' = r) as -> by congruence.
  eexists _, _. split; [exact Hqs|]. split; [exact Hargs|].
  pose proof (questions_map_at_most_10 _ _ (QA.q_key i) Hqm) as Hle.
  split; [exact Hle|].
  etransitivity; [apply omap_length_le|]. now rewrite length_enumerate.
Qed.

Lemma extract_questions_at_most_10 {W} (client : OpenAICalls.Service W)
    model qprompt text w w' found :
  QA.extract_questions client model qprompt text w = (w', Returns found) ->
  length found <= 10.
Proof.
  unfold QA.extract_questions. intros H.
  apply bind_inv_returns in H as (w1 & response & _ & H).
  injection H as _ <-. apply parse_questions_at_most_10.
Qed.

Lemma qa_process_single_at_most_10 {W} (client : OpenAICalls.Service W)
    model qprompt aprompt gprompt text id w w' r :
  QA.process_single client model qprompt aprompt gprompt text id w
    = (w', Returns r) ->
  (forall qs, QA.questions r = Some qs -> length qs <= 10)
  /\ (forall args, QA.arguments r = Some args -> length args <= 10).
Proof.
  unfold QA.process_single.
  destruct (QA.extract_questions client model qprompt text w)
    as [w1 [found|e|]] eqn:Hfound; [| |discriminate].
  - apply extract_questions_at_most_10 in Hfound.
    destruct (QA._process_questions client model aprompt gprompt found text w1)
      as [w2 [args|e|]] eqn:Hargs; [| |discriminate].
    + apply for_each_length in Hargs. intros [= _ <-]. cbn.
      split; intros ? [= <-]; lia.
    + destruct (QA.handled e); [|discriminate]. intros [= _ <-]. cbn.
      split; [intros ? [= <-]; lia|discriminate].
  - destruct (QA.handled e); [|discriminate]. intros [= _ <-]. cbn.
    split; discriminate.
Qed.

(** C10.  [_parse_questions] returns at most ten questions, whatever the
    response text.  So the [questions] and the [arguments] of a result have
    at most ten entries each: in every record the joiner builds, in every
    record a batch run returns, and in the record a single-article run
    returns (where either list may be unset after an error). *)
Theorem at_most_ten_questions_and_arguments :
  (forall text, length (QA._parse_questions text) <= 10)
  /\ (forall cfg results r,
        QA._combine_results cfg = Ok results ->
        r ∈ results ->
        exists qs args,
          QA.questions r = Some qs /\ QA.arguments r = Some args
          /\ length qs <= 10 /\ length args <= 10)
  /\ (forall W (client : OpenAICalls.Service W) model qprompt aprompt gprompt
             fuel articles tc ic w w' results r,
        QA.process_batch client model qprompt aprompt gprompt
          fuel articles tc ic w = (w', Returns results) ->
        r ∈ results ->
        exists qs args,
          QA.questions r = Some qs /\ QA.arguments r = Some args
          /\ length qs <= 10 /\ length args <= 10)
  /\ (forall W (client : OpenAICalls.Service W) model qprompt aprompt gprompt
             text id w w' r,
        QA.process_single client model qprompt aprompt gprompt text id w
          = (w', Returns r) ->
        (forall qs, QA.questions r = Some qs -> length qs <= 10)
        /\ (forall args, QA.arguments r = Some args -> length args <= 10)).
Proof.
  split; [exact parse_questions_at_most_10|].
  split; [exact qa_combine_at_most_10|].
  split.
  - intros W client model qprompt aprompt gprompt fuel articles tc ic
      w w' results r Hrun Hr.
    apply qa_process_batch_inv in Hrun as (p1 & p2 & p3 & Hres).
    exact (qa_combine_at_most_10 _ _ _ Hres Hr).
  - intros W client model qprompt aprompt gprompt text id w w' r.
    apply qa_process_single_at_most_10.
Qed.

(** Twelve questions in the response: ten are kept, in the joiner, in a
    batch run and in a single-article run. *)
Lemma at_most_ten_questions_and_arguments_witness :
  length (QA._parse_questions ScenarioTwelve.twelve_questions) = 10
  /\ (forall r,
        r ∈ Scenario.returned ScenarioTwelve.batch_run ->
        exists qs args,
          QA.questions r = Some qs /\ QA.arguments r = Some args
          /\ length qs <= 10 /\ length args <= 10)
  /\ ((forall qs,
         QA.questions ScenarioTwelve.single_result = Some qs ->
         length qs <= 10)
      /\ (forall args,
            QA.arguments ScenarioTwelve.single_result = Some args ->
            length args <= 10))
  /\ (length <$> QA.questions ScenarioTwelve.single_result = Some 10
      /\ length <$> QA.arguments ScenarioTwelve.single_result = Some 10).
Proof.
  destruct at_most_ten_questions_and_arguments
    as (_ & Hjoin & Hbatch & Hsingle).
  split; [vm_compute; reflexivity|].
  split; [|split].
  - intros r.
    apply (Hbatch _ Scenario.service "gpt-4o-mini" Scenario.prompt1
             Scenario.prompt2' Scenario.prompt3 0
             (QA.articles ScenarioTwelve.config) "text" (Some "id")
             {| Scenario.chat_script := [];
                Scenario.job_outputs :=
                  [QA.phase1 ScenarioTwelve.config;
                   QA.phase2 ScenarioTwelve.config;
                   QA.phase3 ScenarioTwelve.config];
                Scenario.submitted := [] |}
             ScenarioTwelve.batch_run.1).
    vm_compute. reflexivity.
  - apply (Hsingle _ Scenario.service "gpt-4o-mini" Scenario.prompt1
             Scenario.prompt2' Scenario.prompt3 "First text." (JStr "a1")
             ScenarioTwelve.single_start ScenarioTwelve.single_run.1).
    vm_compute. reflexivity.
  - split; vm_compute; reflexivity.
Defined.

(** ** Records without content *)

Lemma for_fold_app {A B} (f : B -> A -> res B) acc l1 l2 :
  for_fold f acc (l1 ++ l2)
  = rbind (for_fold f acc l1) (fun acc' => for_fold f acc' l2).
Proof.
  revert acc. induction l1 as [|x l1 IH]; intros acc; cbn; [done|].
  destruct (f acc x); cbn; auto.
Qed.

Lemma build_map_skips_empty {V} (parse : string -> V) l1 record l2 :
  OpenAICalls.extract_batch_result record = Ok "" ->
  Common.build_map parse (l1 ++ record :: l2)
  = Common.build_map parse (l1 ++ l2).
Proof.
  intros Hempty. unfold Common.build_map. rewrite !for_fold_app.
  destruct (for_fold _ ∅ l1) as [acc|]; cbn; [|done].
  unfold Common.build_map_step at 1. now rewrite Hempty.
Qed.

(** C7, against the claim as stated.  One record came back for [c_0], with
    no response in it.  The map built from the phase result has no entry
    for [c_0]: it is the map built from an empty phase result, and the
    joiner returns the same records in both cases. *)
Lemma record_without_content_is_omitted :
  OpenAICalls.extract_batch_result (Scenario.failed "c_0") = Ok ""
  /\ (exists m,
        Direct._build_conclusions_map [Scenario.failed "c_0"] = Ok m
        /\ m !! "c_0" = None
        /\ Direct._build_conclusions_map [] = Ok m)
  /\ Direct._combine_results
       {| Direct.articles := [Scenario.article "a1" "First text."];
          Direct.phase1 := [Scenario.failed "c_0"];
          Direct.phase2 := [];
          Direct.text_column := "text"; Direct.id_column := Some "id" |}
     = Direct._combine_results
         {| Direct.articles := [Scenario.article "a1" "First text."];
            Direct.phase1 := [];
            Direct.phase2 := [];
            Direct.text_column := "text"; Direct.id_column := Some "id" |}.
Proof.
  split; [vm_compute; reflexivity|]. split.
  - exists ∅. repeat split; vm_compute; reflexivity.
  - vm_compute. reflexivity.
Qed.

(** C7, amended.  The map a phase builds from its result records has an
    entry for a key exactly when some record carries that key with a
    non-empty completion text.  A record whose completion text is empty
    (no response, a response of another shape, or only white space) is
    omitted: the map is the one built without the record, and so is what
    the joiner returns.  The joiner therefore treats a key that ran and
    produced nothing as a key that is missing. *)
Theorem record_without_content_is_omitted_from_map :
  (forall V (parse : string -> V) results m key,
     Common.build_map parse results = Ok m ->
     is_Some (m !! key) <->
     exists record, record ∈ results /\ has_content key record)
  /\ (forall V (parse : string -> V) l1 record l2,
        OpenAICalls.extract_batch_result record = Ok "" ->
        Common.build_map parse (l1 ++ record :: l2)
        = Common.build_map parse (l1 ++ l2))
  /\ (forall articles l1 record l2 phase2 tc ic,
        OpenAICalls.extract_batch_result record = Ok "" ->
        Direct._combine_results
          {| Direct.articles := articles;
             Direct.phase1 := l1 ++ record :: l2;
             Direct.phase2 := phase2;
             Direct.text_column := tc; Direct.id_column := ic |}
        = Direct._combine_results
            {| Direct.articles := articles;
               Direct.phase1 := l1 ++ l2;
               Direct.phase2 := phase2;
               Direct.text_column := tc; Direct.id_column := ic |})
  /\ (forall articles l1 record l2 phase2 phase3 tc ic,
        OpenAICalls.extract_batch_result record = Ok "" ->
        QA._combine_results
          {| QA.articles := articles;
             QA.phase1 := l1 ++ record :: l2;
             QA.phase2 := phase2; QA.phase3 := phase3;
             QA.text_column := tc; QA.id_column := ic |}
        = QA._combine_results
            {| QA.articles := articles;
               QA.phase1 := l1 ++ l2;
               QA.phase2 := phase2; QA.phase3 := phase3;
               QA.text_column := tc; QA.id_column := ic |}).
Proof.
  split; [intros V parse results m key; apply build_map_dom|].
  split; [intros V parse; apply build_map_skips_empty|].
  split.
  - intros articles l1 record l2 phase2 tc ic Hempty.
    unfold Direct._combine_results, Direct._build_conclusions_map.
    cbn [Direct.phase1 Direct.phase2 Direct.articles Direct.text_column
         Direct.id_column].
    now rewrite (build_map_skips_empty _ _ _ _ Hempty).
  - intros articles l1 record l2 phase2 phase3 tc ic Hempty.
    unfold QA._combine_results, QA._build_questions_map.
    cbn [QA.phase1 QA.phase2 QA.phase3 QA.articles QA.text_column
         QA.id_column].
    now rewrite (build_map_skips_empty _ _ _ _ Hempty).
Qed.

(** The record of [c_2] in [Scenario.partial_direct] has no response. *)
Lemma record_without_content_is_omitted_from_map_witness :
  (is_Some (ScenarioB.answers_map !! "qa_0_1") <->
   exists record,
     record ∈ ScenarioB.answers_output /\ has_content "qa_0_1" record)
  /\ Common.build_map Direct._parse_list_items
       ([Scenario.completed "c_0" "1. Taxes fell."]
          ++ Scenario.failed "c_2" :: [])
     = Common.build_map Direct._parse_list_items
         ([Scenario.completed "c_0" "1. Taxes fell."] ++ [])
  /\ Direct._combine_results
       {| Direct.articles := Scenario.three_articles;
          Direct.phase1 :=
            [Scenario.completed "c_0" "1. Taxes fell."]
              ++ Scenario.failed "c_2" :: [];
          Direct.phase2 := [];
          Direct.text_column := "text"; Direct.id_column := Some "id" |}
     = Direct._combine_results
         {| Direct.articles := Scenario.three_articles;
            Direct.phase1 := [Scenario.completed "c_0" "1. Taxes fell."] ++ [];
            Direct.phase2 := [];
            Direct.text_column := "text"; Direct.id_column := Some "id" |}
  /\ QA._combine_results
       {| QA.articles := Scenario.three_articles;
          QA.phase1 := [] ++ Scenario.completed "q_1" "   " :: [];
          QA.phase2 := []; QA.phase3 := [];
          QA.text_column := "text"; QA.id_column := Some "id" |}
     = QA._combine_results
         {| QA.articles := Scenario.three_articles;
            QA.phase1 := [] ++ [];
            QA.phase2 := []; QA.phase3 := [];
            QA.text_column := "text"; QA.id_column := Some "id" |}.
Proof.
  destruct record_without_content_is_omitted_from_map
    as (Hdom & Hskip & Hdirect & Hqa).
  split; [|split; [|split]].
  - apply (Hdom _ (fun content => content) ScenarioB.answers_output).
    vm_compute. reflexivity.
  - apply Hskip. vm_compute. reflexivity.
  - apply Hdirect. vm_compute. reflexivity.
  - apply Hqa. vm_compute. reflexivity.
Defined.

(** ** Empty request batches *)

(** C4, against the claim as stated.  Given an empty request list, the
    runner uploads the empty batch and returns the job the service created;
    and phase 1 over an empty article list submits that empty batch. *)
Lemma send_batch_submits_empty_request_list :
  OpenAICalls.send_batch Scenario.service [] Scenario.idle
  = ({| Scenario.chat_script := []; Scenario.job_outputs := [];
        Scenario.submitted := [[]] |},
     Returns {| OpenAICalls.job_id := "batch-1";
                OpenAICalls.status := "validating";
                OpenAICalls.input_file_id := "file-in";
                OpenAICalls.output_file_id := None;
                OpenAICalls.error_file_id := None |})
  /\ Direct._batch_phase1 Scenario.service "gpt-4o-mini" Scenario.prompt1 0
       [] "text" Scenario.idle
     = ({| Scenario.chat_script := []; Scenario.job_outputs := [];
           Scenario.submitted := [[]] |},
        Returns []).
Proof. split; vm_compute; reflexivity. Qed.

Section EmptyBatches.
Import OpenAICalls.
Context {W : Type} (client : Service W).

Lemma send_batch_ok requests w w1 file_id w2 b :
  files_create client requests w = (w1, Ok file_id) ->
  batches_create client file_id w1 = (w2, Ok b) ->
  send_batch client requests w
  = (w2, Returns {| job_id := OpenAICalls.batch_id b;
                    status := batch_status b;
                    input_file_id := file_id;
                    output_file_id := batch_output_file_id b;
                    error_file_id := batch_error_file_id b |}).
Proof.
  intros Hup Hcreate. unfold send_batch.
  rewrite (bind_returns _ _ _ _ _ (perform_ok _ _ _ _ Hup)).
  now rewrite (bind_returns _ _ _ _ _ (perform_ok _ _ _ _ Hcreate)).
Qed.

Lemma send_batch_upload_fails requests w w1 e :
  files_create client requests w = (w1, Err e) ->
  send_batch client requests w = (w1, Raises e).
Proof.
  intros Hup. unfold send_batch.
  now rewrite (bind_raises _ _ _ _ _ (perform_err _ _ _ _ Hup)).
Qed.

Lemma send_batch_create_fails requests w w1 file_id w2 e :
  files_create client requests w = (w1, Ok file_id) ->
  batches_create client file_id w1 = (w2, Err e) ->
  send_batch client requests w = (w2, Raises e).
Proof.
  intros Hup Hcreate. unfold send_batch.
  rewrite (bind_returns _ _ _ _ _ (perform_ok _ _ _ _ Hup)).
  now rewrite (bind_raises _ _ _ _ _ (perform_err _ _ _ _ Hcreate)).
Qed.

End EmptyBatches.

(** C4, amended.  The runner makes no check of its own on the request
    list.  Given an empty list it uploads the empty batch and asks for a
    job: when the service accepts both, the runner returns that job; when
    the service raises, that exception is the only one the runner raises.
    The later phases (phase 2 of both variants, phase 3 of the
    question-answer variant) special-case zero requests: they return the
    empty result list and leave the world as it was, so no job is
    submitted. *)
Theorem later_phases_skip_empty_batches :
  (forall W (client : OpenAICalls.Service W) w w1 file_id w2 b,
     OpenAICalls.files_create client [] w = (w1, Ok file_id) ->
     OpenAICalls.batches_create client file_id w1 = (w2, Ok b) ->
     OpenAICalls.send_batch client [] w
     = (w2, Returns {| OpenAICalls.job_id := OpenAICalls.batch_id b;
                       OpenAICalls.status := OpenAICalls.batch_status b;
                       OpenAICalls.input_file_id := file_id;
                       OpenAICalls.output_file_id :=
                         OpenAICalls.batch_output_file_id b;
                       OpenAICalls.error_file_id :=
                         OpenAICalls.batch_error_file_id b |}))
  /\ (forall W (client : OpenAICalls.Service W) w w' e,
        OpenAICalls.send_batch client [] w = (w', Raises e) ->
        (exists w0, OpenAICalls.files_create client [] w0 = (w', Err e))
        \/ (exists w0 file_id,
              OpenAICalls.batches_create client file_id w0 = (w', Err e)))
  /\ (forall W (client : OpenAICalls.Service W) model pprompt fuel
             articles phase1 tc cm w,
        Direct._build_conclusions_map phase1 = Ok cm ->
        Direct.phase2_requests model pprompt articles cm tc = [] ->
        Direct._batch_phase2 client model pprompt fuel articles phase1 tc w
        = (w, Returns []))
  /\ (forall W (client : OpenAICalls.Service W) model aprompt fuel
             articles phase1 tc qm w,
        QA._build_questions_map phase1 = Ok qm ->
        QA.phase2_requests model aprompt articles qm tc = [] ->
        QA._batch_phase2 client model aprompt fuel articles phase1 tc w
        = (w, Returns []))
  /\ (forall W (client : OpenAICalls.Service W) model gprompt fuel
             articles phase1 phase2 tc qm am w,
        QA._build_questions_map phase1 = Ok qm ->
        QA._build_answers_map phase2 = Ok am ->
        QA.phase3_requests model gprompt articles qm am tc = [] ->
        QA._batch_phase3 client model gprompt fuel articles phase1 phase2 tc w
        = (w, Returns [])).
Proof.
  split; [intros W client; apply send_batch_ok|].
  split.
  { intros W client w w' e. unfold OpenAICalls.send_batch, bind, perform.
    destruct (OpenAICalls.files_create client [] w)
      as [w1 [file_id|e1]] eqn:Hup.
    - destruct (OpenAICalls.batches_create client file_id w1)
        as [w2 [b|e2]] eqn:Hcreate; [discriminate|].
      intros [= <- <-]. right. eauto.
    - intros [= <- <-]. left. eauto. }
  split; [|split].
  - intros W client model pprompt fuel articles phase1 tc cm w Hcm Hnone.
    unfold Direct._batch_phase2. rewrite Hcm. cbn.
    unfold bind, ret. cbn. now rewrite Hnone.
  - intros W client model aprompt fuel articles phase1 tc qm w Hqm Hnone.
    unfold QA._batch_phase2. rewrite Hqm. cbn.
    unfold bind, ret. cbn. now rewrite Hnone.
  - intros W client model gprompt fuel articles phase1 phase2 tc qm am w
      Hqm Ham Hnone.
    unfold QA._batch_phase3. rewrite Hqm, Ham. cbn.
    unfold bind, ret. cbn. now rewrite Hnone.
Qed.

(** The scripted service accepts the empty batch; phase 2 and phase 3 over
    phase results with no item submit nothing. *)
Lemma later_phases_skip_empty_batches_witness :
  OpenAICalls.send_batch Scenario.service [] Scenario.idle
  = ({| Scenario.chat_script := []; Scenario.job_outputs := [];
        Scenario.submitted := [[]] |},
     Returns {| OpenAICalls.job_id := "batch-1";
                OpenAICalls.status := "validating";
                OpenAICalls.input_file_id := "file-in";
                OpenAICalls.output_file_id := None;
                OpenAICalls.error_file_id := None |})
  /\ Direct._batch_phase2 Scenario.service "gpt-4o-mini" Scenario.prompt2 0
       Scenario.three_articles [Scenario.failed "c_0"] "text" Scenario.idle
     = (Scenario.idle, Returns [])
  /\ QA._batch_phase2 Scenario.service "gpt-4o-mini" Scenario.prompt2' 0
       Scenario.three_articles [] "text" Scenario.idle
     = (Scenario.idle, Returns [])
  /\ QA._batch_phase3 Scenario.service "gpt-4o-mini" Scenario.prompt3 0
       ScenarioB.one_article ScenarioB.questions_output [] "text"
       Scenario.idle
     = (Scenario.idle, Returns []).
Proof.
  destruct later_phases_skip_empty_batches as (Hsend & _ & Hd2 & Hq2 & Hq3).
  split; [|split; [|split]].
  - apply (Hsend _ Scenario.service Scenario.idle
             {| Scenario.chat_script := []; Scenario.job_outputs := [];
                Scenario.submitted := [[]] |}
             "file-in"
             {| Scenario.chat_script := []; Scenario.job_outputs := [];
                Scenario.submitted := [[]] |}
             {| OpenAICalls.batch_id := "batch-1";
                OpenAICalls.batch_status := "validating";
                OpenAICalls.batch_input_file_id := "file-in";
                OpenAICalls.batch_output_file_id := None;
                OpenAICalls.batch_error_file_id := None |});
      reflexivity.
  - apply (Hd2 _ Scenario.service "gpt-4o-mini" Scenario.prompt2 0
             Scenario.three_articles [Scenario.failed "c_0"] "text" ∅);
      vm_compute; reflexivity.
  - apply (Hq2 _ Scenario.service "gpt-4o-mini" Scenario.prompt2' 0
             Scenario.three_articles [] "text" ∅);
      vm_compute; reflexivity.
  - apply (Hq3 _ Scenario.service "gpt-4o-mini" Scenario.prompt3 0
             ScenarioB.one_article ScenarioB.questions_output [] "text"
             ScenarioB.questions_map ∅);
      vm_compute; reflexivity.
Defined.

(** ** The success flag in batch mode

    In the records the joiner builds, [success] is set exactly when
    [arguments] is not empty, and [error_message] is set exactly when
    [success] is not. *)

Lemma direct_batch_success_invariant cfg results r :
  Direct._combine_results cfg = Ok results ->
  r ∈ results ->
  exists args,
    Direct.arguments r = Some args
    /\ (Direct.success r = true <-> args <> [])
    /\ (is_Some (Direct.error_message r) <-> Direct.success r = false).
Proof.
  intros (cm & pm & _ & _ & ->)%direct_combine_inv
         (i & article & -> & _)%elem_of_lookup_imap.
  destruct (direct_article_arguments cm pm (Direct.text_column cfg)
              (Direct.id_column cfg) i article) as [Hargs _].
  eexists. split; [exact Hargs|].
  destruct (direct_article_success _ _ _ _ _ _ _ Hargs) as [-> ->].
  destruct (imap _ _) as [|a l]; cbn.
  - split; split; try done; eauto.
  - rewrite bool_decide_eq_true_2 by lia.
    split; split; try done; try (now intros [? [=]]).
Qed.

Lemma qa_batch_success_invariant cfg results r :
  QA._combine_results cfg = Ok results ->
  r ∈ results ->
  exists args,
    QA.arguments r = Some args
    /\ (QA.success r = true <-> args <> [])
    /\ (is_Some (QA.error_message r) <-> QA.success r = false).
Proof.
  intros (qm & am & gm & _ & _ & _ & ->)%qa_combine_inv
         (i & article & -> & _)%elem_of_lookup_imap.
  destruct (qa_article_arguments qm am gm (QA.text_column cfg)
              (QA.id_column cfg) i article) as [Hargs _].
  eexists. split; [exact Hargs|].
  destruct (qa_article_success _ _ _ _ _ _ _ _ Hargs) as [-> ->].
  destruct (omap _ _) as [|a l]; cbn.
  - split; split; try done; eauto.
  - rewrite bool_decide_eq_true_2 by lia.
    split; split; try done; try (now intros [? [=]]).
Qed.

(** * Further properties of the code *)

(** ** Stripping *)

Lemma string_app_nil_l s : "" +:+ s = s.
Proof. reflexivity. Qed.

Lemma string_app_cons c a s : String c a +:+ s = String c (a +:+ s).
Proof. reflexivity. Qed.

Lemma rstrip_idempotent p s :
  PyStr.rstrip_with p (PyStr.rstrip_with p s) = PyStr.rstrip_with p s.
Proof.
  induction s as [|c s IH]; cbn; [done|].
  destruct (PyStr.is_empty (PyStr.rstrip_with p s) && p c) eqn:E; cbn; [done|].
  now rewrite IH, E.
Qed.

Lemma lstrip_head p s :
  match PyStr.lstrip_with p s with
  | EmptyString => True
  | String c _ => p c = false
  end.
Proof.
  induction s as [|c s IH]; cbn; [done|].
  destruct (p c) eqn:E; [exact IH|]. exact E.
Qed.

Lemma lstrip_fixed p s :
  match s with EmptyString => True | String c _ => p c = false end ->
  PyStr.lstrip_with p s = s.
Proof. destruct s as [|c s]; cbn; [done|]. now intros ->. Qed.

Lemma rstrip_keeps_head p s :
  match s with EmptyString => True | String c _ => p c = false end ->
  match PyStr.rstrip_with p s with
  | EmptyString => True
  | String c _ => p c = false
  end.
Proof.
  destruct s as [|c s]; cbn; [done|]. intros E. rewrite E, andb_false_r.
  exact E.
Qed.

Lemma strip_idempotent s : PyStr.strip (PyStr.strip s) = PyStr.strip s.
Proof.
  unfold PyStr.strip.
  rewrite (lstrip_fixed _ (PyStr.rstrip_with _ _)).
  - apply rstrip_idempotent.
  - apply rstrip_keeps_head, lstrip_head.
Qed.

Lemma length_lstrip_le p s :
  String.length (PyStr.lstrip_with p s) <= String.length s.
Proof.
  induction s as [|c s IH]; cbn; [lia|]. destruct (p c); cbn; lia.
Qed.

Lemma length_rstrip_le p s :
  String.length (PyStr.rstrip_with p s) <= String.length s.
Proof.
  induction s as [|c s IH]; cbn; [lia|].
  destruct (PyStr.is_empty _ && p c); cbn; lia.
Qed.

Lemma lstrip_fixed_or_shorter p s :
  PyStr.lstrip_with p s = s
  \/ String.length (PyStr.lstrip_with p s) < String.length s.
Proof.
  destruct s as [|c s]; cbn; [auto|]. destruct (p c); [|auto].
  right. pose proof (length_lstrip_le p s). lia.
Qed.

Lemma strip_fixed_parts s :
  PyStr.strip s = s ->
  PyStr.lstrip_with PyStr.isspace s = s
  /\ PyStr.rstrip_with PyStr.isspace s = s.
Proof.
  unfold PyStr.strip. intros H.
  destruct (lstrip_fixed_or_shorter PyStr.isspace s) as [Hl|Hl].
  - rewrite Hl in H. auto.
  - pose proof (length_rstrip_le PyStr.isspace
                  (PyStr.lstrip_with PyStr.isspace s)).
    rewrite H in *. lia.
Qed.

Lemma rstrip_app p a b :
  PyStr.rstrip_with p b = b -> PyStr.is_empty b = false ->
  PyStr.rstrip_with p (a +:+ b) = a +:+ b.
Proof.
  intros Hb Hne. induction a as [|c a IH].
  - now rewrite string_app_nil_l.
  - rewrite string_app_cons. cbn. rewrite IH.
    destruct (a +:+ b) eqn:E; cbn; [|done].
    destruct a; [rewrite string_app_nil_l in E; subst b; discriminate|].
    rewrite string_app_cons in E. discriminate.
Qed.

(** ** The list parsers *)

Lemma foldl_append_omap {A B} (f : A -> option B) (l : list A) (acc : list B) :
  foldl (fun items x =>
           match f x with Some y => items ++ [y] | None => items end)
        acc l
  = acc ++ omap f l.
Proof.
  revert acc. induction l as [|x l IH]; intros acc; cbn.
  - now rewrite app_nil_r.
  - rewrite IH. destruct (f x); cbn; [|done]. now rewrite <- app_assoc.
Qed.

Lemma foldl_pointwise {A B} (f g : B -> A -> B) (l : list A) (b : B) :
  (forall b a, f b a = g b a) -> foldl f b l = foldl g b l.
Proof.
  intros H. revert b. induction l as [|x l IH]; intros b; cbn; [done|].
  now rewrite H, IH.
Qed.

Lemma parse_list_items_omap text :
  Direct._parse_list_items text
  = omap item_of_line (PyStr.split "010"%char text).
Proof.
  unfold Direct._parse_list_items.
  rewrite <- (app_nil_l (omap _ _)), <- foldl_append_omap.
  apply foldl_pointwise. intros items raw. unfold item_of_line.
  now destruct (PyStr.is_empty (PyStr.strip raw)).
Qed.

Lemma parse_questions_omap text :
  QA._parse_questions text
  = take 10 (omap item_of_line (PyStr.split "010"%char text)).
Proof.
  unfold QA._parse_questions. f_equal.
  rewrite <- (app_nil_l (omap _ _)), <- foldl_append_omap.
  apply foldl_pointwise. intros items raw. unfold item_of_line.
  now destruct (PyStr.is_empty (PyStr.strip raw)).
Qed.

Lemma list_item_stripped cleaned item :
  Common.list_item cleaned = Some item ->
  PyStr.is_empty item = false /\ PyStr.strip item = item.
Proof.
  unfold Common.list_item.
  destruct (PyStr.head_isdigit cleaned || PyStr.startswith "-" cleaned);
    [|discriminate].
  destruct (PyStr.is_empty _) eqn:E; [discriminate|].
  intros [= <-]. split; [exact E|apply strip_idempotent].
Qed.

Lemma item_of_line_stripped raw item :
  item_of_line raw = Some item ->
  PyStr.is_empty item = false /\ PyStr.strip item = item.
Proof.
  unfold item_of_line. destruct (PyStr.is_empty _); [discriminate|].
  apply list_item_stripped.
Qed.

Lemma parse_argument_fold text :
  QA._parse_argument text
  = let '(claim, premises, _) :=
      foldl argument_step (EmptyString, [], QA.NoSection)
        (PyStr.split "010"%char text) in
    {| QA.pa_claim := claim; QA.pa_premises := premises |}.
Proof.
  unfold QA._parse_argument.
  rewrite (foldl_pointwise _ argument_step); [reflexivity|].
  now intros [[claim premises] tag] raw.
Qed.

Lemma argument_step_keeps (P : string -> Prop) claim premises tag raw :
  (forall cleaned item, Common.list_item cleaned = Some item -> P item) ->
  PyStr.strip claim = claim -> Forall P premises ->
  let '(claim', premises', _) := argument_step (claim, premises, tag) raw in
  PyStr.strip claim' = claim' /\ Forall P premises'.
Proof.
  intros HP Hclaim Hpremises. unfold argument_step.
  destruct (PyStr.startswith "Claim:" _);
    [split; [apply strip_idempotent|done]|].
  destruct (PyStr.startswith "Premises:" _); [done|].
  destruct tag; try done.
  destruct (PyStr.is_empty _); [done|].
  destruct (Common.list_item _) as [premise|] eqn:E; [|done].
  split; [done|]. apply Forall_app. split; [done|].
  constructor; [|constructor]. eapply HP, E.
Qed.

Lemma parse_argument_keeps (P : string -> Prop) text :
  (forall cleaned item, Common.list_item cleaned = Some item -> P item) ->
  PyStr.strip (QA.pa_claim (QA._parse_argument text))
    = QA.pa_claim (QA._parse_argument text)
  /\ Forall P (QA.pa_premises (QA._parse_argument text)).
Proof.
  intros HP. rewrite parse_argument_fold.
  assert (forall lines state,
            (let '(c, ps, _) := state in PyStr.strip c = c /\ Forall P ps) ->
            let '(c, ps, _) := foldl argument_step state lines in
            PyStr.strip c = c /\ Forall P ps) as Hfold.
  { induction lines as [|raw lines IH]; intros [[c ps] tag] Hst; cbn [foldl];
      [exact Hst|].
    apply IH. destruct Hst as [Hc Hps].
    apply (argument_step_keeps P c ps tag raw HP Hc Hps). }
  specialize (Hfold (PyStr.split "010"%char text)
                (EmptyString, [], QA.NoSection)).
  destruct (foldl argument_step _ _) as [[c ps] tag]. cbn.
  apply Hfold. split; [reflexivity|constructor].
Qed.



(** ** A list written and read back *)

Lemma string_app_assoc a b c : (a +:+ b) +:+ c = a +:+ (b +:+ c).
Proof.
  induction a as [|x a IH]; [reflexivity|].
  now rewrite !string_app_cons, IH.
Qed.

Lemma contains_app sep a b :
  PyStr.contains sep (a +:+ b) = PyStr.contains sep a || PyStr.contains sep b.
Proof.
  induction a as [|x a IH]; [reflexivity|].
  rewrite string_app_cons. cbn [PyStr.contains]. rewrite IH.
  now rewrite orb_assoc.
Qed.

Lemma split1_last_at_sep sep a b :
  PyStr.contains sep a = false ->
  PyStr.split1_last sep (a +:+ String sep b) = b.
Proof.
  induction a as [|x a IH].
  - intros _. rewrite string_app_nil_l. cbn [PyStr.split1_last].
    now rewrite Ascii.eqb_refl.
  - rewrite string_app_cons. cbn [PyStr.contains PyStr.split1_last].
    intros [Hx Ha]%orb_false_iff. rewrite Hx.
    rewrite contains_app. cbn [PyStr.contains].
    rewrite Ascii.eqb_refl, orb_true_r. auto.
Qed.

Lemma split_concat sep lines :
  Forall (fun line => PyStr.contains sep line = false) lines ->
  lines <> [] ->
  PyStr.split sep (String.concat (String sep EmptyString) lines) = lines.
Proof.
  induction 1 as [|line lines Hline Hlines IH]; [done|]. intros _.
  destruct lines as [|next lines].
  - cbn [String.concat]. now apply split_without_sep.
  - change (String.concat (String sep "") (line :: next :: lines))
      with (line +:+ String sep (String.concat (String sep "") (next :: lines))).
    rewrite split_at_sep by done. now rewrite IH.
Qed.

(** The decimal digits of [str(i)]. *)
Lemma digits_have_no char :
  PyStr.isdigit char = false ->
  forall d, PyStr.contains char (NilEmpty.string_of_uint d) = false.
Proof.
  intros Hchar.
  assert (forall c, PyStr.isdigit c = true -> Ascii.eqb c char = false) as Hne.
  { intros c Hc. destruct (Ascii.eqb_spec c char) as [->|]; congruence. }
  induction d; cbn [NilEmpty.string_of_uint PyStr.contains]; [done|..];
    rewrite IHd, Hne; reflexivity.
Qed.

Lemma of_nat_head i :
  exists c s, PyStr.of_nat i = String c s
              /\ PyStr.isdigit c = true /\ PyStr.isspace c = false.
Proof.
  unfold PyStr.of_nat. pose proof (to_uint_not_Nil i) as H.
  destruct (Nat.to_uint i); [done|..]; cbn; eauto.
Qed.

Lemma plain_item_parts item :
  plain_item item ->
  exists c s,
    item = String c s
    /\ PyStr.isspace c = false
    /\ Ascii.eqb c "-"%char = false
    /\ PyStr.rstrip_with PyStr.isspace item = item.
Proof.
  intros (Hne & [Hl Hr]%strip_fixed_parts & Hdash & _).
  destruct item as [|c s]; [discriminate Hne|]. exists c, s.
  split; [done|]. split; [|split; [|done]].
  - pose proof (lstrip_head PyStr.isspace (String c s)) as H.
    now rewrite Hl in H.
  - unfold PyStr.startswith in Hdash. cbn [String.prefix] in Hdash.
    destruct (ascii_dec "-"%char c) as [<-|Hn]; [destruct s; discriminate|].
    apply Ascii.eqb_neq. congruence.
Qed.

Lemma strip_plain prefix item :
  match prefix with
  | EmptyString => False
  | String c _ => PyStr.isspace c = false
  end ->
  plain_item item ->
  PyStr.strip (prefix +:+ item) = prefix +:+ item.
Proof.
  intros Hprefix (c & s & -> & _ & _ & Hr)%plain_item_parts.
  unfold PyStr.strip. destruct prefix as [|x prefix]; [done|].
  rewrite (lstrip_fixed _ (String x prefix +:+ String c s)).
  - now apply rstrip_app.
  - now rewrite string_app_cons.
Qed.

Lemma list_item_tail item :
  plain_item item ->
  PyStr.strip (PyStr.lstrip_dash_space (PyStr.strip (String " "%char item)))
  = item.
Proof.
  intros Hitem. pose proof Hitem as (Hne & Hstrip & _).
  pose proof Hitem as (c & s & -> & Hspace & Hdash & _)%plain_item_parts.
  assert (PyStr.strip (String " "%char (String c s)) = String c s) as ->.
  { unfold PyStr.strip in *.
    change (PyStr.lstrip_with PyStr.isspace (String " "%char (String c s)))
      with (PyStr.lstrip_with PyStr.isspace (String c s)).
    exact Hstrip. }
  unfold PyStr.lstrip_dash_space. cbn [PyStr.lstrip_with].
  rewrite Hdash.
  assert (Ascii.eqb c " "%char = false) as ->.
  { destruct (Ascii.eqb_spec c " "%char) as [->|]; [discriminate|done]. }
  exact Hstrip.
Qed.

Lemma numbered_line_item i item :
  plain_item item ->
  item_of_line (PyStr.of_nat i +:+ ". " +:+ item) = Some item.
Proof.
  intros Hitem. pose proof Hitem as (Hne & _).
  destruct (of_nat_head i) as (c & s & Hi & Hdigit & Hspace).
  unfold item_of_line.
  rewrite <- string_app_assoc.
  rewrite strip_plain; [|rewrite Hi; exact Hspace|done].
  rewrite string_app_assoc.
  assert (PyStr.is_empty (PyStr.of_nat i +:+ ". " +:+ item) = false) as ->
    by now rewrite Hi.
  unfold Common.list_item.
  assert (PyStr.head_isdigit (PyStr.of_nat i +:+ ". " +:+ item) = true) as ->
    by (rewrite Hi; exact Hdigit).
  cbn [orb].
  change (PyStr.of_nat i +:+ ". " +:+ item)
    with (PyStr.of_nat i +:+ String "."%char (String " "%char item)).
  rewrite contains_app. cbn [PyStr.contains]. rewrite Ascii.eqb_refl.
  rewrite orb_true_r.
  rewrite split1_last_at_sep by (apply digits_have_no; reflexivity).
  rewrite list_item_tail by done. now rewrite Hne.
Qed.

Lemma bulleted_line_item item :
  plain_item item -> PyStr.contains "."%char item = false ->
  item_of_line ("- " +:+ item) = Some item.
Proof.
  intros Hitem Hdot. pose proof Hitem as (Hne & Hstrip & _).
  pose proof Hitem as (c & s & Hcs & Hspace & Hdash & _)%plain_item_parts.
  unfold item_of_line.
  rewrite strip_plain; [|reflexivity|done].
  change ("- " +:+ item) with (String "-"%char (String " "%char item)).
  cbn [PyStr.is_empty]. unfold Common.list_item.
  cbn [PyStr.head_isdigit PyStr.contains].
  replace (PyStr.startswith "-" (String "-"%char (String " "%char item)))
    with true by reflexivity.
  rewrite orb_true_r. rewrite Hdot. cbn [orb Ascii.eqb Bool.eqb].
  replace (PyStr.lstrip_dash_space (String "-"%char (String " "%char item)))
    with (PyStr.lstrip_dash_space item) by reflexivity.
  unfold PyStr.lstrip_dash_space. rewrite Hcs. cbn [PyStr.lstrip_with].
  rewrite Hdash.
  assert (Ascii.eqb c " "%char = false) as ->.
  { destruct (Ascii.eqb_spec c " "%char) as [->|]; [discriminate|done]. }
  cbn [orb]. rewrite <- Hcs, Hstrip. now rewrite Hne.
Qed.

Lemma omap_lines_items (lines items : list string) :
  Forall2 (fun line item => item_of_line line = Some item) lines items ->
  omap item_of_line lines = items.
Proof. induction 1 as [|line item lines items H _ IH]; cbn; [done|]. now rewrite H, IH. Qed.

Lemma numbered_lines_items items k :
  Forall plain_item items ->
  Forall2 (fun line item => item_of_line line = Some item)
    (imap (fun j item => PyStr.of_nat (S (k + j)) +:+ ". " +:+ item) items)
    items.
Proof.
  intros H. revert k. induction H as [|item items Hitem _ IH]; intros k;
    [constructor|].
  rewrite imap_cons. constructor.
  - now apply numbered_line_item.
  - rewrite (imap_ext _ (fun j item =>
               PyStr.of_nat (S (S k + j)) +:+ ". " +:+ item)); [apply IH|].
    intros j item' _. cbn. now rewrite Nat.add_succ_r.
Qed.

Lemma numbered_lines_one_line items :
  Forall plain_item items ->
  Forall (fun line => PyStr.contains "010"%char line = false)
    (imap (fun k item => PyStr.of_nat (S k) +:+ ". " +:+ item) items).
Proof.
  intros H. apply list.Forall_forall.
  intros line (k & item & -> & Hk)%elem_of_lookup_imap.
  pose proof (proj1 (list.Forall_forall _ _) H item
                (list_elem_of_lookup_2 _ _ _ Hk)) as (_ & _ & _ & Hnl).
  rewrite !contains_app, Hnl.
  unfold PyStr.of_nat. now rewrite digits_have_no.
Qed.

Lemma parse_of_no_line : omap item_of_line (PyStr.split "010"%char "") = [].
Proof. reflexivity. Qed.

Lemma parse_numbered_list items :
  Forall plain_item items ->
  omap item_of_line (PyStr.split "010"%char (numbered_list items)) = items.
Proof.
  intros H. destruct items as [|item items]; [reflexivity|].
  unfold numbered_list, line_break.
  rewrite split_concat; [| now apply numbered_lines_one_line | done].
  apply omap_lines_items. apply (numbered_lines_items _ 0 H).
Qed.

Lemma parse_bulleted_list items :
  Forall plain_item items ->
  Forall (fun item => PyStr.contains "."%char item = false) items ->
  omap item_of_line (PyStr.split "010"%char (bulleted_list items)) = items.
Proof.
  intros H Hdot. destruct items as [|item items]; [reflexivity|].
  unfold bulleted_list, line_break.
  rewrite split_concat; [| |done].
  - apply omap_lines_items. apply Forall2_fmap_l, Forall_Forall2_diag.
    apply list.Forall_forall. intros x Hx.
    apply bulleted_line_item.
    + exact (proj1 (list.Forall_forall _ _) H x Hx).
    + exact (proj1 (list.Forall_forall _ _) Hdot x Hx).
  - apply Forall_fmap, list.Forall_forall. intros x Hx. cbn.
    pose proof (proj1 (list.Forall_forall _ _) H x Hx) as (_ & _ & _ & Hnl).
    change ("- " +:+ x) with (String "-"%char (String " "%char x)).
    cbn [PyStr.contains]. now rewrite Hnl.
Qed.

(** X3.  A list written in the shape the parsers expect is read back
    unchanged.  For items that are not empty, have no white space at either
    end, do not begin with a dash and hold no line break: the numbered list
    of the items parses to the items, in order ([_parse_questions] keeps the
    first ten); the bulleted list of the items parses to the items when no
    item holds a full stop (the parser drops what precedes the first full
    stop of a line). *)
Theorem written_list_is_read_back :
  forall items,
    Forall plain_item items ->
    Direct._parse_list_items (numbered_list items) = items
    /\ QA._parse_questions (numbered_list items) = take 10 items
    /\ (Forall (fun item => PyStr.contains "."%char item = false) items ->
        Direct._parse_list_items (bulleted_list items) = items
        /\ QA._parse_questions (bulleted_list items) = take 10 items).
Proof.
  intros items H.
  rewrite parse_list_items_omap, parse_questions_omap,
    (parse_numbered_list items H).
  split; [done|]. split; [done|]. intros Hdot.
  now rewrite parse_list_items_omap, parse_questions_omap,
    (parse_bulleted_list items H Hdot).
Qed.

(** Two items, the second with a full stop inside, as a numbered list; one
    item without a full stop as a bulleted list. *)
Lemma written_list_is_read_back_witness :
  Direct._parse_list_items
    (numbered_list ["Taxes fell"; "Growth rose by 3.5 points"])
  = ["Taxes fell"; "Growth rose by 3.5 points"]
  /\ Direct._parse_list_items (bulleted_list ["Taxes fell"]) = ["Taxes fell"].
Proof.
  split.
  - apply (written_list_is_read_back
             ["Taxes fell"; "Growth rose by 3.5 points"]).
    repeat constructor.
  - apply (written_list_is_read_back ["Taxes fell"]);
      repeat constructor.
Defined.

(** ** An argument written and read back *)

Lemma argument_step_in_premises claim premises raw :
  no_header raw ->
  argument_step (claim, premises, QA.PremisesSection) raw
  = (claim,
     premises ++ match item_of_line raw with Some p => [p] | None => [] end,
     QA.PremisesSection).
Proof.
  intros [Hc Hp]. unfold argument_step, item_of_line. rewrite Hc, Hp.
  destruct (PyStr.is_empty _); [now rewrite app_nil_r|].
  destruct (Common.list_item _); [done|now rewrite app_nil_r].
Qed.

Lemma argument_fold_in_premises claim premises lines :
  Forall no_header lines ->
  foldl argument_step (claim, premises, QA.PremisesSection) lines
  = (claim, premises ++ omap item_of_line lines, QA.PremisesSection).
Proof.
  intros H. revert premises.
  induction H as [|raw lines Hraw _ IH]; intros premises.
  - cbn. now rewrite app_nil_r.
  - cbn [foldl]. rewrite argument_step_in_premises by done. rewrite IH.
    cbn [omap list_omap].
    destruct (item_of_line raw); rewrite <- app_assoc; reflexivity.
Qed.

Lemma argument_step_outside claim premises tag raw :
  no_header raw -> tag <> QA.PremisesSection ->
  argument_step (claim, premises, tag) raw = (claim, premises, tag).
Proof.
  intros [Hc Hp] Htag. unfold argument_step. rewrite Hc, Hp.
  now destruct tag.
Qed.

Lemma digit_line_no_header line c rest :
  PyStr.strip line = String c rest -> PyStr.isdigit c = true ->
  no_header line.
Proof.
  intros H Hc. unfold no_header, PyStr.startswith. rewrite H.
  cbn [String.prefix].
  split.
  - destruct (ascii_dec "C"%char c) as [<-|]; [discriminate|done].
  - destruct (ascii_dec "P"%char c) as [<-|]; [discriminate|done].
Qed.

Lemma numbered_line_no_header i item :
  plain_item item -> no_header (PyStr.of_nat i +:+ ". " +:+ item).
Proof.
  intros Hitem. destruct (of_nat_head i) as (c & s & Hi & Hdigit & Hspace).
  apply (digit_line_no_header _ c (s +:+ ". " +:+ item)); [|done].
  rewrite <- string_app_assoc.
  rewrite strip_plain; [|rewrite Hi; exact Hspace|done].
  now rewrite string_app_assoc, Hi.
Qed.

Lemma numbered_list_no_header premises :
  Forall plain_item premises ->
  Forall no_header (PyStr.split "010"%char (numbered_list premises)).
Proof.
  intros H. destruct premises as [|p premises].
  - repeat constructor.
  - unfold numbered_list, line_break.
    rewrite split_concat; [| now apply numbered_lines_one_line | done].
    apply list.Forall_forall.
    intros line (k & item & -> & Hk)%elem_of_lookup_imap.
    apply numbered_line_no_header.
    exact (proj1 (list.Forall_forall _ _) H item
             (list_elem_of_lookup_2 _ _ _ Hk)).
Qed.

Lemma strip_claim_line claim :
  plain_claim claim ->
  PyStr.strip ("Claim: " +:+ claim) = "Claim: " +:+ claim
  /\ PyStr.strip (String " "%char claim) = claim.
Proof.
  intros (Hne & Hstrip & _).
  pose proof (strip_fixed_parts _ Hstrip) as [Hl Hr].
  split.
  - unfold PyStr.strip.
    rewrite (lstrip_fixed _ ("Claim: " +:+ claim)) by reflexivity.
    now apply rstrip_app.
  - exact Hstrip.
Qed.

(** X4.  An argument written in the shape [_parse_argument] expects is
    read back unchanged: for a claim and premises that are not empty, have
    no white space at either end and hold no line break (the premises not
    beginning with a dash), the text "Claim: <claim>", "Premises:" and the
    numbered list of the premises parses to that claim and those
    premises, in order. *)
Theorem written_argument_is_read_back :
  forall claim premises,
    plain_claim claim ->
    Forall plain_item premises ->
    QA._parse_argument (argument_text claim premises)
    = {| QA.pa_claim := claim; QA.pa_premises := premises |}.
Proof.
  intros claim premises Hclaim Hpremises.
  pose proof Hclaim as (_ & _ & Hnl).
  destruct (strip_claim_line claim Hclaim) as [Hline Htail].
  rewrite parse_argument_fold. unfold argument_text, line_break.
  change ("Claim: " +:+ claim +:+ String "010"%char "" +:+ "Premises:"
            +:+ String "010"%char "" +:+ numbered_list premises)
    with (("Claim: " +:+ claim)
            +:+ String "010"%char
                  ("Premises:" +:+ String "010"%char (numbered_list premises))).
  rewrite split_at_sep by (rewrite contains_app, Hnl; reflexivity).
  rewrite (split_at_sep _ "Premises:") by reflexivity.
  cbn [foldl].
  assert (argument_step (EmptyString, [], QA.NoSection) ("Claim: " +:+ claim)
          = (claim, [], QA.ClaimSection)) as ->.
  { unfold argument_step. rewrite Hline.
    replace (PyStr.startswith "Claim:" ("Claim: " +:+ claim)) with true
      by (destruct claim; reflexivity).
    replace (PyStr.split1_last ":"%char ("Claim: " +:+ claim))
      with (String " "%char claim) by reflexivity.
    now rewrite Htail. }
  assert (argument_step (claim, [], QA.ClaimSection) "Premises:"
          = (claim, [], QA.PremisesSection)) as -> by reflexivity.
  rewrite argument_fold_in_premises by now apply numbered_list_no_header.
  now rewrite (parse_numbered_list premises Hpremises).
Qed.

(** A claim with two premises. *)
Lemma written_argument_is_read_back_witness :
  QA._parse_argument
    (argument_text "Taxes should fall" ["Growth is slow"; "Debt is low"])
  = {| QA.pa_claim := "Taxes should fall";
       QA.pa_premises := ["Growth is slow"; "Debt is low"] |}.
Proof.
  apply (written_argument_is_read_back "Taxes should fall"
           ["Growth is slow"; "Debt is low"]); repeat constructor.
Defined.

(** X5.  [_parse_argument] collects premises only below a "Premises:"
    line, and a claim only from a "Claim:" line: on a text none of whose
    lines begins (after stripping) with "Premises:" it returns no premises,
    whatever list items the text holds; on a text with no such "Claim:"
    line the claim is the empty string. *)
Theorem premises_and_claim_need_their_header :
  forall text,
    (Forall (fun line =>
               PyStr.startswith "Premises:" (PyStr.strip line) = false)
       (PyStr.split "010"%char text) ->
     QA.pa_premises (QA._parse_argument text) = [])
    /\ (Forall (fun line =>
                  PyStr.startswith "Claim:" (PyStr.strip line) = false)
          (PyStr.split "010"%char text) ->
        QA.pa_claim (QA._parse_argument text) = "").
Proof.
  intros text. rewrite parse_argument_fold. split.
  - intros H.
    assert (forall lines state,
              Forall (fun line =>
                        PyStr.startswith "Premises:" (PyStr.strip line) = false)
                lines ->
              (let '(_, ps, tag) := state in
               ps = [] /\ tag <> QA.PremisesSection) ->
              let '(_, ps, tag) := foldl argument_step state lines in
              ps = [] /\ tag <> QA.PremisesSection) as Hfold.
    { intros lines state Hlines. revert state.
      induction Hlines as [|raw lines Hraw _ IH];
        intros [[c ps] tag] Hst; cbn [foldl]; [exact Hst|].
      apply IH. destruct Hst as [-> Htag]. unfold argument_step.
      rewrite Hraw. destruct (PyStr.startswith "Claim:" _); [done|].
      now destruct tag. }
    specialize (Hfold _ (EmptyString, [], QA.NoSection) H).
    destruct (foldl argument_step _ _) as [[c ps] tag]. cbn.
    now apply Hfold.
  - intros H.
    assert (forall lines state,
              Forall (fun line =>
                        PyStr.startswith "Claim:" (PyStr.strip line) = false)
                lines ->
              (let '(c, _, _) := state in c = "") ->
              let '(c, _, _) := foldl argument_step state lines in
              c = "") as Hfold.
    { intros lines state Hlines. revert state.
      induction Hlines as [|raw lines Hraw _ IH];
        intros [[c ps] tag] Hst; cbn [foldl]; [exact Hst|].
      apply IH. unfold argument_step. rewrite Hraw.
      destruct (PyStr.startswith "Premises:" _); [done|].
      destruct tag; try done.
      destruct (PyStr.is_empty _); [done|].
      now destruct (Common.list_item _). }
    specialize (Hfold _ (EmptyString, [], QA.NoSection) H).
    destruct (foldl argument_step _ _) as [[c ps] tag]. cbn.
    now apply Hfold.
Qed.

(** A response that lists its premises with no header, and no claim
    line. *)
Lemma premises_and_claim_need_their_header_witness :
  QA.pa_premises
    (QA._parse_argument (numbered_list ["Growth is slow"; "Debt is low"]))
  = []
  /\ QA.pa_claim
       (QA._parse_argument (numbered_list ["Growth is slow"; "Debt is low"]))
     = "".
Proof.
  split.
  - apply (premises_and_claim_need_their_header
             (numbered_list ["Growth is slow"; "Debt is low"])).
    vm_compute. repeat constructor.
  - apply (premises_and_claim_need_their_header
             (numbered_list ["Growth is slow"; "Debt is low"])).
    vm_compute. repeat constructor.
Defined.

(** ** The completion text of a result record *)

Lemma extract_batch_result_cases record :
  (exists content,
     OpenAICalls.extract_batch_result record = Ok (PyStr.strip content))
  \/ OpenAICalls.extract_batch_result record = Ok ""
  \/ (exists e v,
        OpenAICalls.extract_batch_result record = Err e
        /\ exn_cls e = TypeError
        /\ choices_of record = Some v
        /\ Py.truthy v = true
        /\ match v with JBool _ | JNum _ => True | _ => False end).
Proof.
  unfold choices_of, OpenAICalls.extract_batch_result.
  destruct (Py.dict_get record "response" (JObj ∅)) as [| | | | |response];
    cbn; auto.
  destruct (Py.dict_get response "body" (JObj ∅)) as [| | | | |body];
    cbn; auto.
  destruct (Py.dict_get body "choices" (JArr [])) as [|b|q|s|l|m] eqn:E.
  - cbn; auto.
  - destruct b; cbn; [|auto]. right. right.
    eexists _, _. repeat split; reflexivity.
  - destruct (Py.truthy (JNum q)) eqn:Hq; [|cbn; auto]. right. right.
    eexists _, (JNum q). cbn [Py.truthy] in Hq |- *. rewrite Hq. cbn.
    repeat split; try reflexivity.
  - destruct s; cbn; auto.
  - destruct l as [|first l]; cbn; auto.
    destruct first as [| | | | |first]; cbn; auto.
    destruct (Py.dict_get first "message" (JObj ∅)) as [| | | | |message];
      cbn; auto.
    destruct (Py.dict_get message "content" (JStr "")); cbn; eauto.
  - cbn. destruct (negb (bool_decide (m = ∅))); cbn; auto.
Qed.

(** X6.  [extract_batch_result] returns a text with no white space at
    either end.  The only exception it lets through is the [TypeError] of
    indexing a [choices] that is a number other than zero or the boolean
    true; for any other record, whatever is missing or of another type in
    it, it returns (the empty string when there is no text to return).  On
    a record of the batch output format it returns the stripped [content]
    of the message of the first choice. *)
Theorem extract_batch_result_outcomes :
  forall record,
    (forall text,
       OpenAICalls.extract_batch_result record = Ok text ->
       PyStr.strip text = text)
    /\ (forall e,
          OpenAICalls.extract_batch_result record = Err e ->
          exn_cls e = TypeError
          /\ exists v,
               choices_of record = Some v /\ Py.truthy v = true
               /\ match v with JBool _ | JNum _ => True | _ => False end)
    /\ (match choices_of record with
        | Some (JBool _) | Some (JNum _) => False
        | _ => True
        end ->
        exists text, OpenAICalls.extract_batch_result record = Ok text)
    /\ (forall response body first message rest content,
          record !! "response" = Some (JObj response) ->
          response !! "body" = Some (JObj body) ->
          body !! "choices" = Some (JArr (JObj first :: rest)) ->
          first !! "message" = Some (JObj message) ->
          message !! "content" = Some (JStr content) ->
          OpenAICalls.extract_batch_result record = Ok (PyStr.strip content)).
Proof.
  intros record.
  destruct (extract_batch_result_cases record)
    as [[content H]|[H|(e & v & H & Hcls & Hv & Ht & Hnum)]].
  - split; [|split; [|split]].
    + rewrite H. intros text [= <-]. apply strip_idempotent.
    + rewrite H. discriminate.
    + eauto.
    + intros response body first message rest c H1 H2 H3 H4 H5.
      unfold OpenAICalls.extract_batch_result, Py.dict_get.
      rewrite H1. cbn. unfold Py.dict_get. rewrite H2. cbn.
      unfold Py.dict_get. rewrite H3. cbn. unfold Py.dict_get.
      rewrite H4. cbn. unfold Py.dict_get. now rewrite H5.
  - split; [|split; [|split]].
    + rewrite H. now intros text [= <-].
    + rewrite H. discriminate.
    + eauto.
    + intros response body first message rest c H1 H2 H3 H4 H5.
      unfold OpenAICalls.extract_batch_result, Py.dict_get.
      rewrite H1. cbn. unfold Py.dict_get. rewrite H2. cbn.
      unfold Py.dict_get. rewrite H3. cbn. unfold Py.dict_get.
      rewrite H4. cbn. unfold Py.dict_get. now rewrite H5.
  - split; [|split; [|split]].
    + rewrite H. discriminate.
    + rewrite H. intros e' [= <-]. eauto.
    + rewrite Hv. now destruct v.
    + intros response body first message rest c H1 H2 H3 H4 H5.
      unfold choices_of, Py.dict_get in Hv. rewrite H1 in Hv. cbn in Hv.
      unfold Py.dict_get in Hv. rewrite H2 in Hv. cbn in Hv.
      unfold Py.dict_get in Hv. rewrite H3 in Hv. cbn in Hv.
      injection Hv as <-. done.
Qed.

Lemma extract_batch_result_outcomes_witness :
  OpenAICalls.extract_batch_result (Scenario.completed "c_0" "  1. A claim.  ")
  = Ok "1. A claim.".
Proof.
  destruct (extract_batch_result_outcomes
              (Scenario.completed "c_0" "  1. A claim.  "))
    as (_ & _ & _ & H).
  exact (H {[ "body" := JObj {[ "choices" := JArr [JObj {[ "message" :=
               JObj {[ "content" := JStr "  1. A claim.  " ]} ]}] ]} ]}
           {[ "choices" := JArr [JObj {[ "message" :=
               JObj {[ "content" := JStr "  1. A claim.  " ]} ]}] ]}
           {[ "message" := JObj {[ "content" := JStr "  1. A claim.  " ]} ]}
           {[ "content" := JStr "  1. A claim.  " ]}
           [] "  1. A claim.  "
           eq_refl eq_refl eq_refl eq_refl eq_refl).
Defined.

(** ** The maps from correlation key to content *)

Lemma has_content_carries key record :
  has_content key record <-> exists content, carries key content record.
Proof.
  unfold has_content, carries. split.
  - intros (H & c & Hc & He). eauto.
  - intros (c & H & Hc & He). eauto.
Qed.

Lemma build_map_step_carries {V} (parse : string -> V) acc record key c :
  carries key c record ->
  Common.build_map_step parse acc record = Ok (<[key := parse c]> acc).
Proof.
  intros (Hid & Hc & He). unfold Common.build_map_step.
  rewrite Hc. cbn. rewrite He, Hid. reflexivity.
Qed.

Lemma build_map_step_lookup {V} (parse : string -> V) acc record acc' key :
  Common.build_map_step parse acc record = Ok acc' ->
  (exists c, carries key c record /\ acc' !! key = Some (parse c))
  \/ (~ has_content key record /\ acc' !! key = acc !! key).
Proof.
  unfold Common.build_map_step, has_content, carries.
  destruct (OpenAICalls.extract_batch_result record) as [content|];
    [|discriminate]. cbn.
  destruct (PyStr.is_empty content) eqn:Hempty; cbn.
  - intros [= <-]. right. split; [|done].
    intros (_ & c & [= <-] & Hc). congruence.
  - destruct (Py.dict_get record "custom_id" (JStr "")) as [| | |id| |];
      cbn; try discriminate; intros [= <-];
      try (right; split; [intros (Hid & _); discriminate|done]).
    destruct (decide (id = key)) as [->|Hne].
    + left. exists content. rewrite lookup_insert_eq. auto.
    + right. rewrite lookup_insert_ne by done. split; [|done].
      intros ([= Hid] & _). congruence.
Qed.

Lemma build_map_snoc {V} (parse : string -> V) results record m :
  Common.build_map parse (results ++ [record]) = Ok m ->
  exists acc,
    Common.build_map parse results = Ok acc
    /\ Common.build_map_step parse acc record = Ok m.
Proof.
  unfold Common.build_map. rewrite for_fold_app.
  destruct (for_fold _ ∅ results) as [acc|]; [|discriminate]. cbn.
  destruct (Common.build_map_step parse acc record) as [acc'|] eqn:E;
    [|discriminate]. cbn. intros [= <-]. eauto.
Qed.

Lemma build_map_lookup_origin {V} (parse : string -> V) results m key v :
  Common.build_map parse results = Ok m ->
  m !! key = Some v ->
  exists record c,
    record ∈ results /\ carries key c record /\ v = parse c.
Proof.
  revert m. induction results as [|record results IH] using rev_ind;
    intros m.
  - intros [= <-]. now rewrite lookup_empty.
  - intros (acc & Hacc & Hstep)%build_map_snoc Hv.
    destruct (build_map_step_lookup _ _ _ _ key Hstep)
      as [(c & Hc & Hm)|[_ Hm]].
    + exists record, c. split; [set_solver|]. split; [done|]. congruence.
    + rewrite Hm in Hv. destruct (IH _ Hacc Hv) as (r & c & Hr & Hc & ->).
      exists r, c. split; [set_solver|]. done.
Qed.

Lemma for_fold_keeps_lookup {V} (parse : string -> V) results acc m key :
  for_fold (Common.build_map_step parse) acc results = Ok m ->
  (forall record, record ∈ results -> ~ has_content key record) ->
  m !! key = acc !! key.
Proof.
  revert acc. induction results as [|record results IH]; intros acc; cbn.
  - now intros [= <-].
  - destruct (Common.build_map_step parse acc record) as [acc'|] eqn:Hstep;
      [|discriminate]. cbn. intros H Hno.
    rewrite (IH _ H) by (intros r Hr; apply Hno; now right).
    destruct (build_map_step_lookup _ _ _ _ key Hstep)
      as [(c & Hc & _)|[_ Hm]]; [|done].
    exfalso. apply (Hno record); [left|].
    apply has_content_carries. eauto.
Qed.

Lemma record_key_carries key c record :
  carries key c record -> record_key record = Some key.
Proof. intros (H & _). unfold record_key. now rewrite H. Qed.

Lemma NoDup_omap_same {A B} (f : A -> option B) l x y k :
  NoDup (omap f l) -> x ∈ l -> y ∈ l -> f x = Some k -> f y = Some k ->
  x = y.
Proof.
  induction l as [|a l IH]; [intros _ H; now apply not_elem_of_nil in H|].
  cbn [omap list_omap]. intros Hnd Hx Hy Hfx Hfy.
  apply elem_of_cons in Hx as [->|Hx]; apply elem_of_cons in Hy as [->|Hy];
    try done.
  - rewrite Hfx in Hnd. apply list.NoDup_cons in Hnd as [Hnot _].
    exfalso. apply Hnot. apply list_elem_of_omap. eauto.
  - rewrite Hfy in Hnd. apply list.NoDup_cons in Hnd as [Hnot _].
    exfalso. apply Hnot. apply list_elem_of_omap. eauto.
  - apply IH; try done. destruct (f a); [|done].
    now apply list.NoDup_cons in Hnd as [_ ?].
Qed.

Lemma build_map_lookup {V} (parse : string -> V) results m key v :
  NoDup (omap record_key results) ->
  Common.build_map parse results = Ok m ->
  m !! key = Some v <->
  exists record c,
    record ∈ results /\ carries key c record /\ v = parse c.
Proof.
  intros Hnd Hm. split; [now apply build_map_lookup_origin|].
  intros (record & c & Hin & Hc & ->).
  destruct (proj2 (build_map_dom _ _ _ key Hm)) as [v Hv].
  { exists record. split; [done|]. apply has_content_carries. eauto. }
  destruct (build_map_lookup_origin _ _ _ _ _ Hm Hv)
    as (r' & c' & Hin' & Hc' & ->).
  assert (record = r') as <-.
  { eapply NoDup_omap_same; eauto using record_key_carries. }
  destruct Hc as (_ & Hc & _), Hc' as (_ & Hc' & _). congruence.
Qed.

Lemma build_map_step_ok {V} (parse : string -> V) acc acc' record m :
  Common.build_map_step parse acc record = Ok m ->
  exists m', Common.build_map_step parse acc' record = Ok m'.
Proof.
  unfold Common.build_map_step.
  destruct (OpenAICalls.extract_batch_result record) as [content|];
    [|discriminate]. cbn.
  destruct (negb (PyStr.is_empty content)); [|eauto].
  destruct (Py.dict_get record "custom_id" (JStr "")); cbn;
    try discriminate; eauto.
Qed.

Lemma build_map_ok_iff {V} (parse : string -> V) results :
  (exists m, Common.build_map parse results = Ok m)
  <-> Forall (fun record =>
                exists m, Common.build_map_step parse ∅ record = Ok m)
        results.
Proof.
  unfold Common.build_map. generalize (∅ : gmap string V) at 1.
  induction results as [|record results IH]; intros acc; cbn.
  - split; [constructor|eauto].
  - rewrite list.Forall_cons. split.
    + intros [m H].
      destruct (Common.build_map_step parse acc record) as [acc'|] eqn:E;
        [|discriminate]. cbn in H. split.
      * eapply build_map_step_ok, E.
      * apply (IH acc'). eauto.
    + intros [[m0 H0] Hrest].
      destruct (build_map_step_ok parse ∅ acc record m0 H0) as [acc' ->].
      cbn. now apply IH.
Qed.

Lemma build_map_perm {V} (parse : string -> V) results results' m :
  results ≡ₚ results' ->
  NoDup (omap record_key results) ->
  Common.build_map parse results = Ok m ->
  Common.build_map parse results' = Ok m.
Proof.
  intros Hperm Hnd Hm.
  assert (exists m', Common.build_map parse results' = Ok m') as [m' Hm'].
  { apply build_map_ok_iff. rewrite <- Hperm. apply build_map_ok_iff. eauto. }
  rewrite Hm'. f_equal. apply map_eq. intros key. apply option_eq. intros v.
  rewrite (build_map_lookup parse results' m' key v), 
    (build_map_lookup parse results m key v); try done.
  - split; intros (r & c & Hr & H); exists r, c; split; try done.
    + now rewrite Hperm.
    + now rewrite <- Hperm.
  - now rewrite <- Hperm.
Qed.

(** X7.  In the map a [_build_*_map] method builds, a later record
    overwrites an earlier one with the same correlation key: a key is bound
    to the parsed content of the last record that carries content under
    it, whatever the records before it hold. *)
Theorem build_map_last_record_wins :
  forall {V} (parse : string -> V) before record after key content m,
    carries key content record ->
    (forall later, later ∈ after -> ~ has_content key later) ->
    Common.build_map parse (before ++ record :: after) = Ok m ->
    m !! key = Some (parse content).
Proof.
  intros V parse before record after key content m Hc Hafter.
  unfold Common.build_map. rewrite for_fold_app.
  destruct (for_fold _ ∅ before) as [acc|]; [|discriminate].
  cbn. rewrite (build_map_step_carries parse acc record key content Hc).
  cbn. intros H. rewrite (for_fold_keeps_lookup _ _ _ _ key H Hafter).
  apply lookup_insert_eq.
Qed.

(** X8.  [DirectArgumentExtractor._combine_results] does not depend on the
    order of the records in the batch output files: when no two records of
    a file have the same [custom_id], the result records are the same
    for any reordering of the two files. *)
Theorem direct_combine_ignores_record_order :
  forall cfg cfg' results,
    Direct.articles cfg' = Direct.articles cfg ->
    Direct.text_column cfg' = Direct.text_column cfg ->
    Direct.id_column cfg' = Direct.id_column cfg ->
    Direct.phase1 cfg ≡ₚ Direct.phase1 cfg' ->
    Direct.phase2 cfg ≡ₚ Direct.phase2 cfg' ->
    NoDup (omap record_key (Direct.phase1 cfg)) ->
    NoDup (omap record_key (Direct.phase2 cfg)) ->
    Direct._combine_results cfg = Ok results ->
    Direct._combine_results cfg' = Ok results.
Proof.
  intros cfg cfg' results Ha Ht Hi H1 H2 Hnd1 Hnd2.
  unfold Direct._combine_results, Direct._build_conclusions_map,
    Direct._build_premises_map.
  destruct (Common.build_map _ (Direct.phase1 cfg)) as [cm|] eqn:E1;
    [|discriminate].
  destruct (Common.build_map _ (Direct.phase2 cfg)) as [pm|] eqn:E2;
    [|discriminate].
  rewrite (build_map_perm _ _ _ _ H1 Hnd1 E1),
    (build_map_perm _ _ _ _ H2 Hnd2 E2).
  cbn. now rewrite Ha, Ht, Hi.
Qed.

(** X9.  [QAArgumentExtractor._combine_results] does not depend on the
    order of the records in the batch output files: when no two records of
    a file have the same [custom_id], the result records are the same
    for any reordering of the three files. *)
Theorem qa_combine_ignores_record_order :
  forall cfg cfg' results,
    QA.articles cfg' = QA.articles cfg ->
    QA.text_column cfg' = QA.text_column cfg ->
    QA.id_column cfg' = QA.id_column cfg ->
    QA.phase1 cfg ≡ₚ QA.phase1 cfg' ->
    QA.phase2 cfg ≡ₚ QA.phase2 cfg' ->
    QA.phase3 cfg ≡ₚ QA.phase3 cfg' ->
    NoDup (omap record_key (QA.phase1 cfg)) ->
    NoDup (omap record_key (QA.phase2 cfg)) ->
    NoDup (omap record_key (QA.phase3 cfg)) ->
    QA._combine_results cfg = Ok results ->
    QA._combine_results cfg' = Ok results.
Proof.
  intros cfg cfg' results Ha Ht Hi H1 H2 H3 Hnd1 Hnd2 Hnd3.
  unfold QA._combine_results, QA._build_questions_map,
    QA._build_answers_map, QA._build_arguments_map.
  destruct (Common.build_map _ (QA.phase1 cfg)) as [qm|] eqn:E1;
    [|discriminate].
  destruct (Common.build_map _ (QA.phase2 cfg)) as [am|] eqn:E2;
    [|discriminate].
  destruct (Common.build_map _ (QA.phase3 cfg)) as [gm|] eqn:E3;
    [|discriminate].
  rewrite (build_map_perm _ _ _ _ H1 Hnd1 E1),
    (build_map_perm _ _ _ _ H2 Hnd2 E2),
    (build_map_perm _ _ _ _ H3 Hnd3 E3).
  cbn. now rewrite Ha, Ht, Hi.
Qed.

Ltac distinct_keys :=
  vm_compute; repeat constructor;
  let H := fresh in
  intros H; repeat (apply elem_of_cons in H as [H|H]; [discriminate|]);
  now apply not_elem_of_nil in H.

Lemma build_map_last_record_wins_witness :
  match Common.build_map Direct._parse_list_items
          ([Scenario.completed "c_0" "1. First answer."]
           ++ Scenario.completed "c_0" "1. Second answer."
           :: [Scenario.completed "c_1" "1. Other article."])
  with
  | Ok m => m !! "c_0" = Some ["Second answer."]
  | Err _ => False
  end.
Proof.
  destruct (Common.build_map _ _) as [m|] eqn:E;
    [|vm_compute in E; discriminate].
  apply (build_map_last_record_wins Direct._parse_list_items
           [Scenario.completed "c_0" "1. First answer."]
           (Scenario.completed "c_0" "1. Second answer.")
           [Scenario.completed "c_1" "1. Other article."]
           "c_0" "1. Second answer." m).
  - repeat split; vm_compute; reflexivity.
  - intros later ->%list_elem_of_singleton [H _]. vm_compute in H.
    discriminate.
  - exact E.
Defined.

Lemma direct_combine_ignores_record_order_witness :
  Direct._combine_results ScenarioOrder.shuffled
  = Direct._combine_results ScenarioOrder.in_order.
Proof.
  destruct (Direct._combine_results ScenarioOrder.in_order)
    as [results|] eqn:E; [|vm_compute in E; discriminate].
  apply (direct_combine_ignores_record_order
           ScenarioOrder.in_order ScenarioOrder.shuffled results);
    try reflexivity; try exact E.
  - symmetry. apply reverse_Permutation.
  - symmetry. apply reverse_Permutation.
  - distinct_keys.
  - distinct_keys.
Defined.

Lemma qa_combine_ignores_record_order_witness :
  QA._combine_results ScenarioOrder.shuffled_qa
  = QA._combine_results ScenarioB.config.
Proof.
  destruct (QA._combine_results ScenarioB.config)
    as [results|] eqn:E; [|vm_compute in E; discriminate].
  apply (qa_combine_ignores_record_order
           ScenarioB.config ScenarioOrder.shuffled_qa results);
    try reflexivity; try exact E.
  - symmetry. apply reverse_Permutation.
  - symmetry. apply reverse_Permutation.
  - distinct_keys.
  - distinct_keys.
  - distinct_keys.
Defined.

(** ** Arguments and the items they come from *)

Lemma item_of_line_tidy raw item : item_of_line raw = Some item -> tidy item.
Proof.
  intros [Hne Hs]%item_of_line_stripped. split; [|done].
  intros ->. discriminate.
Qed.

Lemma parse_list_items_tidy text : Forall tidy (Direct._parse_list_items text).
Proof.
  rewrite parse_list_items_omap. apply list.Forall_forall.
  intros item (raw & _ & H)%list_elem_of_omap. eapply item_of_line_tidy, H.
Qed.

Lemma parse_questions_tidy text : Forall tidy (QA._parse_questions text).
Proof.
  rewrite parse_questions_omap. apply Forall_take, list.Forall_forall.
  intros item (raw & _ & H)%list_elem_of_omap. eapply item_of_line_tidy, H.
Qed.

Lemma parse_argument_tidy text :
  PyStr.strip (QA.pa_claim (QA._parse_argument text))
    = QA.pa_claim (QA._parse_argument text)
  /\ Forall tidy (QA.pa_premises (QA._parse_argument text)).
Proof.
  apply parse_argument_keeps.
  intros cleaned item [Hne Hs]%list_item_stripped. split; [|done].
  intros ->. discriminate.
Qed.

Lemma extract_batch_result_stripped record text :
  OpenAICalls.extract_batch_result record = Ok text ->
  PyStr.strip text = text.
Proof.
  destruct (extract_batch_result_cases record)
    as [[content ->]|[->|(e & v & -> & _)]]; [| |discriminate].
  - intros [= <-]. apply strip_idempotent.
  - now intros [= <-].
Qed.

Lemma map_default_Forall {V} (P : V -> Prop) (m : gmap string (list V)) key :
  (forall v, m !! key = Some v -> Forall P v) ->
  Forall P (default [] (m !! key)).
Proof. destruct (m !! key); cbn; auto. Qed.

Lemma fmap_omap_sublist {A B C} (f : B -> C) (g : A -> option B) (h : A -> C)
    (l : list A) :
  (forall x y, g x = Some y -> f y = h x) ->
  (f <$> omap g l) `sublist_of` (h <$> l).
Proof.
  intros H. induction l as [|x l IH]; cbn; [constructor|].
  destruct (g x) as [y|] eqn:E; cbn.
  - rewrite (H x y E). now constructor.
  - now constructor.
Qed.

Lemma enumerate_snd {A} (l : list A) : (enumerate l).*2 = l.
Proof.
  unfold enumerate. rewrite fmap_imap.
  change (imap (fun (n : nat) => snd ∘ pair n) l)
    with (imap (fun (_ : nat) (x : A) => x) l).
  induction l as [|x l IH]; cbn; [done|]. f_equal. exact IH.
Qed.

Lemma for_each_fmap {W A B} (f : A -> M W B) (p : B -> A) (l : list A)
    w w' ys :
  (forall x w w' y, f x w = (w', Returns y) -> p y = x) ->
  for_each f l w = (w', Returns ys) -> p <$> ys = l.
Proof.
  intros Hf. revert w w' ys. induction l as [|x l IH]; intros w w' ys; cbn.
  - now intros [= _ <-].
  - intros H. apply bind_inv_returns in H as (w1 & y & Hy & H).
    apply bind_inv_returns in H as (w2 & ys' & Hrest & H).
    injection H as _ <-. cbn. f_equal; [eapply Hf, Hy|eapply IH, Hrest].
Qed.

Lemma for_each_Forall {W A B} (f : A -> M W B) (P : B -> Prop) (l : list A)
    w w' ys :
  (forall x w w' y, f x w = (w', Returns y) -> P y) ->
  for_each f l w = (w', Returns ys) -> Forall P ys.
Proof.
  intros Hf. revert w w' ys. induction l as [|x l IH]; intros w w' ys; cbn.
  - intros [= _ <-]. constructor.
  - intros H. apply bind_inv_returns in H as (w1 & y & Hy & H).
    apply bind_inv_returns in H as (w2 & ys' & Hrest & H).
    injection H as _ <-. constructor; [eapply Hf, Hy|eapply IH, Hrest].
Qed.

Lemma bind_length_le {A B C} (f : A -> list B) (g : A -> list C) (l : list A) :
  (forall x, length (f x) <= length (g x)) ->
  length (l ≫= f) <= length (l ≫= g).
Proof.
  intros H. induction l as [|x l IH]; csimpl; [done|].
  rewrite !length_app. specialize (H x). lia.
Qed.

(** X10.  In every record the joiner of the direct variant returns, the
    arguments follow the conclusions one to one and in order: the
    conclusion of the k-th argument is the k-th conclusion, whether or not
    the batch gave premises for it.  Every conclusion and every premise is
    a non-empty string with no white space at either end. *)
Theorem direct_batch_argument_per_conclusion :
  forall cfg results r,
    Direct._combine_results cfg = Ok results ->
    r ∈ results ->
    exists cs args,
      Direct.conclusions r = Some cs
      /\ Direct.arguments r = Some args
      /\ Direct.conclusion <$> args = cs
      /\ Forall tidy cs
      /\ Forall (fun a => Forall tidy (Direct.premises a)) args.
Proof.
  intros cfg results r (cm & pm & Hcm & Hpm & ->)%direct_combine_inv
         (i & article & -> & _)%elem_of_lookup_imap.
  destruct (direct_article_arguments cm pm (Direct.text_column cfg)
              (Direct.id_column cfg) i article) as [Hargs Hcs].
  eexists _, _. split; [exact Hcs|]. split; [exact Hargs|].
  split; [|split].
  - assert (forall (f : nat -> string -> Direct.argument) cs,
              (forall j c, Direct.conclusion (f j c) = c) ->
              Direct.conclusion <$> imap f cs = cs) as Hgen.
    { intros f cs. revert f.
      induction cs as [|c cs IH]; intros f Hf; cbn; [done|].
      rewrite Hf. f_equal. apply IH. intros j c'. apply Hf. }
    apply Hgen. reflexivity.
  - apply map_default_Forall. intros v Hv.
    apply (build_map_values Direct._parse_list_items (Forall tidy)
             _ _ _ _ (fun c _ => parse_list_items_tidy c) Hcm Hv).
  - apply list.Forall_forall. intros a (j & c & -> & _)%elem_of_lookup_imap.
    cbn. apply map_default_Forall. intros v Hv.
    apply (build_map_values Direct._parse_list_items (Forall tidy)
             _ _ _ _ (fun c _ => parse_list_items_tidy c) Hpm Hv).
Qed.

(** X11.  In every record the joiner of the question-answer variant
    returns, the questions of the arguments are a subsequence of the
    questions of the article (same order, unanswered questions left out),
    and every argument has an answer that is not empty and has no white
    space at either end, a claim with no white space at either end, and
    premises that are non-empty and stripped. *)
Theorem qa_batch_arguments_follow_questions :
  forall cfg results r,
    QA._combine_results cfg = Ok results ->
    r ∈ results ->
    exists qs args,
      QA.questions r = Some qs
      /\ QA.arguments r = Some args
      /\ (QA.question <$> args) `sublist_of` qs
      /\ Forall tidy qs
      /\ Forall (fun a => tidy (QA.answer a)
                          /\ PyStr.strip (QA.claim a) = QA.claim a
                          /\ Forall tidy (QA.premises a)) args.
Proof.
  intros cfg results r (qm & am & gm & Hqm & Ham & Hgm & ->)%qa_combine_inv
         (i & article & -> & _)%elem_of_lookup_imap.
  destruct (qa_article_arguments qm am gm (QA.text_column cfg)
              (QA.id_column cfg) i article) as [Hargs Hqs].
  eexists _, _. split; [exact Hqs|]. split; [exact Hargs|].
  split; [|split].
  - rewrite <- (enumerate_snd (default [] (qm !! QA.q_key i))) at 2.
    apply fmap_omap_sublist. intros [j q] a. cbn.
    destruct (QA.truthy_answer _ _); [|discriminate].
    destruct (gm !! _); [|discriminate]. now intros [= <-].
  - apply map_default_Forall. intros v Hv.
    apply (build_map_values QA._parse_questions (Forall tidy)
             _ _ _ _ (fun c _ => parse_questions_tidy c) Hqm Hv).
  - apply list.Forall_forall. intros a ([j q] & _ & Ha)%list_elem_of_omap.
    cbn in Ha.
    destruct (QA.truthy_answer am (QA.qa_key i j)) as [ans|] eqn:Hans;
      [|discriminate].
    destruct (gm !! QA.arg_key i j) as [arg|] eqn:Harg; [|discriminate].
    injection Ha as <-. cbn.
    apply truthy_answer_Some in Hans as [Hans Hne].
    split; [split; [exact Hne|]|].
    + destruct (build_map_lookup_origin _ _ _ _ _ Ham Hans)
        as (record & c & _ & (_ & Hc & _) & ->).
      eapply extract_batch_result_stripped, Hc.
    + apply (build_map_values QA._parse_argument
               (fun v => PyStr.strip (QA.pa_claim v) = QA.pa_claim v
                         /\ Forall tidy (QA.pa_premises v))
               _ _ _ _ (fun c _ => parse_argument_tidy c) Hgm Harg).
Qed.

(** X12.  A record [process_single] of the direct variant returns is of
    one of two kinds.  With [success] set it has one argument for every
    conclusion, in order, every conclusion and premise non-empty and
    stripped, and no error message.  Without it, it has an error message
    and no arguments at all: the arguments built before the failure are
    dropped. *)
Theorem direct_single_argument_per_conclusion :
  forall {W} (client : OpenAICalls.Service W) model cprompt pprompt
         text id w w' r,
    Direct.process_single client model cprompt pprompt text id w
      = (w', Returns r) ->
    if Direct.success r then
      exists cs args,
        Direct.conclusions r = Some cs
        /\ Direct.arguments r = Some args
        /\ Direct.conclusion <$> args = cs
        /\ Forall tidy cs
        /\ Forall (fun a => Forall tidy (Direct.premises a)) args
        /\ Direct.error_message r = None
    else
      Direct.arguments r = None /\ is_Some (Direct.error_message r).
Proof.
  intros W client model cprompt pprompt text id w w' r Hrun.
  pose proof (direct_process_single_spec client model cprompt pprompt
                text id w) as Hspec.
  destruct (direct_try_block client model cprompt pprompt text w)
    as [w1 [[found args]|e|]] eqn:Htry; [| |done].
  - rewrite Hspec in Hrun. injection Hrun as _ <-. cbn.
    unfold direct_try_block in Htry.
    apply bind_inv_returns in Htry as (w2 & found' & Hfound & Htry).
    apply bind_inv_returns in Htry as (w3 & args' & Hargs & Htry).
    injection Htry as _ <- <-.
    exists found', args'. repeat split.
    + eapply for_each_fmap, Hargs. clear. intros x w w' y H.
      apply bind_inv_returns in H as (w1 & ps & _ & H).
      now injection H as _ <-.
    + unfold Direct.extract_conclusions in Hfound.
      apply bind_inv_returns in Hfound as (w4 & response & _ & H).
      injection H as _ <-. apply parse_list_items_tidy.
    + eapply for_each_Forall, Hargs. clear. intros x w w' y H.
      apply bind_inv_returns in H as (w1 & ps & Hps & H).
      injection H as _ <-. cbn. unfold Direct.extract_premises in Hps.
      apply bind_inv_returns in Hps as (w4 & response & _ & H).
      injection H as _ <-. apply parse_list_items_tidy.
  - destruct (Direct.handled e).
    + destruct Hspec as (r0 & Hr0 & _ & _ & Hargs & Hs & Hmsg).
      rewrite Hr0 in Hrun. injection Hrun as _ <-.
      rewrite Hs. split; [exact Hargs|]. rewrite Hmsg. eauto.
    + rewrite Hspec in Hrun. discriminate.
Qed.

(** X13.  A record [process_single] of the question-answer variant returns
    is of one of two kinds.  With [success] set it has one argument for
    every question, in order (also for a question whose answer came back
    empty, which the batch path would leave out), the answer of each
    argument is what the client returned, and there is no error message.
    Without it, it has an error message and no arguments at all. *)
Theorem qa_single_argument_per_question :
  forall {W} (client : OpenAICalls.Service W) model qprompt aprompt gprompt
         text id w w' r,
    QA.process_single client model qprompt aprompt gprompt text id w
      = (w', Returns r) ->
    if QA.success r then
      exists qs args,
        QA.questions r = Some qs
        /\ QA.arguments r = Some args
        /\ QA.question <$> args = qs
        /\ Forall tidy qs
        /\ Forall (fun a => PyStr.strip (QA.claim a) = QA.claim a
                            /\ Forall tidy (QA.premises a)) args
        /\ QA.error_message r = None
    else
      QA.arguments r = None /\ is_Some (QA.error_message r).
Proof.
  intros W client model qprompt aprompt gprompt text id w w' r Hrun.
  pose proof (qa_process_single_spec client model qprompt aprompt gprompt
                text id w) as Hspec.
  destruct (qa_try_block client model qprompt aprompt gprompt text w)
    as [w1 [[found args]|e|]] eqn:Htry; [| |done].
  - rewrite Hspec in Hrun. injection Hrun as _ <-. cbn.
    unfold qa_try_block in Htry.
    apply bind_inv_returns in Htry as (w2 & found' & Hfound & Htry).
    apply bind_inv_returns in Htry as (w3 & args' & Hargs & Htry).
    injection Htry as _ <- <-.
    exists found', args'. repeat split.
    + eapply for_each_fmap, Hargs. clear. intros x w w' y H.
      apply bind_inv_returns in H as (w1 & ans & _ & H).
      apply bind_inv_returns in H as (w2 & arg & _ & H).
      now injection H as _ <-.
    + unfold QA.extract_questions in Hfound.
      apply bind_inv_returns in Hfound as (w4 & response & _ & H).
      injection H as _ <-. apply parse_questions_tidy.
    + eapply for_each_Forall, Hargs. clear. intros x w w' y H.
      apply bind_inv_returns in H as (w1 & ans & _ & H).
      apply bind_inv_returns in H as (w2 & arg & Harg & H).
      injection H as _ <-. cbn. unfold QA.construct_argument in Harg.
      apply bind_inv_returns in Harg as (w4 & response & _ & H).
      injection H as _ <-. apply parse_argument_tidy.
  - destruct (QA.handled e).
    + destruct Hspec as (r0 & Hr0 & _ & _ & Hargs & Hs & Hmsg).
      rewrite Hr0 in Hrun. injection Hrun as _ <-.
      rewrite Hs. split; [exact Hargs|]. rewrite Hmsg. eauto.
    + rewrite Hspec in Hrun. discriminate.
Qed.

Lemma direct_batch_argument_per_conclusion_witness :
  match Direct._combine_results Scenario.partial_direct with
  | Ok (r :: _) =>
      exists cs args,
        Direct.conclusions r = Some cs
        /\ Direct.arguments r = Some args
        /\ Direct.conclusion <$> args = cs
        /\ Forall tidy cs
        /\ Forall (fun a => Forall tidy (Direct.premises a)) args
  | _ => False
  end.
Proof.
  destruct (Direct._combine_results Scenario.partial_direct)
    as [[|r results]|] eqn:E; try (vm_compute in E; discriminate).
  apply (direct_batch_argument_per_conclusion
           Scenario.partial_direct (r :: results) r E). left.
Defined.

Lemma qa_batch_arguments_follow_questions_witness :
  match QA._combine_results ScenarioB.config with
  | Ok (r :: _) =>
      exists qs args,
        QA.questions r = Some qs
        /\ QA.arguments r = Some args
        /\ (QA.question <$> args) `sublist_of` qs
        /\ Forall tidy qs
        /\ Forall (fun a => tidy (QA.answer a)
                            /\ PyStr.strip (QA.claim a) = QA.claim a
                            /\ Forall tidy (QA.premises a)) args
  | _ => False
  end.
Proof.
  destruct (QA._combine_results ScenarioB.config)
    as [[|r results]|] eqn:E; try (vm_compute in E; discriminate).
  apply (qa_batch_arguments_follow_questions
           ScenarioB.config (r :: results) r E). left.
Defined.

Lemma direct_single_argument_per_conclusion_witness :
  match ScenarioSingle.direct_run with
  | (_, Returns r) =>
      Direct.success r = true
      /\ exists cs args,
           Direct.conclusions r = Some cs
           /\ Direct.arguments r = Some args
           /\ Direct.conclusion <$> args = cs
           /\ Forall tidy cs
           /\ Forall (fun a => Forall tidy (Direct.premises a)) args
           /\ Direct.error_message r = None
  | _ => False
  end.
Proof.
  unfold ScenarioSingle.direct_run.
  destruct (Direct.process_single _ _ _ _ _ _ _) as [w' [r| |]] eqn:E;
    [|vm_compute in E; discriminate..].
  pose proof (direct_single_argument_per_conclusion
                Scenario.service "gpt-4o-mini" Scenario.prompt1
                Scenario.prompt2 "First text." (JStr "a1")
                ScenarioSingle.direct_start w' r E) as H.
  assert (Direct.success r = true) as Hs
    by (vm_compute in E; injection E as _ <-; reflexivity).
  rewrite Hs in H. split; [exact Hs|exact H].
Defined.

Lemma qa_single_argument_per_question_witness :
  match ScenarioTwelve.single_run with
  | (_, Returns r) =>
      QA.success r = true
      /\ exists qs args,
           QA.questions r = Some qs
           /\ QA.arguments r = Some args
           /\ QA.question <$> args = qs
           /\ Forall tidy qs
           /\ Forall (fun a => PyStr.strip (QA.claim a) = QA.claim a
                               /\ Forall tidy (QA.premises a)) args
           /\ QA.error_message r = None
  | _ => False
  end.
Proof.
  unfold ScenarioTwelve.single_run.
  destruct (QA.process_single _ _ _ _ _ _ _ _) as [w' [r| |]] eqn:E;
    [|vm_compute in E; discriminate..].
  pose proof (qa_single_argument_per_question
                Scenario.service "gpt-4o-mini" Scenario.prompt1
                Scenario.prompt2' Scenario.prompt3 "First text." (JStr "a1")
                ScenarioTwelve.single_start w' r E) as H.
  assert (QA.success r = true) as Hs
    by (vm_compute in E; injection E as _ <-; reflexivity).
  rewrite Hs in H. split; [exact Hs|exact H].
Defined.

(** X14.  A request of a later phase is always about an item of an earlier
    one: a phase-2 request keyed with the indices [i], [j] comes with a
    phase-1 request keyed with [i], a phase-3 request keyed [arg_i_j] with
    a phase-2 request keyed [qa_i_j]; so phase 3 never has more requests
    than phase 2. *)
Theorem later_requests_follow_earlier_ones :
  forall model tc articles,
    (forall cprompt pprompt cm r2,
       r2 ∈ Direct.phase2_requests model pprompt articles cm tc ->
       exists i j r1,
         OpenAICalls.custom_id r2 = Direct.p_key i j
         /\ r1 ∈ Direct.phase1_requests model cprompt articles tc
         /\ OpenAICalls.custom_id r1 = Direct.c_key i)
    /\ (forall qprompt aprompt qm r2,
          r2 ∈ QA.phase2_requests model aprompt articles qm tc ->
          exists i j r1,
            OpenAICalls.custom_id r2 = QA.qa_key i j
            /\ r1 ∈ QA.phase1_requests model qprompt articles tc
            /\ OpenAICalls.custom_id r1 = QA.q_key i)
    /\ (forall aprompt gprompt qm am r3,
          r3 ∈ QA.phase3_requests model gprompt articles qm am tc ->
          exists i j r2,
            OpenAICalls.custom_id r3 = QA.arg_key i j
            /\ r2 ∈ QA.phase2_requests model aprompt articles qm tc
            /\ OpenAICalls.custom_id r2 = QA.qa_key i j)
    /\ (forall aprompt gprompt qm am,
          length (QA.phase3_requests model gprompt articles qm am tc)
          <= length (QA.phase2_requests model aprompt articles qm tc)).
Proof.
  intros model tc articles. split; [|split; [|split]].
  - intros cprompt pprompt cm r2
      (i & j & article & text & c & Hi & Ht & _ & ->)%direct_phase2_requests_spec.
    exists i, j, (OpenAICalls.build_batch_request (Direct.c_key i)
                    (cprompt text) model (1 # 10)%Q).
    split; [reflexivity|]. split; [|reflexivity].
    apply direct_phase1_requests_spec. exists i, article, text. auto.
  - intros qprompt aprompt qm r2
      (i & j & article & text & q & Hi & Ht & _ & ->)%qa_phase2_requests_spec.
    exists i, j, (OpenAICalls.build_batch_request (QA.q_key i)
                    (qprompt text) model (1 # 10)%Q).
    split; [reflexivity|]. split; [|reflexivity].
    apply qa_phase1_requests_spec. exists i, article, text. auto.
  - intros aprompt gprompt qm am r3
      (i & j & article & q & a & Hi & [text Ht] & Hq & _ & ->)%qa_phase3_requests_spec.
    exists i, j, (OpenAICalls.build_batch_request (QA.qa_key i j)
                    (aprompt q text) model (1 # 10)%Q).
    split; [reflexivity|]. split; [|reflexivity].
    apply qa_phase2_requests_spec. exists i, j, article, text, q. auto.
  - intros aprompt gprompt qm am.
    unfold QA.phase3_requests, QA.phase2_requests.
    apply bind_length_le. intros [i article].
    destruct (article !! tc); [|done].
    etransitivity; [apply omap_length_le|].
    now rewrite length_enumerate, length_imap.
Qed.

(** ** The rows of the CSV file *)

Section CsvFacts.
Import OutputFormatter Main.

(** ** Loops that collect *)

Lemma for_fold_collect {A B} (f : A -> res (list B)) (l : list A)
    (acc r : list B) :
  for_fold (fun rows x => (new <-? f x; Ok (rows ++ new))%res) acc l = Ok r
  <-> exists yss, Forall2 (fun x ys => f x = Ok ys) l yss
                  /\ r = acc ++ mjoin yss.
Proof.
  revert acc. induction l as [|x l IH]; intros acc; cbn.
  - split.
    + intros [= <-]. exists []. split; [constructor|].
      cbn. now rewrite app_nil_r.
    + intros (yss & ->%Forall2_nil_inv_l & ->). cbn. now rewrite app_nil_r.
  - destruct (f x) as [ys|e] eqn:E; cbn.
    + rewrite IH. split.
      * intros (yss & H & ->). exists (ys :: yss). split; [now constructor|].
        cbn. now rewrite app_assoc.
      * intros (yss & (ys' & yss' & Hy & H & ->)%Forall2_cons_inv_l & ->).
        assert (ys' = ys) as -> by congruence.
        exists yss'. split; [done|]. cbn. now rewrite app_assoc.
    + split; [discriminate|].
      intros (yss & (ys' & yss' & Hy & _)%Forall2_cons_inv_l & _).
      congruence.
Qed.

Lemma for_fold_collect1 {A B} (f : A -> res B) (l : list A) (acc r : list B) :
  for_fold (fun rows x => (new <-? f x; Ok (rows ++ [new]))%res) acc l = Ok r
  <-> exists ys, Forall2 (fun x y => f x = Ok y) l ys /\ r = acc ++ ys.
Proof.
  revert acc. induction l as [|x l IH]; intros acc; cbn.
  - split.
    + intros [= <-]. exists []. split; [constructor|]. now rewrite app_nil_r.
    + intros (ys & ->%Forall2_nil_inv_l & ->). now rewrite app_nil_r.
  - destruct (f x) as [y|e] eqn:E; cbn.
    + rewrite IH. split.
      * intros (ys & H & ->). exists (y :: ys). split; [now constructor|].
        now rewrite <- app_assoc.
      * intros (ys & (y' & ys' & Hy & H & ->)%Forall2_cons_inv_l & ->).
        assert (y' = y) as -> by congruence.
        exists ys'. split; [done|]. now rewrite <- app_assoc.
    + split; [discriminate|].
      intros (ys & (y' & ys' & Hy & _)%Forall2_cons_inv_l & _). congruence.
Qed.

Lemma enumerate_snoc {A} (l : list A) x :
  enumerate (l ++ [x]) = enumerate l ++ [(length l, x)].
Proof.
  unfold enumerate. rewrite imap_app. cbn. now rewrite Nat.add_0_r.
Qed.

(** ** The premise columns *)

Lemma fill_premise_cols {A} (cols l : list A) :
  length l <= length cols ->
  for_fold (fun cols '(i, premise) => list_setitem cols i premise)
    cols (enumerate l)
  = Ok (l ++ drop (length l) cols).
Proof.
  induction l as [|x l IH] using rev_ind; intros Hlen.
  - cbn. now rewrite drop_0.
  - rewrite length_app in Hlen. cbn in Hlen.
    rewrite enumerate_snoc, for_fold_app, IH by lia. cbn.
    unfold list_setitem. rewrite length_app, length_drop.
    rewrite decide_True by lia. f_equal.
    rewrite insert_app_r_alt by lia. rewrite Nat.sub_diag.
    rewrite <- app_assoc. f_equal. rewrite length_app. cbn.
    destruct (drop (length l) cols) as [|c rest] eqn:E.
    + apply (f_equal length) in E. rewrite length_drop in E. cbn in E. lia.
    + cbn. f_equal. rewrite Nat.add_1_r.
      assert (drop (S (length l)) cols = drop 1 (drop (length l) cols))
        as -> by (rewrite drop_drop; f_equal; lia).
      now rewrite E.
Qed.

Lemma of_nat_inj i j : PyStr.of_nat i = PyStr.of_nat j -> i = j.
Proof.
  intros H. apply (f_equal parse_index) in H.
  rewrite !parse_index_of_nat in H. congruence.
Qed.

Lemma premise_key_inj i j : premise_key i = premise_key j -> i = j.
Proof.
  unfold premise_key. rewrite !string_app_cons, !string_app_nil_l.
  intros H. assert (PyStr.of_nat (i + 1) = PyStr.of_nat (j + 1)) as E
    by congruence.
  apply of_nat_inj in E. lia.
Qed.

Ltac in_base_fields := unfold base_fields; repeat constructor.

Lemma premise_key_not_base i : premise_key i ∉ base_fields.
Proof.
  unfold premise_key, base_fields.
  rewrite !string_app_cons, !string_app_nil_l.
  intros H. repeat (apply elem_of_cons in H as [H|H]; [discriminate|]).
  now apply not_elem_of_nil in H.
Qed.

Lemma insert_fold_dom (key : nat -> string) (v : nat -> json)
    (l : list nat) (row : gmap string json) :
  dom (foldl (fun row i => <[key i := v i]> row) row l)
  = dom row ∪ list_to_set (key <$> l).
Proof.
  revert row. induction l as [|i l IH]; intros row; cbn.
  - now rewrite (right_id_L ∅ (∪)).
  - rewrite IH, dom_insert_L.
    rewrite (comm_L (∪) {[key i]} (dom row)). now rewrite (assoc_L (∪)).
Qed.

Lemma insert_fold_other (key : nat -> string) (v : nat -> json)
    (l : list nat) (row : gmap string json) k :
  k ∉ key <$> l ->
  foldl (fun row i => <[key i := v i]> row) row l !! k = row !! k.
Proof.
  revert row. induction l as [|i l IH]; intros row; cbn; [done|].
  intros [Hne Hk]%not_elem_of_cons.
  rewrite IH by done. now rewrite lookup_insert_ne.
Qed.

Lemma insert_fold_at (key : nat -> string) (v : nat -> json)
    (l : list nat) (row : gmap string json) i :
  (forall a b, key a = key b -> a = b) ->
  i ∈ l ->
  foldl (fun row i => <[key i := v i]> row) row l !! key i = Some (v i).
Proof.
  intros Hinj. revert row.
  induction l as [|j l IH]; intros row; [now intros ?%not_elem_of_nil|].
  cbn. destruct (decide (i ∈ l)) as [Hin|Hnot]; [intros _; now apply IH|].
  intros [->|?]%elem_of_cons; [|done].
  rewrite insert_fold_other.
  - apply lookup_insert_eq.
  - intros (a & Ha%Hinj & Hl)%list_elem_of_fmap. now subst.
Qed.

Lemma getitem_fold (cols : list json) (l : list nat)
    (row row' : gmap string json) :
  for_fold
    (fun row i =>
       (v <-? list_getitem cols i; Ok (<[premise_key i := v]> row))%res)
    row l = Ok row' ->
  row' = foldl (fun row i =>
                  <[premise_key i := default (JStr "") (cols !! i)]> row)
           row l.
Proof.
  revert row. induction l as [|i l IH]; intros row; cbn.
  - now intros [= <-].
  - unfold list_getitem at 1. destruct (cols !! i) as [v|]; [|discriminate].
    cbn. apply IH.
Qed.

Lemma getitem_fold_ok (cols : list json) (l : list nat)
    (row : gmap string json) :
  (forall i, i ∈ l -> i < length cols) ->
  exists row',
    for_fold
      (fun row i =>
         (v <-? list_getitem cols i; Ok (<[premise_key i := v]> row))%res)
      row l = Ok row'.
Proof.
  revert row. induction l as [|i l IH]; intros row Hl; cbn; [eauto|].
  unfold list_getitem at 1.
  destruct (lookup_lt_is_Some_2 cols i) as [v ->]; [apply Hl; left|].
  cbn. apply IH. intros j Hj. apply Hl. now right.
Qed.

Lemma fieldnames_set max_premises :
  (list_to_set (fieldnames max_premises) : gset string)
  = list_to_set base_fields
    ∪ list_to_set (premise_key <$> seq 0 max_premises).
Proof. unfold fieldnames. now rewrite list_to_set_app_L. Qed.

Lemma empty_row_dom data max_premises :
  dom (_create_empty_row data max_premises)
  = list_to_set (fieldnames max_premises).
Proof.
  unfold _create_empty_row.
  rewrite (insert_fold_dom premise_key (fun _ => JStr "")).
  rewrite fieldnames_set. f_equal.
Qed.

Lemma empty_row_base data max_premises k :
  k ∈ base_fields ->
  _create_empty_row data max_premises !! k
  = (<["premises_concatenated" := JStr ""]>
    (<["premises_count" := int 0]>
    (<["claim" := JStr ""]>
    (<["answer" := JStr ""]>
    (<["question" := JStr ""]>
    (<["argument_index" := JStr ""]>
    (<["error_message" := error_message data]>
    (<["success" := success data]>
    (<["text" := text data]>
    (<["article_id" := article_id data]> (∅ : gmap string json)))))))))))
    !! k.
Proof.
  intros Hk. unfold _create_empty_row.
  apply (insert_fold_other premise_key (fun _ => JStr "")).
  intros (i & -> & _)%list_elem_of_fmap.
  now apply (premise_key_not_base i).
Qed.

Lemma premise_cols_lookup (items : list json) max_premises k :
  k < max_premises ->
  (take max_premises items
   ++ drop (length (take max_premises items))
        (replicate max_premises (JStr ""))) !! k
  = Some (premise_cell items k).
Proof.
  intros Hk. unfold premise_cell.
  destruct (decide (k < length (take max_premises items))) as [Hlt|Hge].
  - rewrite lookup_app_l by done. rewrite lookup_take_lt by done.
    destruct (lookup_lt_is_Some_2 items k) as [v ->]; [|done].
    rewrite length_take in Hlt. lia.
  - rewrite lookup_app_r by lia. rewrite lookup_drop.
    rewrite lookup_replicate_2 by lia.
    rewrite length_take in Hge.
    rewrite (lookup_ge_None_2 items k) by lia. done.
Qed.

Lemma premise_cols_length (items : list json) max_premises :
  length (take max_premises items
          ++ drop (length (take max_premises items))
               (replicate max_premises (JStr ""))) = max_premises.
Proof.
  rewrite length_app, length_drop, length_replicate, length_take. lia.
Qed.

Section RowFacts.
Variable dict_slice_error : exn.

Lemma argument_row_inv data i argument max_premises row :
  _create_argument_row dict_slice_error data i argument max_premises = Ok row ->
  exists d items strs,
    argument = JObj d
    /\ sliceable dict_slice_error (Py.dict_get d "premises" (JArr []))
       = Ok items
    /\ strings_of items = Ok strs
    /\ dom row = list_to_set (fieldnames max_premises).
Proof.
  unfold _create_argument_row.
  destruct argument as [| | | | |d]; try discriminate. cbn -[fieldnames].
  destruct (sliceable _ _) as [items|] eqn:Hitems; [|discriminate]. cbn -[fieldnames].
  rewrite fill_premise_cols
    by (rewrite length_take, length_replicate; lia). cbn -[fieldnames].
  destruct (strings_of items) as [strs|] eqn:Hstrs; [|discriminate]. cbn -[fieldnames].
  intros ->%getitem_fold. exists d, items, strs.
  split; [done|]. split; [done|]. split; [done|].
  rewrite insert_fold_dom, fieldnames_set. f_equal.
Qed.

Lemma argument_row_spec data i (d : gmap string json) max_premises
    items strs :
  sliceable dict_slice_error (Py.dict_get d "premises" (JArr [])) = Ok items ->
  strings_of items = Ok strs ->
  exists row,
    _create_argument_row dict_slice_error data i (JObj d) max_premises = Ok row
    /\ (forall k,
          k ∈ base_fields ->
          row !! k
          = row_literal data (int (i + 1))
              (Py.dict_get d "question" (JStr ""))
              (Py.dict_get d "answer" (JStr ""))
              (Py.dict_get d "claim" (JStr ""))
              (int (length items))
              (JStr (String.concat " | " strs)) !! k)
    /\ (forall k,
          k < max_premises ->
          row !! premise_key k = Some (premise_cell items k)).
Proof.
  intros Hitems Hstrs. unfold _create_argument_row. cbn.
  rewrite Hitems. cbn.
  rewrite fill_premise_cols
    by (rewrite length_take, length_replicate; lia). cbn.
  rewrite Hstrs. cbn.
  match goal with
  | |- exists row, for_fold ?f ?r ?l = Ok row /\ _ =>
      destruct (getitem_fold_ok
                  (take max_premises items
                   ++ drop (length (take max_premises items))
                        (replicate max_premises (JStr "")))
                  l r) as [row Hrow]
  end.
  { intros k Hk%elem_of_seq. rewrite premise_cols_length. lia. }
  exists row. split; [exact Hrow|].
  apply getitem_fold in Hrow. subst row. split.
  - intros k Hk.
    rewrite insert_fold_other; [done|].
    intros (j & -> & _)%list_elem_of_fmap.
    now apply (premise_key_not_base j).
  - intros k Hk.
    rewrite insert_fold_at;
      [|apply premise_key_inj|apply elem_of_seq; lia].
    now rewrite premise_cols_lookup.
Qed.

End RowFacts.

Lemma for_fold_ext {A B} (f g : B -> A -> res B) (l : list A) (b : B) :
  (forall b a, f b a = g b a) -> for_fold f b l = for_fold g b l.
Proof.
  intros H. revert b. induction l as [|x l IH]; intros b; cbn; [done|].
  rewrite H. destruct (g b x); cbn; auto.
Qed.

Lemma strings_of_strs (l : list string) : strings_of (JStr <$> l) = Ok l.
Proof. induction l as [|s l IH]; cbn; [done|]. now rewrite IH. Qed.

Lemma Forall2_total {A B} (f : A -> res B) (l : list A) :
  (forall x, x ∈ l -> exists y, f x = Ok y) ->
  exists ys, Forall2 (fun x y => f x = Ok y) l ys.
Proof.
  induction l as [|x l IH]; intros H; [exists []; constructor|].
  destruct (H x) as [y Hy]; [left|].
  destruct IH as [ys Hys]; [intros z Hz; apply H; now right|].
  exists (y :: ys). now constructor.
Qed.

Section FlattenFacts.
Variable dict_slice_error : exn.

Lemma article_rows_arguments article max_premises l :
  Py.dict_get article "arguments" (JArr []) = JArr l ->
  l <> [] ->
  forall rows,
    article_rows dict_slice_error article max_premises = Ok rows <->
    Forall2
      (fun '(i, argument) row =>
         _create_argument_row dict_slice_error
           {| article_id := Py.dict_get article "article_id" (JStr "");
              text := Py.dict_get article "text" (JStr "");
              success := Py.dict_get article "success" (JBool false);
              error_message := Py.dict_get article "error_message" (JStr "") |}
           i argument max_premises = Ok row)
      (enumerate l) rows.
Proof.
  intros Hargs Hne rows. unfold article_rows. rewrite Hargs.
  destruct l as [|a l]; [done|]. cbn [Py.truthy negb].
  set (data := mkArticleData _ _ _ _).
  rewrite (for_fold_ext _
             (fun rows x =>
                (new <-? (fun x : nat * json =>
                            _create_argument_row dict_slice_error data
                              x.1 x.2 max_premises) x;
                 Ok (rows ++ [new]))%res))
    by (now intros b [i x]).
  rewrite for_fold_collect1. split.
  - intros (ys & H & ->). cbn.
    eapply list.Forall2_impl; [exact H|]. now intros [i x] y.
  - intros H. exists rows. split; [|done].
    eapply list.Forall2_impl; [exact H|]. now intros [i x] y.
Qed.

Lemma article_rows_no_arguments article max_premises :
  Py.truthy (Py.dict_get article "arguments" (JArr [])) = false ->
  article_rows dict_slice_error article max_premises
  = Ok [_create_empty_row
          {| article_id := Py.dict_get article "article_id" (JStr "");
             text := Py.dict_get article "text" (JStr "");
             success := Py.dict_get article "success" (JBool false);
             error_message := Py.dict_get article "error_message" (JStr "") |}
          max_premises].
Proof. intros H. unfold article_rows. now rewrite H. Qed.

Lemma article_rows_dom article max_premises rows row :
  article_rows dict_slice_error article max_premises = Ok rows ->
  row ∈ rows ->
  dom row = list_to_set (fieldnames max_premises).
Proof.
  destruct (Py.truthy (Py.dict_get article "arguments" (JArr []))) eqn:Ht.
  - destruct (Py.dict_get article "arguments" (JArr [])) as [| | | |l|] eqn:E;
      try (unfold article_rows; rewrite E, Ht; discriminate).
    intros H Hrow.
    assert (l <> []) as Hne by (intros ->; discriminate).
    apply (article_rows_arguments _ _ _ E Hne) in H.
    apply list_elem_of_lookup in Hrow as [k Hk].
    destruct (Forall2_lookup_r _ _ _ _ _ H Hk) as ([i a] & _ & Hrow).
    now apply argument_row_inv in Hrow as (d & items & strs & _ & _ & _ & Hd).
  - rewrite article_rows_no_arguments by done.
    intros [= <-] ->%list_elem_of_singleton. apply empty_row_dom.
Qed.

Lemma flatten_inv results max_premises rows :
  _flatten_results_for_csv dict_slice_error results max_premises = Ok rows <->
  exists rowss,
    Forall2
      (fun article rs =>
         article_rows dict_slice_error article max_premises = Ok rs)
      results rowss
    /\ rows = mjoin rowss.
Proof.
  unfold _flatten_results_for_csv.
  rewrite (for_fold_collect
             (fun article =>
                article_rows dict_slice_error article max_premises)).
  reflexivity.
Qed.

Lemma flatten_dom results max_premises rows row :
  _flatten_results_for_csv dict_slice_error results max_premises = Ok rows ->
  row ∈ rows ->
  dom row = list_to_set (fieldnames max_premises).
Proof.
  intros (rowss & H & ->)%flatten_inv
         (rs & Hrow & Hrs)%list_elem_of_join.
  apply list_elem_of_lookup in Hrs as [k Hk].
  destruct (Forall2_lookup_r _ _ _ _ _ H Hk) as (article & _ & Ha).
  eapply article_rows_dom; eauto.
Qed.

End FlattenFacts.

Lemma result_dict_data r :
  {| article_id := Py.dict_get (result_dict r) "article_id" (JStr "");
     text := Py.dict_get (result_dict r) "text" (JStr "");
     success := Py.dict_get (result_dict r) "success" (JBool false);
     error_message := Py.dict_get (result_dict r) "error_message" (JStr "") |}
  = article_data_of r.
Proof. destruct r; reflexivity. Qed.

Lemma result_dict_arguments r :
  Py.dict_get (result_dict r) "arguments" (JArr [])
  = match r with
    | OfQA r => list_or_none qa_argument (QA.arguments r)
    | OfDirect r => list_or_none direct_argument (Direct.arguments r)
    end.
Proof. destruct r; reflexivity. Qed.

Lemma result_dict_no_arguments r :
  argument_dicts r = [] ->
  Py.truthy (Py.dict_get (result_dict r) "arguments" (JArr [])) = false.
Proof.
  rewrite result_dict_arguments. destruct r as [r|r]; cbn.
  - destruct (QA.arguments r) as [[|a l]|]; cbn; done.
  - destruct (Direct.arguments r) as [[|a l]|]; cbn; done.
Qed.

Lemma result_dict_some_arguments r :
  argument_dicts r <> [] ->
  Py.dict_get (result_dict r) "arguments" (JArr [])
  = JArr (argument_dicts r).
Proof.
  rewrite result_dict_arguments. destruct r as [r|r]; cbn.
  - destruct (QA.arguments r) as [l|]; cbn; done.
  - destruct (Direct.arguments r) as [l|]; cbn; done.
Qed.

Lemma qa_argument_plain a : plain_argument (qa_argument a) (QA.premises a).
Proof. eexists. split; reflexivity. Qed.

Lemma direct_argument_plain a :
  plain_argument (direct_argument a) (Direct.premises a).
Proof. eexists. split; reflexivity. Qed.

Lemma argument_dicts_plain r a :
  a ∈ argument_dicts r -> exists premises, plain_argument a premises.
Proof.
  destruct r as [r|r]; cbn; intros (x & -> & _)%list_elem_of_fmap.
  - eexists. apply qa_argument_plain.
  - eexists. apply direct_argument_plain.
Qed.

Section ResultRows.
Variable dict_slice_error : exn.

Lemma plain_argument_row data i argument premises max_premises :
  plain_argument argument premises ->
  exists d row,
    argument = JObj d
    /\ _create_argument_row dict_slice_error data i argument max_premises
       = Ok row
    /\ (forall k,
          k ∈ base_fields ->
          row !! k
          = row_literal data (int (i + 1))
              (Py.dict_get d "question" (JStr ""))
              (Py.dict_get d "answer" (JStr ""))
              (Py.dict_get d "claim" (JStr ""))
              (int (length premises))
              (JStr (String.concat " | " premises)) !! k)
    /\ (forall k,
          k < max_premises ->
          row !! premise_key k
          = Some (JStr (default "" (premises !! k)))).
Proof.
  intros (d & -> & Hd).
  destruct (argument_row_spec dict_slice_error data i d max_premises
              (JStr <$> premises) premises)
    as (row & Hrow & Hbase & Hcols).
  { unfold Py.dict_get. now rewrite Hd. }
  { apply strings_of_strs. }
  exists d, row. split; [done|]. split; [done|]. split.
  - intros k Hk. rewrite (Hbase k Hk). now rewrite length_fmap.
  - intros k Hk. rewrite (Hcols k Hk). unfold premise_cell.
    rewrite list_lookup_fmap. now destruct (premises !! k).
Qed.

Lemma result_rows r max_premises :
  exists rows,
    article_rows dict_slice_error (result_dict r) max_premises = Ok rows
    /\ match argument_dicts r with
       | [] => rows = [_create_empty_row (article_data_of r) max_premises]
       | _ :: _ =>
           Forall2
             (fun '(i, argument) row =>
                _create_argument_row dict_slice_error (article_data_of r)
                  i argument max_premises = Ok row)
             (enumerate (argument_dicts r)) rows
       end.
Proof.
  destruct (argument_dicts r) as [|a l] eqn:E.
  - eexists. split; [|reflexivity].
    rewrite article_rows_no_arguments by now apply result_dict_no_arguments.
    now rewrite result_dict_data.
  - destruct (Forall2_total
                (fun x : nat * json =>
                   _create_argument_row dict_slice_error (article_data_of r)
                     x.1 x.2 max_premises)
                (enumerate (argument_dicts r))) as [rows Hrows].
    { intros [i x] Hx%elem_of_enumerate. cbn.
      destruct (argument_dicts_plain r x) as [ps Hps];
        [eapply list_elem_of_lookup_2, Hx|].
      destruct (plain_argument_row (article_data_of r) i x ps max_premises Hps)
        as (d & row & _ & Hrow & _). eauto. }
    assert (Forall2
              (fun '(i, argument) row =>
                 _create_argument_row dict_slice_error (article_data_of r)
                   i argument max_premises = Ok row)
              (enumerate (argument_dicts r)) rows) as Hrows'.
    { eapply list.Forall2_impl; [exact Hrows|]. now intros [i x] y. }
    exists rows. rewrite <- E. split; [|exact Hrows'].
    apply (article_rows_arguments dict_slice_error (result_dict r)
             max_premises (argument_dicts r)).
    + apply result_dict_some_arguments. now rewrite E.
    + now rewrite E.
    + now rewrite result_dict_data.
Qed.

Lemma result_rows_length r max_premises rows :
  article_rows dict_slice_error (result_dict r) max_premises = Ok rows ->
  length rows = Nat.max 1 (length (argument_dicts r)).
Proof.
  destruct (result_rows r max_premises) as (rows' & -> & H).
  intros [= <-]. destruct (argument_dicts r) as [|a l] eqn:E.
  - now subst.
  - apply Forall2_length in H. rewrite <- H, length_enumerate. cbn. lia.
Qed.

End ResultRows.

Lemma results_flatten dict_slice_error results max_premises :
  exists rowss,
    Forall2 (fun article rs =>
               article_rows dict_slice_error article max_premises = Ok rs)
      (_convert_results_to_dict results) rowss
    /\ _flatten_results_for_csv dict_slice_error
         (_convert_results_to_dict results) max_premises = Ok (mjoin rowss).
Proof.
  assert (exists rowss,
            Forall2 (fun article rs =>
                       article_rows dict_slice_error article max_premises
                       = Ok rs)
              (_convert_results_to_dict results) rowss) as [rowss Hrowss].
  { apply Forall2_total. intros x (r & -> & _)%list_elem_of_fmap.
    destruct (result_rows dict_slice_error r max_premises) as (rows & H & _).
    eauto. }
  exists rowss. split; [exact Hrowss|]. apply flatten_inv. eauto.
Qed.

(** X15.  The results of a run always flatten: whatever the result
    objects, [_flatten_results_for_csv] returns on the dicts
    [_convert_results_to_dict] makes of them.  An article gives one row
    for each of its arguments, and one row when it has none; every row
    has exactly the keys of the field names of [save_as_csv]. *)
Theorem csv_rows_of_results :
  forall dict_slice_error results max_premises,
    exists rows,
      _flatten_results_for_csv dict_slice_error
        (_convert_results_to_dict results) max_premises = Ok rows
      /\ length rows
         = sum_list ((fun r => Nat.max 1 (length (argument_dicts r)))
                       <$> results)
      /\ forall row,
           row ∈ rows -> dom row = list_to_set (fieldnames max_premises).
Proof.
  intros dse results max_premises.
  destruct (results_flatten dse results max_premises)
    as (rowss & Hrowss & Hflat).
  exists (mjoin rowss). split; [exact Hflat|]. split.
  - rewrite length_join. clear Hflat. unfold _convert_results_to_dict in *.
    revert rowss Hrowss. induction results as [|r results IH];
      intros rowss Hrowss; cbn in *.
    + now apply Forall2_nil_inv_l in Hrowss as ->.
    + apply Forall2_cons_inv_l in Hrowss as (rs & rowss' & Hr & H & ->).
      cbn. rewrite (IH _ H). f_equal.
      apply (result_rows_length dse r max_premises rs Hr).
  - intros row Hrow. eapply flatten_dom; eauto.
Qed.

Lemma dict_to_list_ok (names : list string) (row : gmap string json) :
  dom row = list_to_set names ->
  exists cells,
    _dict_to_list names row = Ok cells
    /\ Forall2 (fun name cell => row !! name = Some cell) names cells.
Proof.
  intros Hdom. unfold _dict_to_list.
  rewrite decide_True by (now rewrite Hdom).
  eexists. split; [reflexivity|].
  apply Forall2_fmap_r, Forall_Forall2_diag, list.Forall_forall.
  intros name Hname.
  assert (is_Some (row !! name)) as [v Hv].
  { apply elem_of_dom. rewrite Hdom. now apply elem_of_list_to_set. }
  unfold compose. now rewrite Hv.
Qed.

Section RowCases.
Variable dict_slice_error : exn.

Lemma result_row_cases r max_premises rows row :
  article_rows dict_slice_error (result_dict r) max_premises = Ok rows ->
  row ∈ rows ->
  (argument_dicts r = []
   /\ row = _create_empty_row (article_data_of r) max_premises)
  \/ (exists i argument,
        argument_dicts r !! i = Some argument
        /\ rows !! i = Some row
        /\ _create_argument_row dict_slice_error (article_data_of r)
             i argument max_premises = Ok row).
Proof.
  destruct (result_rows dict_slice_error r max_premises) as (rows' & -> & H).
  intros [= <-] Hrow. destruct (argument_dicts r) as [|a l] eqn:E.
  - left. subst rows'. now apply list_elem_of_singleton in Hrow.
  - right. rewrite <- E in *. clear E.
    apply list_elem_of_lookup in Hrow as [k Hk].
    destruct (Forall2_lookup_r _ _ _ _ _ H Hk) as ([i x] & Hx & Hrow).
    pose proof Hx as Hx'. apply list_elem_of_lookup_2 in Hx'.
    apply elem_of_enumerate in Hx'.
    assert (k = i) as ->.
    { unfold enumerate in Hx. rewrite list_lookup_imap in Hx.
      destruct (argument_dicts r !! k); cbn in Hx; congruence. }
    eauto.
Qed.

End RowCases.

(** X16.  Whatever dicts [_flatten_results_for_csv] is given, every row it
    returns has exactly the field names of [save_as_csv] as its keys: the
    writer of the file finds no key it does not know, and fills no cell
    for want of a key. *)
Theorem csv_rows_have_the_field_names :
  forall dict_slice_error results max_premises rows row,
    _flatten_results_for_csv dict_slice_error results max_premises = Ok rows ->
    row ∈ rows ->
    exists cells,
      _dict_to_list (fieldnames max_premises) row = Ok cells
      /\ Forall2 (fun name cell => row !! name = Some cell)
           (fieldnames max_premises) cells
      /\ length cells = 10 + max_premises.
Proof.
  intros dse results max_premises rows row Hrows Hrow.
  destruct (dict_to_list_ok (fieldnames max_premises) row)
    as (cells & Hcells & Hall).
  { eapply flatten_dom; eauto. }
  exists cells. split; [done|]. split; [done|].
  apply Forall2_length in Hall. rewrite <- Hall. unfold fieldnames.
  rewrite length_app, length_fmap, length_seq. reflexivity.
Qed.

(** X17.  The row of an argument has a column for each of the first
    [max_premises] premises, in order, and the empty string in the columns
    past the last premise.  The premises beyond [max_premises] are in no
    premise column; [premises_count] counts them all the same, and
    [premises_concatenated] holds them all.  [argument_index] counts from
    one. *)
Theorem argument_row_premise_columns :
  forall dict_slice_error data i argument premises max_premises,
    plain_argument argument premises ->
    exists row,
      _create_argument_row dict_slice_error data i argument max_premises
        = Ok row
      /\ row !! "argument_index" = Some (int (i + 1))
      /\ row !! "premises_count" = Some (int (length premises))
      /\ row !! "premises_concatenated"
         = Some (JStr (String.concat " | " premises))
      /\ (forall k,
            k < max_premises ->
            row !! premise_key k = Some (JStr (default "" (premises !! k))))
      /\ dom row = list_to_set (fieldnames max_premises).
Proof.
  intros dse data i argument premises max_premises Hplain.
  destruct (plain_argument_row dse data i argument premises max_premises
              Hplain) as (d & row & -> & Hrow & Hbase & Hcols).
  exists row. split; [exact Hrow|].
  split; [|split; [|split; [|split]]].
  - rewrite Hbase by in_base_fields. reflexivity.
  - rewrite Hbase by in_base_fields. reflexivity.
  - rewrite Hbase by in_base_fields. reflexivity.
  - exact Hcols.
  - now apply argument_row_inv in Hrow as (? & ? & ? & _ & _ & _ & Hd).
Qed.

Lemma direct_argument_row_ignores_conclusion dse data i a a' max_premises :
  Direct.premises a = Direct.premises a' ->
  _create_argument_row dse data i (direct_argument a) max_premises
  = _create_argument_row dse data i (direct_argument a') max_premises.
Proof. destruct a, a'. cbn. intros ->. reflexivity. Qed.

(** X18.  The conclusions of the direct variant never reach the CSV file:
    in every row made from a result of the direct variant, the columns
    [question], [answer] and [claim] hold the empty string, and the row of
    an argument is the same whatever its conclusion is. *)
Theorem direct_rows_have_no_conclusion :
  (forall dict_slice_error results max_premises rows row,
     _flatten_results_for_csv dict_slice_error
       (_convert_results_to_dict (OfDirect <$> results)) max_premises
       = Ok rows ->
     row ∈ rows ->
     row !! "question" = Some (JStr "")
     /\ row !! "answer" = Some (JStr "")
     /\ row !! "claim" = Some (JStr ""))
  /\ (forall dict_slice_error data i a a' max_premises,
        Direct.premises a = Direct.premises a' ->
        _create_argument_row dict_slice_error data i (direct_argument a)
          max_premises
        = _create_argument_row dict_slice_error data i (direct_argument a')
            max_premises).
Proof.
  split; [|intros; now apply direct_argument_row_ignores_conclusion].
  intros dse results max_premises rows row
         (rowss & H & ->)%flatten_inv (rs & Hrow & Hrs)%list_elem_of_join.
  apply list_elem_of_lookup in Hrs as [k Hk].
  destruct (Forall2_lookup_r _ _ _ _ _ H Hk) as (article & Ha & Hrows).
  unfold _convert_results_to_dict in Ha.
  rewrite <- list_fmap_compose, list_lookup_fmap in Ha.
  destruct (results !! k) as [r|]; [|discriminate].
  injection Ha as <-. cbn in Hrows.
  destruct (result_row_cases dse (OfDirect r) max_premises rs row Hrows Hrow)
    as [[_ ->]|(i & a & Ha & _ & Hcreate)].
  - rewrite !empty_row_base by in_base_fields.
    repeat split.
  - cbn in Ha. rewrite list_lookup_fmap in Ha.
    destruct (default [] (Direct.arguments r) !! i) as [x|]; [|discriminate].
    injection Ha as <-.
    destruct (plain_argument_row dse (article_data_of (OfDirect r)) i
                (direct_argument x) (Direct.premises x) max_premises
                (direct_argument_plain x))
      as (d & row' & [= <-] & Hrow' & Hbase & _).
    assert (row' = row) as -> by congruence.
    rewrite !Hbase by in_base_fields. repeat split.
Qed.

(** X19.  The rows of an article of the question-answer variant follow
    its arguments: the k-th row holds the question, the answer and the
    claim of the k-th argument, with [argument_index] k+1, next to the id,
    the text, the success flag and the error message of the article. *)
Theorem qa_rows_follow_the_arguments :
  forall dict_slice_error r args max_premises rows k a,
    QA.arguments r = Some args ->
    article_rows dict_slice_error (result_dict (OfQA r)) max_premises
      = Ok rows ->
    args !! k = Some a ->
    exists row,
      rows !! k = Some row
      /\ row !! "article_id" = Some (QA.article_id r)
      /\ row !! "text" = Some (QA.text r)
      /\ row !! "success" = Some (JBool (QA.success r))
      /\ row !! "error_message" = Some (str_or_none (QA.error_message r))
      /\ row !! "argument_index" = Some (int (k + 1))
      /\ row !! "question" = Some (JStr (QA.question a))
      /\ row !! "answer" = Some (JStr (QA.answer a))
      /\ row !! "claim" = Some (JStr (QA.claim a)).
Proof.
  intros dse r args max_premises rows k a Hargs Hrows Hk.
  destruct (result_rows dse (OfQA r) max_premises) as (rows' & Hrows' & H).
  assert (rows' = rows) as -> by congruence.
  cbn [argument_dicts] in H. rewrite Hargs in H. cbn [default] in H.
  destruct args as [|a0 args0] eqn:E; [done|]. rewrite <- E in *.
  assert (match qa_argument <$> args with
          | [] => False
          | _ :: _ =>
              Forall2
                (fun '(i, argument) row =>
                   _create_argument_row dse (article_data_of (OfQA r))
                     i argument max_premises = Ok row)
                (enumerate (qa_argument <$> args)) rows
          end) as H' by (subst args; exact H).
  clear H. destruct (qa_argument <$> args) as [|d0 ds] eqn:Ed;
    [done|]. rewrite <- Ed in H'. clear Ed E.
  assert (enumerate (qa_argument <$> args) !! k = Some (k, qa_argument a))
    as Hen.
  { unfold enumerate. rewrite list_lookup_imap, list_lookup_fmap, Hk.
    reflexivity. }
  destruct (Forall2_lookup_l _ _ _ _ _ H' Hen) as (row & Hrow & Hcreate).
  destruct (plain_argument_row dse (article_data_of (OfQA r)) k
              (qa_argument a) (QA.premises a) max_premises
              (qa_argument_plain a))
    as (d & row' & [= <-] & Hrow' & Hbase & _).
  assert (row' = row) as -> by congruence.
  exists row. split; [exact Hrow|].
  rewrite !Hbase by in_base_fields. repeat split.
Qed.

Lemma in_memory_row (names : list string) path (row : gmap string json)
    (w : gmap string (list (list json))) lines :
  dom row = list_to_set names ->
  w !! path = Some lines ->
  (do cells <- lift (_dict_to_list names row);
   perform (writerow ScenarioCsv.in_memory path cells))%io w
  = (<[path :=
         lines ++ [(fun name => default (JStr "") (row !! name)) <$> names]]>
       w,
     Returns tt).
Proof.
  intros Hdom Hw. unfold bind, _dict_to_list.
  rewrite decide_True by (now rewrite Hdom).
  cbn. now rewrite Hw.
Qed.

Lemma in_memory_rows (names : list string) path
    (rows : list (gmap string json))
    (w : gmap string (list (list json))) lines :
  (forall row, row ∈ rows -> dom row = list_to_set names) ->
  w !! path = Some lines ->
  exists done,
    for_each
      (fun row =>
         (do cells <- lift (_dict_to_list names row);
          perform (writerow ScenarioCsv.in_memory path cells))%io)
      rows w
    = (<[path :=
           lines
           ++ ((fun row =>
                  (fun name => default (JStr "") (row !! name)) <$> names)
                 <$> rows)]> w,
       Returns done).
Proof.
  revert w lines. induction rows as [|row rows IH]; intros w lines Hdom Hw.
  - exists []. cbn. unfold ret. rewrite app_nil_r.
    now rewrite insert_id.
  - cbn [for_each]. unfold bind at 1.
    rewrite (in_memory_row names path row w lines) by (auto; apply Hdom; left).
    destruct (IH (<[path := lines ++ [(fun name => default (JStr "")
                                         (row !! name)) <$> names]]> w)
                (lines ++ [(fun name => default (JStr "") (row !! name))
                             <$> names]))
      as [done Hdone].
    { intros r Hr. apply Hdom. now right. }
    { apply lookup_insert_eq. }
    exists (tt :: done). unfold bind at 1. rewrite Hdone. unfold ret.
    rewrite insert_insert_eq, <- app_assoc. reflexivity.
Qed.

(** X20.  [save_as_csv] with no results makes the directory and writes no
    file, not even a header.  With results of a run, on a file system
    that never fails, it returns, and the file holds the header and one
    line for each row of [_flatten_results_for_csv], every line with a
    cell for every field name, in the order of the header. *)
Theorem save_as_csv_writes_header_and_rows :
  (forall {W} (files : Files W) dict_slice_error output_path max_premises w,
     save_as_csv dict_slice_error files [] output_path max_premises w
     = match mkdir_parent files output_path w with
       | (w', Ok _) => (w', Returns tt)
       | (w', Err e) => (w', Raises e)
       end)
  /\ (forall dict_slice_error result results output_path max_premises w,
        exists rows,
          _flatten_results_for_csv dict_slice_error
            (_convert_results_to_dict (result :: results)) max_premises
            = Ok rows
          /\ save_as_csv dict_slice_error ScenarioCsv.in_memory
               (_convert_results_to_dict (result :: results))
               output_path max_premises w
             = (<[output_path :=
                    (JStr <$> fieldnames max_premises)
                    :: ((fun row =>
                           (fun name => default (JStr "") (row !! name))
                             <$> fieldnames max_premises) <$> rows)]> w,
                Returns tt)).
Proof.
  split.
  - intros W files dse path max_premises w.
    unfold save_as_csv, bind, perform.
    destruct (mkdir_parent files path w) as [w' [[]|e]]; reflexivity.
  - intros dse result results path max_premises w.
    destruct (results_flatten dse (result :: results) max_premises)
      as (rowss & Hall & Hrows).
    assert (forall row, row ∈ mjoin rowss ->
              dom row = list_to_set (fieldnames max_premises)) as Hdom
      by (intros row Hrow; eapply flatten_dom; eauto).
    assert (0 < length (mjoin rowss)) as Hlen.
    { cbn in Hall.
      apply Forall2_cons_inv_l in Hall as (rs & rowss' & Hr & _ & ->).
      apply result_rows_length in Hr. cbn. rewrite length_app. lia. }
    exists (mjoin rowss). split; [exact Hrows|].
    generalize dependent (mjoin rowss). clear rowss Hall. intros rows Hrows Hdom Hlen.
    unfold save_as_csv.
    rewrite (bind_returns _ _ w w tt) by reflexivity.
    rewrite Hrows.
    rewrite (bind_returns _ _ w w rows) by reflexivity.
    destruct rows as [|row rows]; [cbn in Hlen; lia|].
    rewrite (bind_returns _ _ w (<[path := []]> w) tt) by reflexivity.
    rewrite (bind_returns _ _ (<[path := []]> w)
               (<[path := [JStr <$> fieldnames max_premises]]>
                  (<[path := []]> w)) tt)
      by (unfold perform; cbn; now rewrite lookup_insert_eq).
    destruct (in_memory_rows (fieldnames max_premises) path (row :: rows)
                (<[path := [JStr <$> fieldnames max_premises]]>
                   (<[path := []]> w))
                [JStr <$> fieldnames max_premises] Hdom)
      as [done Hdone]; [apply lookup_insert_eq|].
    rewrite (bind_returns _ _ _ _ _ Hdone). unfold ret.
    now rewrite !insert_insert_eq.
Qed.

(** A computation gave a result of another shape than the equation [E]
    says: it is enough to compute the shape. *)
Ltac wrong_shape E :=
  apply (f_equal (fun r => match r with
                           | Ok [] => 0
                           | Ok (_ :: _) => 1
                           | Err _ => 2
                           end)) in E;
  vm_compute in E; discriminate E.

Lemma csv_rows_have_the_field_names_witness :
  match _flatten_results_for_csv ScenarioCsv.unhashable
          (_convert_results_to_dict
             [OfQA ScenarioCsv.qa_result; OfDirect ScenarioCsv.failed_result])
          5
  with
  | Ok (row :: rows) =>
      exists cells,
        _dict_to_list (fieldnames 5) row = Ok cells
        /\ Forall2 (fun name cell => row !! name = Some cell)
             (fieldnames 5) cells
        /\ length cells = 10 + 5
  | _ => False
  end.
Proof.
  destruct (_flatten_results_for_csv _ _ _) as [[|row rows]|] eqn:E;
    [wrong_shape E| |wrong_shape E].
  apply (csv_rows_have_the_field_names ScenarioCsv.unhashable
           (_convert_results_to_dict
              [OfQA ScenarioCsv.qa_result; OfDirect ScenarioCsv.failed_result])
           5 (row :: rows) row E).
  left.
Defined.

Lemma argument_row_premise_columns_witness :
  exists row,
    _create_argument_row ScenarioCsv.unhashable
      (article_data_of (OfQA ScenarioCsv.qa_result)) 1
      (qa_argument
         {| QA.question := "How?"; QA.answer := "Slowly.";
            QA.claim := "It takes time.";
            QA.premises := ["p1"; "p2"; "p3"; "p4"; "p5"; "p6"] |}) 5
      = Ok row
    /\ row !! "argument_index" = Some (int (1 + 1))
    /\ row !! "premises_count" = Some (int 6)
    /\ row !! "premises_concatenated"
       = Some (JStr "p1 | p2 | p3 | p4 | p5 | p6")
    /\ (forall k,
          k < 5 ->
          row !! premise_key k
          = Some (JStr (default "" (["p1"; "p2"; "p3"; "p4"; "p5"; "p6"] !! k))))
    /\ dom row = list_to_set (fieldnames 5).
Proof.
  apply (argument_row_premise_columns ScenarioCsv.unhashable
           (article_data_of (OfQA ScenarioCsv.qa_result)) 1
           (qa_argument
              {| QA.question := "How?"; QA.answer := "Slowly.";
                 QA.claim := "It takes time.";
                 QA.premises := ["p1"; "p2"; "p3"; "p4"; "p5"; "p6"] |})
           ["p1"; "p2"; "p3"; "p4"; "p5"; "p6"] 5).
  eexists. split; reflexivity.
Defined.

Lemma direct_rows_have_no_conclusion_witness :
  match _flatten_results_for_csv ScenarioCsv.unhashable
          (_convert_results_to_dict
             (OfDirect <$> [ScenarioCsv.direct_result;
                            ScenarioCsv.failed_result]))
          5
  with
  | Ok (row :: rows) =>
      row !! "question" = Some (JStr "")
      /\ row !! "answer" = Some (JStr "")
      /\ row !! "claim" = Some (JStr "")
  | _ => False
  end.
Proof.
  destruct (_flatten_results_for_csv _ _ _) as [[|row rows]|] eqn:E;
    [wrong_shape E| |wrong_shape E].
  apply (proj1 direct_rows_have_no_conclusion ScenarioCsv.unhashable
           [ScenarioCsv.direct_result; ScenarioCsv.failed_result]
           5 (row :: rows) row E).
  left.
Defined.

Lemma qa_rows_follow_the_arguments_witness :
  match article_rows ScenarioCsv.unhashable
          (result_dict (OfQA ScenarioCsv.qa_result)) 5
  with
  | Ok rows =>
      exists row,
        rows !! 1 = Some row
        /\ row !! "article_id" = Some (JStr "a1")
        /\ row !! "text" = Some (JStr "First text.")
        /\ row !! "success" = Some (JBool true)
        /\ row !! "error_message" = Some JNull
        /\ row !! "argument_index" = Some (int (1 + 1))
        /\ row !! "question" = Some (JStr "How?")
        /\ row !! "answer" = Some (JStr "Slowly.")
        /\ row !! "claim" = Some (JStr "It takes time.")
  | Err _ => False
  end.
Proof.
  destruct (article_rows _ _ _) as [rows|] eqn:E; [|wrong_shape E].
  apply (qa_rows_follow_the_arguments ScenarioCsv.unhashable
           ScenarioCsv.qa_result
           [ {| QA.question := "Why?"; QA.answer := "Because.";
                QA.claim := "It is so."; QA.premises := ["It was said."] |};
             {| QA.question := "How?"; QA.answer := "Slowly.";
                QA.claim := "It takes time.";
                QA.premises := ["p1"; "p2"; "p3"; "p4"; "p5"; "p6"] |} ]
           5 rows 1
           {| QA.question := "How?"; QA.answer := "Slowly.";
              QA.claim := "It takes time.";
              QA.premises := ["p1"; "p2"; "p3"; "p4"; "p5"; "p6"] |}
           eq_refl E eq_refl).
Defined.

End CsvFacts.

(** ** [run_pipeline] *)

Section RunFacts.
Import Main.

Lemma for_each_Forall2 {W A B} (f : A -> M W B) (l : list A) w w' ys :
  for_each f l w = (w', Returns ys) ->
  Forall2 (fun x y => exists w1 w2, f x w1 = (w2, Returns y)) l ys.
Proof.
  revert w w' ys. induction l as [|x l IH]; intros w w' ys; cbn.
  - intros [= _ <-]. constructor.
  - intros H. apply bind_inv_returns in H as (w1 & y & Hy & H).
    apply bind_inv_returns in H as (w2 & ys' & Hrest & H).
    injection H as _ <-. constructor; [eauto|eapply IH, Hrest].
Qed.

Lemma for_each_raises_at {W A B} (f : A -> M W B) (before after : list A)
    x w w1 w2 ys e :
  for_each f before w = (w1, Returns ys) ->
  f x w1 = (w2, Raises e) ->
  for_each f (before ++ x :: after) w = (w2, Raises e).
Proof.
  revert w ys. induction before as [|a before IH]; intros w ys; cbn.
  - intros [= <- _] Hx. unfold bind. now rewrite Hx.
  - intros H Hx. apply bind_inv_returns in H as (w3 & y & Hy & H).
    apply bind_inv_returns in H as (w4 & ys' & Hrest & H).
    injection H as -> _.
    unfold bind at 1. rewrite Hy. unfold bind at 1.
    now rewrite (IH _ _ Hrest Hx).
Qed.

Section SingleFacts.
Context {W : Type} (client : OpenAICalls.Service W) (model : string).

Lemma direct_process_single_str cprompt pprompt s id :
  direct_process_single client model cprompt pprompt (JStr s) id
  = Direct.process_single client model cprompt pprompt s id.
Proof. reflexivity. Qed.

Lemma qa_process_single_str qprompt aprompt gprompt s id :
  qa_process_single client model qprompt aprompt gprompt (JStr s) id
  = QA.process_single client model qprompt aprompt gprompt s id.
Proof. reflexivity. Qed.

Lemma direct_single_fields cprompt pprompt text id w w' r :
  direct_process_single client model cprompt pprompt text id w
    = (w', Returns r) ->
  Direct.text r = text /\ Direct.article_id r = id.
Proof.
  unfold direct_process_single.
  destruct (direct_extract_conclusions _ _ _ _ _) as [w1 [found|e|]].
  - destruct (direct_process_conclusions _ _ _ _ _ _) as [w2 [args|e|]].
    + now intros [= _ <-].
    + destruct (Direct.handled e); [|discriminate]. now intros [= _ <-].
    + discriminate.
  - destruct (Direct.handled e); [|discriminate]. now intros [= _ <-].
  - discriminate.
Qed.

Lemma qa_single_fields qprompt aprompt gprompt text id w w' r :
  qa_process_single client model qprompt aprompt gprompt text id w
    = (w', Returns r) ->
  QA.text r = text /\ QA.article_id r = id.
Proof.
  unfold qa_process_single.
  destruct (qa_extract_questions _ _ _ _ _) as [w1 [found|e|]].
  - destruct (qa_process_questions _ _ _ _ _ _ _) as [w2 [args|e|]].
    + now intros [= _ <-].
    + destruct (QA.handled e); [|discriminate]. now intros [= _ <-].
    + discriminate.
  - destruct (QA.handled e); [|discriminate]. now intros [= _ <-].
  - discriminate.
Qed.

End SingleFacts.

Lemma sequential_one_per_article {W R} (extractor : Extractor W R)
    (text_of id_of : R -> json) fuel articles w w' results :
  (forall text id w w' r,
     process_single extractor text id w = (w', Returns r) ->
     text_of r = text /\ id_of r = id) ->
  run_pipeline extractor fuel articles false w = (w', Returns results) ->
  one_per_article text_of id_of articles "text" (Some "article_id") results
  /\ forall article, article ∈ articles -> is_Some (article !! "text").
Proof.
  intros Hfields Hrun. cbn in Hrun. apply for_each_Forall2 in Hrun.
  split; [split|].
  - symmetry. eapply Forall2_length, Hrun.
  - intros i article Hi.
    destruct (Forall2_lookup_l _ _ _ _ _ Hrun Hi) as (r & Hr & w1 & w2 & H).
    exists r. split; [exact Hr|].
    destruct (article !! "text") as [text|] eqn:Ht; [|discriminate].
    apply Hfields in H as [-> ->]. unfold Py.dict_get. now rewrite Ht.
  - intros article [i Hi]%list_elem_of_lookup.
    destruct (Forall2_lookup_l _ _ _ _ _ Hrun Hi) as (r & Hr & w1 & w2 & H).
    destruct (article !! "text"); [eauto|discriminate].
Qed.

(** X21.  Whichever the extractor and the mode, a list that
    [run_pipeline] returns holds one record per article, in the order of
    the articles, each with the text and the id of its article.  In
    sequential mode it returns only when every article has a text. *)
Theorem run_pipeline_one_result_per_article :
  forall {W} (client : OpenAICalls.Service W) model,
    (forall cprompt pprompt fuel articles run_batch w w' results,
       run_pipeline (direct_extractor client model cprompt pprompt)
         fuel articles run_batch w = (w', Returns results) ->
       one_per_article Direct.text Direct.article_id articles
         "text" (Some "article_id") results
       /\ (run_batch = false ->
           forall article, article ∈ articles -> is_Some (article !! "text")))
    /\ (forall qprompt aprompt gprompt fuel articles run_batch w w' results,
          run_pipeline (qa_extractor client model qprompt aprompt gprompt)
            fuel articles run_batch w = (w', Returns results) ->
          one_per_article QA.text QA.article_id articles
            "text" (Some "article_id") results
          /\ (run_batch = false ->
              forall article,
                article ∈ articles -> is_Some (article !! "text"))).
Proof.
  intros W client model. split.
  - intros cprompt pprompt fuel articles [|] w w' results Hrun.
    + split; [|discriminate]. cbn in Hrun.
      apply direct_process_batch_inv in Hrun as (p1 & p2 & Hrun).
      apply (direct_combine_one_per_article _ _ Hrun).
    + destruct (sequential_one_per_article
                  (direct_extractor client model cprompt pprompt)
                  Direct.text Direct.article_id fuel articles w w' results)
        as [H1 H2]; [|exact Hrun|auto].
      intros text id w1 w2 r. apply direct_single_fields.
  - intros qprompt aprompt gprompt fuel articles [|] w w' results Hrun.
    + split; [|discriminate]. cbn in Hrun.
      apply qa_process_batch_inv in Hrun as (p1 & p2 & p3 & Hrun).
      apply (qa_combine_one_per_article _ _ Hrun).
    + destruct (sequential_one_per_article
                  (qa_extractor client model qprompt aprompt gprompt)
                  QA.text QA.article_id fuel articles w w' results)
        as [H1 H2]; [|exact Hrun|auto].
      intros text id w1 w2 r. apply qa_single_fields.
Qed.

(** X22.  In sequential mode one failure costs the whole run.  When the
    articles before the k-th have been processed and the k-th has no
    text, or its [process_single] raises, [run_pipeline] raises the same
    exception: none of the results obtained so far is returned, and no
    later article is processed (the outside world is left as the failing
    call left it). *)
Theorem sequential_run_stops_at_first_failure :
  forall {W R} (extractor : Extractor W R) fuel before article after
         w w1 results,
    run_pipeline extractor fuel before false w = (w1, Returns results) ->
    (article !! "text" = None ->
     exists e,
       exn_cls e = KeyError
       /\ run_pipeline extractor fuel (before ++ article :: after) false w
          = (w1, Raises e))
    /\ (forall text w2 e,
          article !! "text" = Some text ->
          process_single extractor text
            (Py.dict_get article "article_id" JNull) w1 = (w2, Raises e) ->
          run_pipeline extractor fuel (before ++ article :: after) false w
          = (w2, Raises e)).
Proof.
  intros W R extractor fuel before article after w w1 results Hbefore.
  cbn in Hbefore. split.
  - intros Ht. eexists. split; [|cbn].
    2:{ apply (for_each_raises_at _ before after article w w1 w1 results);
          [exact Hbefore|]. rewrite Ht. reflexivity. }
    reflexivity.
  - intros text w2 e Ht He. cbn.
    apply (for_each_raises_at _ before after article w w1 w2 results);
      [exact Hbefore|]. now rewrite Ht.
Qed.

Ltac wrong_outcome E :=
  apply (f_equal (fun r : _ * outcome _ =>
                    match r.2 with
                    | Returns _ => 0
                    | Raises _ => 1
                    | OutOfFuel => 2
                    end)) in E;
  vm_compute in E; discriminate E.

Lemma run_pipeline_one_result_per_article_witness :
  match run_pipeline ScenarioRun.extractor 0
          [ScenarioRun.record "a1" "First text."] false ScenarioRun.start
  with
  | (_, Returns results) =>
      one_per_article Direct.text Direct.article_id
        [ScenarioRun.record "a1" "First text."]
        "text" (Some "article_id") results
  | _ => False
  end.
Proof.
  destruct (run_pipeline _ _ _ _ _) as [w' [results| |]] eqn:E;
    [|wrong_outcome E..].
  apply (proj1 (run_pipeline_one_result_per_article
                  Scenario.service "gpt-4o-mini")
           Scenario.prompt1 Scenario.prompt2 0
           [ScenarioRun.record "a1" "First text."] false
           ScenarioRun.start w' results E).
Defined.

Lemma sequential_run_stops_at_first_failure_witness :
  run_pipeline ScenarioRun.extractor 0
    ([ScenarioRun.record "a1" "First text."]
     ++ ScenarioRun.record "a2" "Second text."
     :: [ScenarioRun.record "a3" "Third text."])
    false ScenarioRun.start
  = (Scenario.idle,
     Raises (Exn (OtherError "APIConnectionError") "Connection error.")).
Proof.
  apply (proj2 (sequential_run_stops_at_first_failure
                  ScenarioRun.extractor 0
                  [ScenarioRun.record "a1" "First text."]
                  (ScenarioRun.record "a2" "Second text.")
                  [ScenarioRun.record "a3" "Third text."]
                  ScenarioRun.start Scenario.idle
                  [ScenarioRun.first_result]
                  ltac:(vm_compute; reflexivity))
           (JStr "Second text.") Scenario.idle
           (Exn (OtherError "APIConnectionError") "Connection error.")).
  - reflexivity.
  - vm_compute. reflexivity.
Defined.

End RunFacts.

(** ** A job that ends without output *)


Section NoOutput.
Import OpenAICalls.
Context {W : Type} (client : Service W) (model : string).








End NoOutput.



(** ** Two more instances *)


Lemma later_requests_follow_earlier_ones_witness :
  exists i j r2,
    OpenAICalls.custom_id
      (OpenAICalls.build_batch_request (QA.arg_key 0 2)
         (Scenario.prompt3 "When?" "In May.") "gpt-4o-mini" (1 # 10)%Q)
    = QA.arg_key i j
    /\ r2 ∈ QA.phase2_requests "gpt-4o-mini" Scenario.prompt2'
              ScenarioB.one_article ScenarioB.questions_map "text"
    /\ OpenAICalls.custom_id r2 = QA.qa_key i j.
Proof.
  apply (proj1 (proj2 (proj2 (later_requests_follow_earlier_ones
                                "gpt-4o-mini" "text" ScenarioB.one_article)))
           Scenario.prompt2' Scenario.prompt3
           ScenarioB.questions_map ScenarioB.answers_map
           (OpenAICalls.build_batch_request (QA.arg_key 0 2)
              (Scenario.prompt3 "When?" "In May.") "gpt-4o-mini" (1 # 10)%Q)).
  vm_compute. repeat constructor.
Defined.
